(** * The self-gating web collection engine ([agents/web_collection.py])

    A shallow embedding of [WebCollectionAgent]: query planning, URL
    de-duplication, reliability scoring, statistics, the sufficiency gate
    and the bounded attempt loop of [execute], followed by the properties
    the specification states about them.

    Conventions of the embedding.
    - A Python [str] is a [string]; the characters are those of the ASCII
      range.
    - A Python [int] is a [Z]; [len] is [Z.of_nat (length _)].
    - A Python [float] that the engine stores or compares (a score, an
      average, a threshold) is a decimal with at most two digits after
      the point; it is written as that rational in [Q], which stands for
      the double nearest to it.  The module [Binary64] has the IEEE-754
      binary64 operations: the mean of the scores is computed with them,
      as the code computes it, and the score arithmetic is re-run with
      them and shown to take the same branches and to return the same
      two-decimal scores as the exact arithmetic does.
    - A [dict] with a fixed set of keys is a record; [sources_breakdown],
      whose keys are data, is a [gmap]; a [set] is a [gset].
    - Library calls whose result the module only consumes ([urlparse],
      [datetime.fromisoformat], the clock, the search and classification
      services) are section variables or fields of a [World]. *)

From Stdlib Require Import ZArith QArith Qround String Ascii List Bool Lia.
From Stdlib Require Import Floats.SpecFloat.
From stdpp Require Import base gmap sets list strings sorting pretty.

Open Scope string_scope.
Open Scope Z_scope.

(** ** Python strings *)

Module Py.

Definition code (c : ascii) : N := N_of_ascii c.

Definition between (lo hi : N) (c : ascii) : bool :=
  ((lo <=? code c) && (code c <=? hi))%N.

(** [str.isspace] on the ASCII range: TAB, LF, VT, FF, CR, the four
    separators 0x1c-0x1f and the space. *)
Definition isspace (c : ascii) : bool :=
  between 9 13 c || between 28 31 c || (code c =? 32)%N.

Definition isdigit (c : ascii) : bool := between 48 57 c.
Definition isupper (c : ascii) : bool := between 65 90 c.
Definition islower (c : ascii) : bool := between 97 122 c.
Definition isalpha (c : ascii) : bool := isupper c || islower c.

Definition lower_char (c : ascii) : ascii :=
  if isupper c then ascii_of_N (code c + 32) else c.

(** [s.lower()] *)
Fixpoint lower (s : string) : string :=
  match s with
  | EmptyString => EmptyString
  | String c s' => String (lower_char c) (lower s')
  end.

Fixpoint lstrip (s : string) : string :=
  match s with
  | String c s' => if isspace c then lstrip s' else s
  | EmptyString => EmptyString
  end.

(** Strip on the right: a character is kept when something that is kept
    follows it, or when it is not white space. *)
Fixpoint rstrip (s : string) : string :=
  match s with
  | EmptyString => EmptyString
  | String c s' =>
      match rstrip s' with
      | EmptyString => if isspace c then EmptyString else String c EmptyString
      | r => String c r
      end
  end.

(** [s.strip()] *)
Definition strip (s : string) : string := rstrip (lstrip s).

(** [re.sub(r"[^a-z0-9]", "", s)] *)
Fixpoint keep_alnum_lower (s : string) : string :=
  match s with
  | EmptyString => EmptyString
  | String c s' =>
      if islower c || isdigit c then String c (keep_alnum_lower s')
      else keep_alnum_lower s'
  end.

Definition digit_val (c : ascii) : Z := Z.of_N (code c) - 48.

(** [int(s)] for a string of decimal digits. *)
Fixpoint int_acc (acc : Z) (s : string) : Z :=
  match s with
  | EmptyString => acc
  | String c s' => int_acc (10 * acc + digit_val c) s'
  end.

Definition int_of_digits (s : string) : Z := int_acc 0 s.

(** The one-character string [c]. *)
Definition chr (c : ascii) : string := String c EmptyString.

(** [f"{n:0{w}d}"] for a non-negative [n]. *)
Definition zfill (w : nat) (n : Z) : string :=
  let s : string := pretty (Z.to_N n) in
  String.concat "" (repeat "0" (w - String.length s)%nat) ++ s.

(** [str(n)] *)
Definition str_of_Z (n : Z) : string := pretty n.

(** Python's builtin [min(a, b)] and [max(a, b)] on numbers: the first
    argument is kept unless the second is strictly better. *)
Definition Qltb (a b : Q) : bool := negb (Qle_bool b a).
Definition min (a b : Q) : Q := if Qltb b a then b else a.
Definition max (a b : Q) : Q := if Qltb a b then b else a.

(** [round(x)] to the nearest integer, ties to the even one. *)
Definition round_half_even (x : Q) : Z :=
  let f := Qfloor x in
  let r := (x - inject_Z f)%Q in
  match (r ?= 1 # 2)%Q with
  | Lt => f
  | Gt => f + 1
  | Eq => if Z.even f then f else f + 1
  end.

(** [round(x, 2)] *)
Definition round2 (x : Q) : Q :=
  (inject_Z (round_half_even (x * 100)) / 100)%Q.

(** [sorted(set(l))] for a list of strings: the distinct elements in
    increasing order. *)
Definition str_le (a b : string) : Prop := String.leb a b = true.

#[global] Instance str_le_dec : RelDecision str_le.
Proof. intros a b. unfold str_le. apply _. Defined.

#[global] Instance str_le_total : Total str_le.
Proof. intros a b. apply String.leb_total. Qed.

Definition sorted_set (l : list string) : list string :=
  merge_sort str_le (remove_dups l).

End Py.

Example strip_ex : Py.strip "  2024-01-02 " = "2024-01-02".
Proof. reflexivity. Qed.

Example lower_ex : Py.lower "WWW.Example.COM" = "www.example.com".
Proof. reflexivity. Qed.

Example zfill_ex : Py.zfill 2 7 = "07" /\ Py.zfill 4 2024 = "2024".
Proof. split; reflexivity. Qed.

Example round2_ex :
  Qeq (Py.round2 0.125) 0.12 /\ Qeq (Py.round2 0.135) 0.14 /\ Qeq (Py.round2 0.7) 0.7.
Proof. repeat split. Qed.

Example sorted_set_ex :
  Py.sorted_set ["reliability"; "docs_count"; "diversity"; "docs_count"]
  = ["diversity"; "docs_count"; "reliability"].
Proof. reflexivity. Qed.

(** ** Exceptions

    A call either returns a value or raises; [Raise] carries [str(e)]. *)

Inductive result (A : Type) : Type :=
| Ok (a : A)
| Raise (msg : string).
Arguments Ok {A} a.
Arguments Raise {A} msg.

#[global] Instance result_ret : MRet result := @Ok.

#[global] Instance result_bind : MBind result := fun A B f r =>
  match r with
  | Ok a => f a
  | Raise msg => Raise msg
  end.

(** ** The [datetime] library, as far as the module uses it *)

Module Datetime.

(** A [datetime]; [tzinfo] is the UTC offset in microseconds of an aware
    value and [None] for a naive one. *)
Record datetime : Type := mk {
  year : Z; month : Z; day : Z;
  hour : Z; minute : Z; second : Z; microsecond : Z;
  tzinfo : option Z
}.

Definition is_leap (y : Z) : bool :=
  (y mod 4 =? 0) && (negb (y mod 100 =? 0) || (y mod 400 =? 0)).

Definition days_in_month (y m : Z) : Z :=
  if m =? 2 then (if is_leap y then 29 else 28)
  else if (m =? 4) || (m =? 6) || (m =? 9) || (m =? 11) then 30
  else 31.

Definition days_before_year (y : Z) : Z :=
  let p := y - 1 in p * 365 + p / 4 - p / 100 + p / 400.

(** Days of the year before the first of month [m] in a common year. *)
Definition days_before_month_common (m : Z) : Z :=
  nth (Z.to_nat m) [0; 0; 31; 59; 90; 120; 151; 181; 212; 243; 273; 304; 334] 0.

Definition days_before_month (y m : Z) : Z :=
  days_before_month_common m + (if (2 <? m) && is_leap y then 1 else 0).

(** Proleptic Gregorian ordinal, 0001-01-01 being day 1. *)
Definition ymd2ord (y m d : Z) : Z :=
  days_before_year y + days_before_month y m + d.

Definition max_ordinal : Z := 3652059.

(** The inverse of [ymd2ord], by 400-, 100-, 4- and 1-year cycles. *)
Definition ord2ymd (n : Z) : Z * Z * Z :=
  let n := n - 1 in
  let n400 := n / 146097 in let n := n mod 146097 in
  let y := n400 * 400 + 1 in
  let n100 := n / 36524 in let n := n mod 36524 in
  let n4 := n / 1461 in let n := n mod 1461 in
  let n1 := n / 365 in let n := n mod 365 in
  let y := y + n100 * 100 + n4 * 4 + n1 in
  if (n1 =? 4) || (n100 =? 4) then (y - 1, 12, 31)
  else
    let leapyear := (n1 =? 3) && (negb (n4 =? 24) || (n100 =? 3)) in
    let m := Z.shiftr (n + 50) 5 in
    let preceding :=
      days_before_month_common m + (if (2 <? m) && leapyear then 1 else 0) in
    if n <? preceding then
      let m := m - 1 in
      let dim := if (m =? 2) && leapyear then 29 else days_in_month 1 m in
      (y, m, n - (preceding - dim) + 1)
    else (y, m, n - preceding + 1).

(** [datetime(y, m, d)]: [None] stands for the [ValueError] of an
    out-of-range field. *)
Definition make (y m d : Z) : option datetime :=
  if (1 <=? y) && (y <=? 9999) && (1 <=? m) && (m <=? 12)
     && (1 <=? d) && (d <=? days_in_month y m)
  then Some (mk y m d 0 0 0 0 None)
  else None.

Definition toordinal (t : datetime) : Z := ymd2ord (year t) (month t) (day t).

Definition day_us : Z := 86400 * 1000000.

(** Microseconds since the start of day 0. *)
Definition micros (t : datetime) : Z :=
  toordinal t * day_us
  + ((hour t * 60 + minute t) * 60 + second t) * 1000000 + microsecond t.

(** [(a - b).days].  A [timedelta] is normalised with a non-negative
    time part, so the day count is the floor of the difference.
    Mixing a naive and an aware operand raises [TypeError]. *)
Definition sub_days (a b : datetime) : result Z :=
  match tzinfo a, tzinfo b with
  | None, None => Ok ((micros a - micros b) / day_us)
  | Some oa, Some ob => Ok (((micros a - oa) - (micros b - ob)) / day_us)
  | _, _ => Raise "can't subtract offset-naive and offset-aware datetimes"
  end.

(** [date.isoformat()] *)
Definition iso_ymd (y m d : Z) : string :=
  Py.zfill 4 y ++ "-" ++ Py.zfill 2 m ++ "-" ++ Py.zfill 2 d.

(** [t.date().isoformat()] *)
Definition date_isoformat (t : datetime) : string :=
  iso_ymd (year t) (month t) (day t).

(** [(t - timedelta(days=n)).date().isoformat()]; a [timedelta] of more
    than 999999999 days or a result outside years 1..9999 raises
    [OverflowError]. *)
Definition minus_days_isoformat (t : datetime) (n : Z) : result string :=
  if 999999999 <? Z.abs n then
    Raise ("days=" ++ Py.str_of_Z n ++ "; must have magnitude <= 999999999")
  else
    let o := toordinal t - n in
    if (1 <=? o) && (o <=? max_ordinal) then
      let '(y, m, d) := ord2ymd o in Ok (iso_ymd y m d)
    else Raise "date value out of range".

End Datetime.

Abbreviation datetime := Datetime.datetime.

Example ord_ex :
  Datetime.ymd2ord 2024 3 1 = 738946 /\ Datetime.ord2ymd 738946 = (2024, 3, 1)
  /\ Datetime.ord2ymd 738945 = (2024, 2, 29)
  /\ Datetime.ord2ymd (Datetime.ymd2ord 2000 12 31) = (2000, 12, 31)
  /\ Datetime.ord2ymd (Datetime.ymd2ord 1900 3 1 - 1) = (1900, 2, 28)
  /\ Datetime.ord2ymd Datetime.max_ordinal = (9999, 12, 31).
Proof. repeat split. Qed.

Example minus_days_ex :
  Datetime.minus_days_isoformat (Datetime.mk 2024 7 1 13 30 0 0 None) 180
  = Ok "2024-01-03".
Proof. reflexivity. Qed.

(** ** Regular expressions of [_parse_date]

    Each pattern is written as a backtracking matcher in continuation
    style: a greedy quantifier first tries the longest repetition and
    falls back to a shorter one when the rest of the pattern fails. *)

Module Re.

Section Matcher.
Context {T : Type}.

(** [\d{1,2}], captured *)
Definition digits12 (k : string -> string -> option T) (s : string)
  : option T :=
  match s with
  | String a r =>
      if Py.isdigit a then
        match r with
        | String b r' =>
            if Py.isdigit b then
              match k (String a (String b EmptyString)) r' with
              | Some x => Some x
              | None => k (Py.chr a) r
              end
            else k (Py.chr a) r
        | EmptyString => k (Py.chr a) r
        end
      else None
  | EmptyString => None
  end.

(** [\d{4}], captured *)
Definition digits4 (k : string -> string -> option T) (s : string)
  : option T :=
  match s with
  | String a (String b (String c (String d r))) =>
      if Py.isdigit a && Py.isdigit b && Py.isdigit c && Py.isdigit d
      then k (String a (String b (String c (String d EmptyString)))) r else None
  | _ => None
  end.

(** [[-/.]] *)
Definition sep (k : string -> option T) (s : string) : option T :=
  match s with
  | String c r =>
      if (Ascii.eqb c "-" || Ascii.eqb c "/" || Ascii.eqb c ".")%char
      then k r else None
  | EmptyString => None
  end.

(** [,?] *)
Definition opt_comma (k : string -> option T) (s : string) : option T :=
  match s with
  | String c r =>
      if Ascii.eqb c ","%char then
        match k r with
        | Some x => Some x
        | None => k s
        end
      else k s
  | EmptyString => k s
  end.

(** [\s+] *)
Fixpoint spaces (k : string -> option T) (s : string) : option T :=
  match s with
  | String c r =>
      if Py.isspace c then
        match spaces k r with
        | Some x => Some x
        | None => k r
        end
      else None
  | EmptyString => None
  end.

(** [([A-Za-z]+)], captured; [acc] is what the group has consumed. *)
Fixpoint letters (acc : string) (k : string -> string -> option T)
  (s : string) : option T :=
  match s with
  | String c r =>
      if Py.isalpha c then
        match letters (acc ++ Py.chr c) k r with
        | Some x => Some x
        | None => k (acc ++ Py.chr c) r
        end
      else None
  | EmptyString => None
  end.

(** [re.search]: the match at the leftmost position that has one. *)
Fixpoint search (m : string -> option T) (s : string) : option T :=
  match m s with
  | Some x => Some x
  | None =>
      match s with
      | String _ r => search m r
      | EmptyString => None
      end
  end.

End Matcher.

(** [(\d{4})[-/.](\d{1,2})[-/.](\d{1,2})], groups [(y, mo, d)] *)
Definition ymd_here : string -> option (string * string * string) :=
  digits4 (fun y => sep (digits12 (fun mo => sep (digits12 (fun d _ =>
    Some (y, mo, d)))))).

(** [([A-Za-z]+)\s+(\d{1,2}),?\s+(\d{4})], groups [(mon_s, d, y)] *)
Definition mdy_here : string -> option (string * string * string) :=
  letters "" (fun mon_s => spaces (digits12 (fun d => opt_comma (spaces
    (digits4 (fun y _ => Some (mon_s, d, y))))))).

End Re.

Example re_ymd_ex :
  Re.search Re.ymd_here "posted 2024/3/15 10:00"
  = Some ("2024", "3", "15")
  /\ Re.search Re.ymd_here "12024.01.023" = Some ("2024", "01", "02")
  /\ Re.search Re.ymd_here "2024-123-4" = None.
Proof. repeat split. Qed.

Example re_mdy_ex :
  Re.search Re.mdy_here "on Mar 5, 2024"
  = Some ("Mar", "5", "2024")
  /\ Re.search Re.mdy_here "January 12 2024 "
     = Some ("January", "12", "2024")
  /\ Re.search Re.mdy_here "Jan 123, 2024" = None
  /\ Re.search Re.mdy_here "Jan 12,  20245" = Some ("Jan", "12", "2024")
  /\ Re.search Re.mdy_here "x1 Jan 1 , 2024" = None.
Proof. repeat split. Qed.

(** ** Data model *)

(** What [urllib.parse.urlparse] returns. *)
Record ParseResult : Type := {
  scheme : string; netloc : string; path : string;
  params : string; query : string; fragment : string
}.

(** A document dictionary as [_analyze_documents] builds it.  The keys the
    engine never reads again (excerpt, two_line_summary, author, the
    verification flags and the collection provenance) are left out. *)
Record Document : Type := {
  doc_id : string;
  url : string;
  title : string;
  content : string;
  source_type : string;
  source_category : string;
  publisher : option string;
  date : option string;
  age_days : Z;
  is_recent : bool;
  reliability : string;
  reliability_score : Q;
  reliability_reasons : list string;
  evidence_tier : string
}.

(** The dictionary [_calculate_reliability] returns. *)
Record Rating : Type := {
  r_reliability : string;
  r_reliability_score : Q;
  r_reliability_reasons : list string;
  r_evidence_tier : string
}.

(** The three assignments of [_assess_reliability] to [age_days],
    [is_recent] and [date]. *)
Definition set_recency (doc : Document) (age : Z) (recent : bool)
  (d : option string) : Document :=
  {| doc_id := doc_id doc; url := url doc; title := title doc;
     content := content doc; source_type := source_type doc;
     source_category := source_category doc; publisher := publisher doc;
     date := d; age_days := age; is_recent := recent;
     reliability := reliability doc;
     reliability_score := reliability_score doc;
     reliability_reasons := reliability_reasons doc;
     evidence_tier := evidence_tier doc |}.

(** [doc.update(reliability)] *)
Definition doc_update (doc : Document) (r : Rating) : Document :=
  {| doc_id := doc_id doc; url := url doc; title := title doc;
     content := content doc; source_type := source_type doc;
     source_category := source_category doc; publisher := publisher doc;
     date := date doc; age_days := age_days doc; is_recent := is_recent doc;
     reliability := r_reliability r;
     reliability_score := r_reliability_score r;
     reliability_reasons := r_reliability_reasons r;
     evidence_tier := r_evidence_tier r |}.

(** The threshold profile of a run. *)
Record ThresholdProfile : Type := {
  min_docs : Z;
  min_primary : Z;
  recent_window_days : Z;
  min_recent : Z;
  avg_rel_min : Q;
  low_ratio_max : Q;
  distinct_domains_min : Z;
  category_diversity_min : Z;
  max_attempts : Z
}.

(** The statistics dictionary.  The five keys the gate reads with
    [stats.get(key, default)] are optional, so that a dictionary without
    them can be written down; [_calculate_statistics] sets them all. *)
Record Stats : Type := {
  sources_breakdown : option (gmap string Z);
  primary_sources_count : option Z;
  secondary_sources_count : Z;
  newest_date : option string;
  oldest_date : option string;
  recent_documents_count : option Z;
  high_reliability_count : Z;
  medium_reliability_count : Z;
  low_reliability_count : option Z;
  average_reliability : option Q
}.

(** The reason strings of the gate, by template and arguments. *)
Inductive Reason : Type :=
| DocsShort (total minimum : Z)
| PrimaryShort (n minimum : Z)
| RecentShort (n minimum : Z)
| AverageLow (avg minimum : Q)
| LowRatioHigh (ratio maximum : Q)
| DomainsShort (n minimum : Z)
| CategoriesShort (n minimum : Z).

Record Gate : Type := {
  passed : bool;
  missing_slots : list string;
  reasons : list Reason
}.

Record LogEntry : Type := {
  log_attempt : Z;
  log_queries : list string;
  log_new_docs : Z;
  log_total_docs : Z;
  log_gate_passed : bool;
  log_missing_slots : list string;
  log_reasons : list Reason;
  log_timestamp : string
}.

Record ErrorEntry : Type := {
  stage : string;
  error_message : string;
  timestamp : string;
  recovered : bool;
  traceback : option string;
  impact_on_reliability : string
}.

(** The value under the key [documents] of [state["web_collection"]] is a
    reference: the empty list [execute] starts with, or the very list
    object [cumulative_docs] that later attempts keep extending. *)
Inductive DocsRef : Type :=
| FreshEmpty
| Cumulative.

(** [state["web_collection"]]; [**stats] is kept as one field. *)
Record WebCollection : Type := {
  status : string;
  documents : DocsRef;
  count : Z;
  sources : gset string;
  stats : Stats;
  gate : Gate;
  attempts_current : Z;
  attempts_max : Z;
  decision_log : list LogEntry;
  threshold_profile : ThresholdProfile;
  error : option string
}.

(** The pipeline state, as far as [execute] reads or writes it. *)
Record State : Type := {
  company_name : string;
  domain : string;
  errors : list ErrorEntry;
  web_collection : WebCollection
}.

(** ** Gate policy *)

Definition DEFAULT_MIN_DOCS : Z := 50.
Definition DEFAULT_MIN_PRIMARY : Z := 2.
Definition DEFAULT_RECENT_WINDOW_DAYS : Z := 180.
Definition DEFAULT_MIN_RECENT : Z := 3.
Definition DEFAULT_AVG_REL_MIN : Q := 0.6.
Definition DEFAULT_LOW_RATIO_MAX : Q := 0.3.
Definition DEFAULT_DISTINCT_DOMAINS_MIN : Z := 4.
Definition DEFAULT_CATEGORY_DIVERSITY_MIN : Z := 2.
Definition DEFAULT_MAX_ATTEMPTS : Z := 2.

Definition default_threshold_profile : ThresholdProfile :=
  {| min_docs := DEFAULT_MIN_DOCS;
     min_primary := DEFAULT_MIN_PRIMARY;
     recent_window_days := DEFAULT_RECENT_WINDOW_DAYS;
     min_recent := DEFAULT_MIN_RECENT;
     avg_rel_min := DEFAULT_AVG_REL_MIN;
     low_ratio_max := DEFAULT_LOW_RATIO_MAX;
     distinct_domains_min := DEFAULT_DISTINCT_DOMAINS_MIN;
     category_diversity_min := DEFAULT_CATEGORY_DIVERSITY_MIN;
     max_attempts := DEFAULT_MAX_ATTEMPTS |}.

(** ** ReliabilityScorer *)

(** The [category_bonus] table; [None] for a key that is not in it. *)
Definition category_bonus (category : string) : option Q :=
  if String.eqb category "company" then Some 0.1%Q
  else if String.eqb category "news" then Some 0.0%Q
  else if String.eqb category "blog" then Some (-0.1)%Q
  else None.

(** [_calculate_reliability]: score by source type, category and recency. *)
Definition _calculate_reliability (doc : Document) : Rating :=
  let score := 0.5%Q in
  let reasons : list string := [] in
  let '(score, reasons) :=
    if String.eqb (source_type doc) "primary"
    then ((score + 0.2)%Q, (reasons ++ ["primary source"])%list)
    else (score, reasons) in
  let score := (score + default 0.0 (category_bonus (source_category doc)))%Q in
  let '(score, reasons) :=
    if is_recent doc
    then ((score + 0.1)%Q, (reasons ++ ["recent within policy window"])%list)
    else (score, reasons) in
  let score := Py.max 0.0 (Py.min 1.0 score) in
  let '(reliability, tier) :=
    if Qle_bool 0.7 score then ("high", "tier1")
    else if Qle_bool 0.4 score then ("medium", "tier2")
    else ("low", "tier3") in
  {| r_reliability := reliability;
     r_reliability_score := Py.round2 score;
     r_reliability_reasons := reasons;
     r_evidence_tier := tier |}.

(** ** Doubles

    IEEE-754 binary64 with round-to-nearest-even, on the specification
    floats of the Standard Library. *)

Module Binary64.

Definition prec : Z := 53.
Definition emax : Z := 1024.

Definition of_Z (n : Z) : spec_float := binary_normalize prec emax n 0 false.

(** The double nearest to [n / d], which is the double the decimal
    literal of that quotient denotes. *)
Definition nearest (n d : Z) : spec_float := SFdiv prec emax (of_Z n) (of_Z d).

Definition of_Q (q : Q) : spec_float := nearest (Qnum q) (Z.pos (Qden q)).

(** The exact value of a finite double. *)
Definition to_Q (x : spec_float) : Q :=
  match x with
  | S754_finite s m e =>
      (inject_Z (cond_Zopp s (Z.pos m)) * Qpower 2 e)%Q
  | _ => 0%Q
  end.

Definition add : spec_float -> spec_float -> spec_float := SFadd prec emax.
Definition div : spec_float -> spec_float -> spec_float := SFdiv prec emax.

(** [min(a, b)] and [max(a, b)] of Python, on doubles. *)
Definition min (a b : spec_float) : spec_float := if SFltb b a then b else a.
Definition max (a b : spec_float) : spec_float := if SFltb a b then b else a.

(** [round(x, 2)]: the decimal with two places nearest to the exact value
    of [x], ties to even, read back as a double. *)
Definition round2 (x : spec_float) : spec_float :=
  nearest (Py.round_half_even (to_Q x * 100)) 100.

Definition category_bonus (category : string) : option spec_float :=
  if String.eqb category "company" then Some (nearest 1 10)
  else if String.eqb category "news" then Some (of_Z 0)
  else if String.eqb category "blog" then Some (SFopp (nearest 1 10))
  else None.

(** [_calculate_reliability] on doubles: label, tier and score. *)
Definition calculate_reliability (doc : Document)
  : string * string * spec_float :=
  let score := nearest 5 10 in
  let score :=
    if String.eqb (source_type doc) "primary" then add score (nearest 2 10)
    else score in
  let score := add score (default (of_Z 0) (category_bonus (source_category doc))) in
  let score := if is_recent doc then add score (nearest 1 10) else score in
  let score := max (of_Z 0) (min (of_Z 1) score) in
  let '(label, tier) :=
    if SFleb (nearest 7 10) score then ("high", "tier1")
    else if SFleb (nearest 4 10) score then ("medium", "tier2")
    else ("low", "tier3") in
  (label, tier, round2 score).

End Binary64.

(** ** StatsAggregator *)

Definition initial_stats : Stats :=
  {| sources_breakdown := Some ∅;
     primary_sources_count := Some 0;
     secondary_sources_count := 0;
     newest_date := None;
     oldest_date := None;
     recent_documents_count := Some 0;
     high_reliability_count := 0;
     medium_reliability_count := 0;
     low_reliability_count := Some 0;
     average_reliability := Some 0.0%Q |}.

(** One round of the counting loop of [_calculate_statistics]. *)
Definition count_document (st : Stats) (doc : Document) : Stats :=
  let cat := source_category doc in
  let rel := reliability doc in
  let primary := String.eqb (source_type doc) "primary" in
  {| sources_breakdown :=
       (fun m : gmap string Z => <[cat := default 0 (m !! cat) + 1]> m)
         <$> sources_breakdown st;
     primary_sources_count :=
       (fun n => if primary then n + 1 else n) <$> primary_sources_count st;
     secondary_sources_count :=
       (if primary then secondary_sources_count st
        else secondary_sources_count st + 1);
     newest_date := newest_date st;
     oldest_date := oldest_date st;
     recent_documents_count :=
       (fun n => if is_recent doc then n + 1 else n)
         <$> recent_documents_count st;
     high_reliability_count :=
       (if String.eqb rel "high" then high_reliability_count st + 1
        else high_reliability_count st);
     medium_reliability_count :=
       (if String.eqb rel "high" then medium_reliability_count st
        else if String.eqb rel "medium" then medium_reliability_count st + 1
        else medium_reliability_count st);
     low_reliability_count :=
       (fun n => if String.eqb rel "high" || String.eqb rel "medium"
                 then n else n + 1) <$> low_reliability_count st;
     average_reliability := average_reliability st |}.

(** [[doc.get("date") for doc in documents if doc.get("date")]] *)
Definition present_dates (documents : list Document) : list string :=
  omap (fun doc =>
          match date doc with
          | Some d => if String.eqb d "" then None else Some d
          | None => None
          end) documents.

Definition str_max (a b : string) : string := if String.ltb a b then b else a.
Definition str_min (a b : string) : string := if String.ltb b a then b else a.

(** [max(dates)] and [min(dates)] of a non-empty list, [None] otherwise. *)
Definition max_date (dates : list string) : option string :=
  match dates with
  | [] => None
  | d :: rest => Some (fold_left str_max rest d)
  end.

Definition min_date (dates : list string) : option string :=
  match dates with
  | [] => None
  | d :: rest => Some (fold_left str_min rest d)
  end.

(** [sum(doc.get("reliability_score", 0.5) for doc in documents)]: the
    builtin [sum] adds the doubles to 0 one after the other, from the
    left, each addition rounded to the nearest double.  This is the sum
    of CPython up to 3.11; from 3.12 on [sum] carries a compensation
    term for the rounding errors of the additions. *)
Definition sum_scores (documents : list Document) : spec_float :=
  fold_left (fun acc doc => Binary64.add acc (Binary64.of_Q (reliability_score doc)))
    documents (Binary64.of_Z 0).

Definition len {A : Type} (l : list A) : Z := Z.of_nat (length l).

(** [_calculate_statistics].  The mean is the quotient of two doubles;
    [round(avg_rel, 2)] is the decimal with two places nearest to the
    exact value of that double, ties to even. *)
Definition _calculate_statistics (documents : list Document) : Stats :=
  match documents with
  | [] => initial_stats
  | _ =>
      let st := fold_left count_document documents initial_stats in
      let dates := present_dates documents in
      let avg_rel :=
        Binary64.div (sum_scores documents) (Binary64.of_Z (len documents)) in
      {| sources_breakdown := sources_breakdown st;
         primary_sources_count := primary_sources_count st;
         secondary_sources_count := secondary_sources_count st;
         newest_date := max_date dates;
         oldest_date := min_date dates;
         recent_documents_count := recent_documents_count st;
         high_reliability_count := high_reliability_count st;
         medium_reliability_count := medium_reliability_count st;
         low_reliability_count := low_reliability_count st;
         average_reliability := Some (Py.round2 (Binary64.to_Q avg_rel)) |}
  end.

(** ** The agent

    [urlparse] and [datetime.fromisoformat] are library functions; [None]
    stands for the exception either may raise on a string it rejects. *)

Section Agent.

Variable urlparse : string -> option ParseResult.
Variable fromisoformat : string -> option datetime.

(** *** Helpers *)

(** [_normalize_url]: scheme, lower-cased network location and path. *)
Definition _normalize_url (u : string) : string :=
  match urlparse u with
  | Some p => scheme p ++ "://" ++ Py.lower (netloc p) ++ path p
  | None => u
  end.

(** [_distinct_domains]: the non-empty lower-cased hosts. *)
Definition _distinct_domains (documents : list Document) : gset string :=
  fold_left
    (fun (ds : gset string) d =>
       match urlparse (url d) with
       | Some p =>
           let host := Py.lower (netloc p) in
           if String.eqb host "" then ds else ds ∪ {[host]}
       | None => ds
       end)
    documents ∅.

(** [_company_domain_hint] *)
Definition _company_domain_hint (company : string) : string :=
  Py.keep_alnum_lower (Py.lower company) ++ ".com".

(** [calendar.month_abbr] and [calendar.month_name] (English). *)
Definition month_abbr : list string :=
  [""; "Jan"; "Feb"; "Mar"; "Apr"; "May"; "Jun";
   "Jul"; "Aug"; "Sep"; "Oct"; "Nov"; "Dec"].

Definition month_name : list string :=
  [""; "January"; "February"; "March"; "April"; "May"; "June"; "July";
   "August"; "September"; "October"; "November"; "December"].

(** [{m.lower(): i for i, m in enumerate(month_abbr) if m}] *)
Definition abbr_entries : list (string * Z) :=
  omap (fun '(i, m) =>
          if String.eqb m "" then None else Some (Py.lower m, Z.of_nat i))
       (imap pair month_abbr).

(** [{m.lower(): i for i in month_name if m}].  The loop variable of this
    comprehension is [i]; [m] is the variable of the enclosing function,
    which holds the result of the first [re.search] and is [None] where
    the comprehension is evaluated.  The filter [if m] is therefore false
    for every [i] and the dictionary is empty.  With a match object the
    key expression would raise [AttributeError]. *)
Definition month_name_entries (m : option (string * string * string))
  : result (list (string * Z)) :=
  match m with
  | None => Ok (omap (fun _ : string => None) month_name)
  | Some _ => Raise "'re.Match' object has no attribute 'lower'"
  end.

(** [_parse_date] *)
Definition _parse_date (s : option string) : option datetime :=
  match s with
  | None => None
  | Some s =>
      if String.eqb s "" then None
      else
        let s := Py.strip s in
        match fromisoformat s with
        | Some t => Some t
        | None =>
            let m := Re.search Re.ymd_here s in
            match m with
            | Some (y, mo, d) =>
                Datetime.make (Py.int_of_digits y) (Py.int_of_digits mo)
                  (Py.int_of_digits d)
            | None =>
                match month_name_entries m with
                | Raise _ => None
                | Ok entries =>
                    let mon_map : gmap string Z :=
                      list_to_map entries ∪ list_to_map abbr_entries in
                    match Re.search Re.mdy_here s with
                    | Some (mon_s, d, y) =>
                        match mon_map !! Py.lower mon_s with
                        | Some mi =>
                            if mi =? 0 then None
                            else Datetime.make (Py.int_of_digits y) mi
                                   (Py.int_of_digits d)
                        | None => None
                        end
                    | None => None
                    end
                end
            end
        end
  end.

(** *** Reliability and recency *)

(** The body of the loop of [_assess_reliability] for one document, with
    [now] the value [datetime.utcnow()] returns for it. *)
Definition assess_document (now : datetime) (doc : Document)
  : result Document :=
  doc ←
    match _parse_date (date doc) with
    | Some doc_date =>
        age_days ← Datetime.sub_days now doc_date;
        mret (set_recency doc (Z.max 0 age_days)
                (age_days <=? DEFAULT_RECENT_WINDOW_DAYS)
                (Some (Datetime.date_isoformat doc_date)))
    | None => mret (set_recency doc 9999 false None)
    end;
  mret (doc_update doc (_calculate_reliability doc)).

(** [_assess_reliability] updates the documents of the list in place,
    from the first on.  When a document raises, the ones before it keep
    their update and the rest of the list is as it was; the list is
    returned together with the message, if any.  [clock i] is the clock
    reading for the document at position [i]. *)
Fixpoint assess_from (clock : nat -> datetime) (i : nat)
  (documents : list Document) : list Document * option string :=
  match documents with
  | [] => ([], None)
  | doc :: rest =>
      match assess_document (clock i) doc with
      | Raise msg => (doc :: rest, Some msg)
      | Ok doc' =>
          let '(rest', exn) := assess_from clock (S i) rest in
          (doc' :: rest', exn)
      end
  end.

Definition _assess_reliability (clock : nat -> datetime)
  (documents : list Document) : list Document * option string :=
  assess_from clock 0 documents.

(** *** GateEvaluator *)

(** [stats.get(key, default)] for the keys the gate reads. *)
Definition get_primary_sources_count (st : Stats) : Z :=
  default 0 (primary_sources_count st).
Definition get_recent_documents_count (st : Stats) : Z :=
  default 0 (recent_documents_count st).
Definition get_average_reliability (st : Stats) : Q :=
  default 0.0%Q (average_reliability st).
Definition get_low_reliability_count (st : Stats) : Z :=
  default 0 (low_reliability_count st).
Definition get_sources_breakdown (st : Stats) : gmap string Z :=
  default ∅ (sources_breakdown st).

(** [(low_cnt / total) if total > 0 else 1.0] *)
Definition low_ratio (documents : list Document) (st : Stats) : Q :=
  let total := len documents in
  if 0 <? total
  then (inject_Z (get_low_reliability_count st) / inject_Z total)%Q
  else 1.0%Q.

(** [len([k for k, v in sources_breakdown.items() if v > 0])] *)
Definition category_div (st : Stats) : Z :=
  Z.of_nat (size (filter (fun kv : string * Z => 0 < kv.2)
                    (get_sources_breakdown st))).

Definition distinct_domains (documents : list Document) : Z :=
  Z.of_nat (size (_distinct_domains documents)).

Definition contains (x : string) (l : list string) : bool :=
  existsb (String.eqb x) l.

(** The lists [missing] and [reasons] as the seven checks leave them. *)
Definition gate_checks (documents : list Document) (st : Stats)
  (policy : ThresholdProfile) : list string * list Reason :=
  let reasons : list Reason := [] in
  let missing : list string := [] in
  let total := len documents in
  let '(missing, reasons) :=
    if total <? min_docs policy
    then ((missing ++ ["docs_count"])%list,
          (reasons ++ [DocsShort total (min_docs policy)])%list)
    else (missing, reasons) in
  let '(missing, reasons) :=
    if get_primary_sources_count st <? min_primary policy
    then ((missing ++ ["primary"])%list,
          (reasons ++ [PrimaryShort (get_primary_sources_count st)
                         (min_primary policy)])%list)
    else (missing, reasons) in
  let '(missing, reasons) :=
    if get_recent_documents_count st <? min_recent policy
    then ((missing ++ ["recent"])%list,
          (reasons ++ [RecentShort (get_recent_documents_count st)
                         (min_recent policy)])%list)
    else (missing, reasons) in
  let avg_rel := get_average_reliability st in
  let '(missing, reasons) :=
    if Py.Qltb avg_rel (avg_rel_min policy)
    then ((missing ++ ["reliability"])%list,
          (reasons ++ [AverageLow avg_rel (avg_rel_min policy)])%list)
    else (missing, reasons) in
  let ratio := low_ratio documents st in
  let '(missing, reasons) :=
    if Py.Qltb (low_ratio_max policy) ratio
    then ((if contains "reliability" missing then missing
           else missing ++ ["reliability"])%list,
          (reasons ++ [LowRatioHigh ratio (low_ratio_max policy)])%list)
    else (missing, reasons) in
  let domains := distinct_domains documents in
  let '(missing, reasons) :=
    if domains <? distinct_domains_min policy
    then ((missing ++ ["diversity"])%list,
          (reasons ++ [DomainsShort domains
                         (distinct_domains_min policy)])%list)
    else (missing, reasons) in
  let categories := category_div st in
  let '(missing, reasons) :=
    if categories <? category_diversity_min policy
    then ((if contains "diversity" missing then missing
           else missing ++ ["diversity"])%list,
          (reasons ++ [CategoriesShort categories
                         (category_diversity_min policy)])%list)
    else (missing, reasons) in
  (missing, reasons).

(** [_evaluate_gate]: [(passed, sorted(set(missing)), reasons)] *)
Definition _evaluate_gate (documents : list Document) (st : Stats)
  (policy : ThresholdProfile) : bool * list string * list Reason :=
  let '(missing, reasons) := gate_checks documents st policy in
  (len missing =? 0, Py.sorted_set missing, reasons).

(** *** QueryPlanner *)

(** The double quote character, for the quoted words of a query. *)
Definition dq : string := Py.chr (ascii_of_nat 34).

(** [_build_queries]; [utcnow] is the value [datetime.utcnow()] returns
    when the cutoff date of the targeted queries is computed. *)
Definition _build_queries (utcnow : datetime) (company_name domain : string)
  (state : State) : result (list string) :=
  let wc := web_collection state in
  let attempt := attempts_current wc in
  let missing := missing_slots (gate wc) in
  let base : list string :=
    [ company_name ++ " " ++ domain ++ " company overview";
      company_name ++ " product features technology";
      company_name ++ " news press release";
      company_name ++ " case study";
      company_name ++ " whitepaper";
      company_name ++ " interview";
      company_name ++ " site:medium.com";
      company_name ++ " site:github.com";
      company_name ++ " site:linkedin.com";
      company_name ++ " funding announcement" ] in
  if attempt =? 1 then mret base
  else
    match missing with
    | [] => mret base
    | _ =>
        let q : list string := [] in
        recent_cut ←
          Datetime.minus_days_isoformat utcnow
            (recent_window_days (threshold_profile wc));
        let q :=
          if contains "primary" missing then
            app q [ company_name ++ " site:" ++ _company_domain_hint company_name
                      ++ " (press OR newsroom OR investors)";
                    company_name ++ " press release site:"
                      ++ _company_domain_hint company_name;
                    company_name ++ " site:" ++ _company_domain_hint company_name
                      ++ " blog" ]
          else q in
        let q :=
          if contains "recent" missing then
            app q [ company_name ++ " (" ++ dq ++ "launch" ++ dq ++ " OR " ++ dq
                      ++ "announced" ++ dq ++ " OR " ++ dq ++ "funding" ++ dq
                      ++ ") after:" ++ recent_cut;
                    company_name ++ " press release after:" ++ recent_cut ]
          else q in
        let q :=
          if contains "docs_count" missing then
            app q [ company_name ++ " " ++ domain ++ " case study pdf";
                    company_name ++ " " ++ domain ++ " whitepaper pdf";
                    company_name ++ " architecture overview" ]
          else q in
        let q :=
          if contains "reliability" missing then
            app q [ company_name
                      ++ " site:sec.gov OR site:europa.eu OR site:ec.europa.eu";
                    company_name ++ " site:iso.org OR site:ieee.org standard";
                    company_name
                      ++ " analyst report site:gartner.com OR site:forrester.com"
                  ]
          else q in
        let q :=
          if contains "diversity" missing then
            app q [ company_name ++ " review technology analysis";
                    company_name ++ " " ++ domain ++ " industry report";
                    company_name ++ " competitors comparison" ]
          else q in
        mret (base ++ q)%list
    end.

(** *** CollectionLoop *)

(** What a run receives from outside, by attempt number: the clock
    readings, and the joint outcome of [_run_tavily_queries] and
    [_analyze_documents] (the search and classification services) on the
    planned queries. *)
Record World : Type := {
  utcnow_plan : Z -> datetime;
  collect : Z -> list string -> result (list Document);
  utcnow_assess : Z -> nat -> datetime;
  now_isoformat : Z -> string
}.

(** The objects of a run: the state dictionary and the two locals of
    [execute] that live across attempts. *)
Record Run : Type := {
  state : State;
  cumulative_docs : list Document;
  seen_urls : gset string
}.

(** The list a reader of [state["web_collection"]["documents"]] sees. *)
Definition documents_of (r : Run) : list Document :=
  match documents (web_collection (state r)) with
  | FreshEmpty => []
  | Cumulative => cumulative_docs r
  end.

Definition set_web_collection (st : State) (wc : WebCollection) : State :=
  {| company_name := company_name st; domain := domain st;
     errors := errors st; web_collection := wc |}.

(** [wc["attempts"]["current"] += 1] *)
Definition next_attempt (wc : WebCollection) : WebCollection :=
  {| status := status wc; documents := documents wc; count := count wc;
     sources := sources wc; stats := stats wc; gate := gate wc;
     attempts_current := attempts_current wc + 1;
     attempts_max := attempts_max wc; decision_log := decision_log wc;
     threshold_profile := threshold_profile wc; error := error wc |}.

(** [wc["status"] = s] *)
Definition set_status (wc : WebCollection) (s : string) : WebCollection :=
  {| status := s; documents := documents wc; count := count wc;
     sources := sources wc; stats := stats wc; gate := gate wc;
     attempts_current := attempts_current wc;
     attempts_max := attempts_max wc; decision_log := decision_log wc;
     threshold_profile := threshold_profile wc; error := error wc |}.

(** [wc["error"] = e] *)
Definition set_error (wc : WebCollection) (e : option string) : WebCollection :=
  {| status := status wc; documents := documents wc; count := count wc;
     sources := sources wc; stats := stats wc; gate := gate wc;
     attempts_current := attempts_current wc;
     attempts_max := attempts_max wc; decision_log := decision_log wc;
     threshold_profile := threshold_profile wc; error := e |}.

(** [wc["decision_log"].append(entry)] *)
Definition log_decision (wc : WebCollection) (entry : LogEntry) : WebCollection :=
  {| status := status wc; documents := documents wc; count := count wc;
     sources := sources wc; stats := stats wc; gate := gate wc;
     attempts_current := attempts_current wc;
     attempts_max := attempts_max wc;
     decision_log := (decision_log wc ++ [entry])%list;
     threshold_profile := threshold_profile wc; error := error wc |}.

(** Step 8, [wc.update({...})]; [documents] now refers to the list
    object [cumulative_docs]. *)
Definition update_collection (wc : WebCollection)
  (cumulative : list Document) (st : Stats) (g : Gate) : WebCollection :=
  {| status := if passed g then "completed" else "insufficient";
     documents := Cumulative;
     count := len cumulative;
     sources := list_to_set (source_category <$> cumulative);
     stats := st;
     gate := g;
     attempts_current := attempts_current wc;
     attempts_max := attempts_max wc;
     decision_log := decision_log wc;
     threshold_profile := threshold_profile wc;
     error := None |}.

(** Step 4: the hits without a URL and the hits whose normalised URL has
    been seen are skipped; the others are recorded and kept. *)
Fixpoint dedup_merge (analyzed_docs : list Document) (seen : gset string)
  (new_docs : list Document) : gset string * list Document :=
  match analyzed_docs with
  | [] => (seen, new_docs)
  | d :: rest =>
      if String.eqb (url d) "" then dedup_merge rest seen new_docs
      else
        let norm := _normalize_url (url d) in
        if decide (norm ∈ seen) then dedup_merge rest seen new_docs
        else dedup_merge rest (seen ∪ {[norm]}) (new_docs ++ [d])%list
  end.

(** How one round of the [while] loop ends. *)
Inductive Flow : Type :=
| Continue
| Break
| Raised (msg : string).

(** One round of the loop of [execute]. *)
Definition attempt (w : World) (company domain_tag : string)
  (policy : ThresholdProfile) (r : Run) : Run * Flow :=
  let wc := next_attempt (web_collection (state r)) in
  let attempt_no := attempts_current wc in
  let r := {| state := set_web_collection (state r) wc;
              cumulative_docs := cumulative_docs r;
              seen_urls := seen_urls r |} in
  match _build_queries (utcnow_plan w attempt_no) company domain_tag (state r) with
  | Raise msg => (r, Raised msg)
  | Ok queries =>
      match collect w attempt_no queries with
      | Raise msg => (r, Raised msg)
      | Ok analyzed_docs =>
          let '(seen, new_docs) := dedup_merge analyzed_docs (seen_urls r) [] in
          let '(cumulative, exn) :=
            _assess_reliability (utcnow_assess w attempt_no)
              (cumulative_docs r ++ new_docs)%list in
          let r := {| state := state r; cumulative_docs := cumulative;
                      seen_urls := seen |} in
          match exn with
          | Some msg => (r, Raised msg)
          | None =>
              let st := _calculate_statistics cumulative in
              let '(gate_passed, missing, reasons) :=
                _evaluate_gate cumulative st policy in
              let g := {| passed := gate_passed; missing_slots := missing;
                          reasons := reasons |} in
              let wc := update_collection wc cumulative st g in
              let wc :=
                log_decision wc
                  {| log_attempt := attempt_no;
                     log_queries := queries;
                     log_new_docs := len new_docs;
                     log_total_docs := len cumulative;
                     log_gate_passed := gate_passed;
                     log_missing_slots := missing;
                     log_reasons := reasons;
                     log_timestamp := now_isoformat w attempt_no |} in
              let finish (wc : WebCollection) :=
                {| state := set_web_collection (state r) wc;
                   cumulative_docs := cumulative; seen_urls := seen |} in
              if gate_passed then (finish wc, Break)
              else if attempts_max wc <=? attempt_no
                   then (finish (set_status wc "partial"), Break)
                   else (finish wc, Continue)
          end
      end
  end.

(** The [while] loop; [fuel] bounds the number of rounds.  The message
    is that of the exception that ended the loop, if one did. *)
Fixpoint attempts_loop (fuel : nat) (w : World) (company domain_tag : string)
  (policy : ThresholdProfile) (r : Run) : Run * option string :=
  match fuel with
  | O => (r, None)
  | S fuel' =>
      let wc := web_collection (state r) in
      if attempts_current wc <? attempts_max wc then
        match attempt w company domain_tag policy r with
        | (r', Continue) => attempts_loop fuel' w company domain_tag policy r'
        | (r', Break) => (r', None)
        | (r', Raised msg) => (r', Some msg)
        end
      else (r, None)
  end.

(** The [except Exception] clause of [execute]. *)
Definition handle_exception (w : World) (r : Run) (msg : string) : Run :=
  let st := state r in
  let wc := set_error (set_status (web_collection st) "degraded") (Some msg) in
  {| state :=
       {| company_name := company_name st; domain := domain st;
          errors :=
            (errors st ++
               [ {| stage := "web_collection";
                    error_message := msg;
                    timestamp := now_isoformat w (attempts_current wc);
                    recovered := false;
                    traceback := None;
                    impact_on_reliability := "high" |} ])%list;
          web_collection := wc |};
     cumulative_docs := cumulative_docs r;
     seen_urls := seen_urls r |}.

(** [state["web_collection"]] as [execute] initialises it. *)
Definition initial_collection (policy : ThresholdProfile) : WebCollection :=
  {| status := "insufficient";
     documents := FreshEmpty;
     count := 0;
     sources := ∅;
     stats := initial_stats;
     gate := {| passed := false; missing_slots := []; reasons := [] |};
     attempts_current := 0;
     attempts_max := max_attempts policy;
     decision_log := [];
     threshold_profile := policy;
     error := None |}.

(** [execute] for a given threshold profile. *)
Definition execute_with (policy : ThresholdProfile) (w : World) (st : State)
  : Run :=
  let company := Py.strip (company_name st) in
  let domain_tag := Py.strip (domain st) in
  let wc := initial_collection policy in
  let r := {| state := set_web_collection st wc;
              cumulative_docs := []; seen_urls := ∅ |} in
  match attempts_loop (Z.to_nat (attempts_max wc)) w company domain_tag policy r with
  | (r, None) => r
  | (r, Some msg) => handle_exception w r msg
  end.

(** [execute]: the profile is the one of the class constants. *)
Definition execute (w : World) (st : State) : Run :=
  execute_with default_threshold_profile w st.

End Agent.

Arguments _normalize_url urlparse u : assert.
Arguments _parse_date fromisoformat s : assert.

(** ** Sample library instances and inputs

    Concrete instances of the two library functions on the inputs the
    examples use, and a few documents and worlds to run the engine on. *)

Module Sample.

(** The prefix of [s] before the first [c], and what follows [c]. *)
Fixpoint split_at (c : ascii) (s : string) : string * option string :=
  match s with
  | EmptyString => (EmptyString, None)
  | String a r =>
      if Ascii.eqb a c then (EmptyString, Some r)
      else let '(h, t) := split_at c r in (String a h, t)
  end.

(** [urlparse] on URLs of the shape [scheme://netloc/path?query#fragment]. *)
Definition urlparse (u : string) : option ParseResult :=
  let '(u, frag) := split_at "#" u in
  let '(u, qry) := split_at "?" u in
  match split_at ":" u with
  | (sch, Some (String "/" (String "/" rest))) =>
      let '(host, p) := split_at "/" rest in
      Some {| scheme := Py.lower sch; netloc := host;
              path := match p with Some p => "/" ++ p | None => "" end;
              params := ""; query := default "" qry;
              fragment := default "" frag |}
  | _ =>
      Some {| scheme := ""; netloc := ""; path := u; params := "";
              query := default "" qry; fragment := default "" frag |}
  end.

(** [datetime.fromisoformat] on [YYYY-MM-DD], optionally followed by
    [T00:00:00+00:00], which makes the value an aware one. *)
Definition fromisoformat (s : string) : option datetime :=
  match s with
  | String y1 (String y2 (String y3 (String y4 (String "-"
      (String m1 (String m2 (String "-" (String d1 (String d2 rest))))))))) =>
      let y := String y1 (String y2 (String y3 (String y4 ""))) in
      let m := String m1 (String m2 "") in
      let d := String d1 (String d2 "") in
      if forallb Py.isdigit (list_ascii_of_string (y ++ m ++ d)) then
        t ← Datetime.make (Py.int_of_digits y) (Py.int_of_digits m)
              (Py.int_of_digits d);
        if String.eqb rest "" then Some t
        else if String.eqb rest "T00:00:00+00:00" then
          Some (Datetime.mk (Datetime.year t) (Datetime.month t)
                  (Datetime.day t) 0 0 0 0 (Some 0))
        else None
      else None
  | _ => None
  end.

Definition doc (ident link stype cat : string) (d : option string) : Document :=
  {| doc_id := ident; url := link; title := ""; content := "";
     source_type := stype; source_category := cat; publisher := None;
     date := d; age_days := 0; is_recent := false;
     reliability := "medium"; reliability_score := 0.5;
     reliability_reasons := []; evidence_tier := "tier2" |}.

Definition noon (y m d : Z) : datetime := Datetime.mk y m d 12 0 0 0 None.

End Sample.

Example normalize_ex :
  _normalize_url Sample.urlparse "HTTPS://News.Example.COM/a/B?utm=1#top"
  = "https://news.example.com/a/B".
Proof. reflexivity. Qed.

Example parse_date_ex :
  _parse_date Sample.fromisoformat (Some " 2024-03-05 ")
  = Datetime.make 2024 3 5
  /\ _parse_date Sample.fromisoformat (Some "Updated 2024/3/5 09:00")
     = Datetime.make 2024 3 5
  /\ _parse_date Sample.fromisoformat (Some "Mar 5, 2024")
     = Datetime.make 2024 3 5
  /\ _parse_date Sample.fromisoformat (Some "2024.02.30") = None
  /\ _parse_date Sample.fromisoformat (Some "yesterday") = None
  /\ _parse_date Sample.fromisoformat None = None.
Proof. repeat split. Qed.

(** * Properties *)

(** ** Arithmetic helpers *)

Lemma Qltb_lt (a b : Q) : Py.Qltb a b = true <-> (a < b)%Q.
Proof.
  unfold Py.Qltb. rewrite negb_true_iff, <- not_true_iff_false, Qle_bool_iff.
  split; [apply Qnot_le_lt | apply Qlt_not_le].
Qed.

Lemma Qltb_ge (a b : Q) : Py.Qltb a b = false <-> (b <= a)%Q.
Proof.
  unfold Py.Qltb. rewrite negb_false_iff. apply Qle_bool_iff.
Qed.

Lemma contains_elem_of (x : string) (l : list string) :
  contains x l = true <-> x ∈ l.
Proof.
  unfold contains. rewrite existsb_exists. split.
  - intros (y & Hy & Heq). apply String.eqb_eq in Heq. subst.
    by apply list_elem_of_In.
  - intros Hx. exists x. split; [by apply list_elem_of_In | apply String.eqb_refl].
Qed.

Lemma elem_of_sorted_set (x : string) (l : list string) :
  x ∈ Py.sorted_set l <-> x ∈ l.
Proof.
  unfold Py.sorted_set. rewrite merge_sort_Permutation. apply elem_of_remove_dups.
Qed.

Lemma NoDup_sorted_set (l : list string) : NoDup (Py.sorted_set l).
Proof.
  unfold Py.sorted_set. rewrite merge_sort_Permutation. apply NoDup_remove_dups.
Qed.

Lemma sorted_set_nil (l : list string) : Py.sorted_set l = [] <-> l = [].
Proof.
  split.
  - intros H. destruct l as [|x l]; [done|].
    assert (Hx : x ∈ Py.sorted_set (x :: l)) by (apply elem_of_sorted_set; left).
    rewrite H in Hx. by apply elem_of_nil in Hx.
  - intros ->. reflexivity.
Qed.

(** ** The scorer *)

(** The scoring rule in the words of the specification: the clamp to
    [0,1] of 0.5, plus 0.2 for a primary source, plus the category bonus,
    plus 0.1 for a recent document. *)
Definition spec_bonus (category : string) : Q :=
  if decide (category = "company") then 0.1
  else if decide (category = "news") then 0
  else if decide (category = "blog") then -0.1
  else 0.

Definition clamp01 (x : Q) : Q :=
  if Qlt_le_dec x 0 then 0%Q else if Qlt_le_dec 1 x then 1%Q else x.

Definition spec_score (doc : Document) : Q :=
  clamp01 (0.5 + (if decide (source_type doc = "primary") then 0.2 else 0)
           + spec_bonus (source_category doc)
           + (if is_recent doc then 0.1 else 0))%Q.

Definition spec_label (score : Q) : string * string :=
  if Qle_bool 0.7 score then ("high", "tier1")
  else if Qle_bool 0.4 score then ("medium", "tier2")
  else ("low", "tier3").

(** The cases of a document the scorer tells apart. *)
Ltac score_cases doc :=
  unfold _calculate_reliability, category_bonus, spec_score, spec_bonus;
  destruct (String.eqb_spec (source_type doc) "primary");
  destruct (String.eqb_spec (source_category doc) "company");
  destruct (String.eqb_spec (source_category doc) "news");
  destruct (String.eqb_spec (source_category doc) "blog");
  repeat case_decide; try congruence;
  destruct (is_recent doc).

Lemma score_is_spec_score (doc : Document) :
  (r_reliability_score (_calculate_reliability doc) == spec_score doc)%Q.
Proof. score_cases doc; vm_compute; reflexivity. Qed.

Lemma label_is_spec_label (doc : Document) :
  let r := _calculate_reliability doc in
  (r_reliability r, r_evidence_tier r) = spec_label (r_reliability_score r).
Proof. score_cases doc; reflexivity. Qed.

Lemma score_range (doc : Document) :
  (0.4 <= r_reliability_score (_calculate_reliability doc) <= 0.9)%Q.
Proof. score_cases doc; split; vm_compute; discriminate. Qed.

Lemma spec_label_high (s : Q) :
  spec_label s = ("high", "tier1") <-> (0.7 <= s)%Q.
Proof.
  unfold spec_label. rewrite <- Qle_bool_iff.
  destruct (Qle_bool 0.7 s); [done|]. destruct (Qle_bool 0.4 s); split; done.
Qed.

Lemma spec_label_medium (s : Q) :
  spec_label s = ("medium", "tier2") <-> (0.4 <= s /\ s < 0.7)%Q.
Proof.
  unfold spec_label. rewrite <- Qltb_lt, <- Qle_bool_iff. unfold Py.Qltb.
  destruct (Qle_bool 0.7 s); [split; [done | intros [_ ?]; done]|].
  destruct (Qle_bool 0.4 s); split; try done. intros [? _]; done.
Qed.

Lemma spec_label_low (s : Q) :
  spec_label s = ("low", "tier3") <-> (s < 0.4)%Q.
Proof.
  unfold spec_label. rewrite <- Qltb_lt. unfold Py.Qltb.
  destruct (Qle_bool 0.7 s) eqn:H7.
  - split; [done|]. intros H4. exfalso.
    apply negb_true_iff in H4. apply Qle_bool_iff in H7.
    assert (H : (0.4 <= s)%Q) by (eapply Qle_trans; [|exact H7]; discriminate).
    apply Qle_bool_iff in H. congruence.
  - destruct (Qle_bool 0.4 s); split; done.
Qed.

Lemma spec_label_proper (s s' : Q) : (s == s')%Q -> spec_label s = spec_label s'.
Proof.
  intros H. unfold spec_label.
  rewrite (Qleb_comp 0.7%Q 0.7%Q (Qeq_refl _) s s' H).
  by rewrite (Qleb_comp 0.4%Q 0.4%Q (Qeq_refl _) s s' H).
Qed.

(** C2. The score [_calculate_reliability] returns is the clamp to [0,1]
    of 0.5, plus 0.2 for a primary source, plus the category bonus
    (company +0.1, news 0, blog -0.1, any other category 0), plus 0.1 for
    a recent document.  It lies in [0,1].  Label and tier are high/tier1
    exactly when the score is at least 0.7, medium/tier2 exactly when it
    is in [0.4, 0.7), low/tier3 exactly when it is below 0.4; they are
    the value of the function [spec_label] at the score. *)
Theorem calculate_reliability_rule (doc : Document) :
  let r := _calculate_reliability doc in
  let score := r_reliability_score r in
  let label := (r_reliability r, r_evidence_tier r) in
  (score == spec_score doc)%Q
  /\ (0 <= score <= 1)%Q
  /\ (label = ("high", "tier1") <-> (0.7 <= score)%Q)
  /\ (label = ("medium", "tier2") <-> (0.4 <= score /\ score < 0.7)%Q)
  /\ (label = ("low", "tier3") <-> (score < 0.4)%Q)
  /\ label = spec_label score.
Proof.
  intros r score label.
  assert (Hlabel : label = spec_label score) by apply label_is_spec_label.
  split; [apply score_is_spec_score|].
  split.
  { destruct (score_range doc) as [Hlo Hhi]. fold r score in Hlo, Hhi. split.
    - apply Qle_trans with (y := 0.4%Q); [by compute | exact Hlo].
    - apply Qle_trans with (y := 0.9%Q); [exact Hhi | by compute]. }
  rewrite Hlabel.
  auto using spec_label_high, spec_label_medium, spec_label_low.
Qed.

Lemma scored_label (doc : Document) :
  r_reliability (_calculate_reliability doc) = "high"
  \/ r_reliability (_calculate_reliability doc) = "medium".
Proof. score_cases doc; auto. Qed.

Lemma scored_tier (doc : Document) :
  r_evidence_tier (_calculate_reliability doc) = "tier1"
  \/ r_evidence_tier (_calculate_reliability doc) = "tier2".
Proof. score_cases doc; auto. Qed.

(** ** Statistics *)

Definition rated (d : Document) : Prop :=
  reliability d = "high" \/ reliability d = "medium".

Lemma count_document_low (st : Stats) (d : Document) :
  rated d -> low_reliability_count (count_document st d) = low_reliability_count st.
Proof.
  intros [H | H]; unfold count_document; simpl; rewrite H; simpl;
    by destruct (low_reliability_count st).
Qed.

Lemma fold_count_low (docs : list Document) (st : Stats) :
  Forall rated docs ->
  low_reliability_count (fold_left count_document docs st) = low_reliability_count st.
Proof.
  intros H. revert st. induction H as [|d docs Hd _ IH]; intros st; [done|].
  simpl. rewrite IH. by apply count_document_low.
Qed.

Lemma statistics_low_count (docs : list Document) :
  Forall rated docs ->
  low_reliability_count (_calculate_statistics docs) = Some 0.
Proof.
  intros H. destruct docs as [|d docs]; [done|].
  unfold _calculate_statistics. cbn [low_reliability_count].
  by rewrite fold_count_low.
Qed.

(** ** The gate *)

Section Gate.

Variable urlparse : string -> option ParseResult.

(** *** The counts of the specification

    The quantities the seven checks compare, said apart from the code of
    the gate.  A count or the average that the statistics do not hold
    counts as 0, and a breakdown they do not hold as the empty one. *)

(** The host a document counts under: the lower-cased network location
    of its URL, if it has one. *)
Definition host_of (d : Document) : option string :=
  match urlparse (url d) with
  | Some p =>
      if decide (Py.lower (netloc p) = "") then None
      else Some (Py.lower (netloc p))
  | None => None
  end.

(** The number of distinct hosts of the documents. *)
Definition spec_distinct_hosts (documents : list Document) : Z :=
  Z.of_nat (size (list_to_set (omap host_of documents) : gset string)).

(** The share of low-reliability documents; 1 when there is no document. *)
Definition spec_low_ratio (documents : list Document) (st : Stats) : Q :=
  if decide (documents = []) then 1%Q
  else (inject_Z (default 0%Z (low_reliability_count st)) / inject_Z (len documents))%Q.

(** The number of categories with a positive count in the breakdown. *)
Definition spec_category_diversity (st : Stats) : Z :=
  Z.of_nat
    (size (filter (fun c => 0 < default 0 (default ∅ (sources_breakdown st) !! c))
             (dom (default ∅ (sources_breakdown st))))).

(** The seven threshold checks, in the words of the specification. *)
Record Checks (documents : list Document) (st : Stats)
  (policy : ThresholdProfile) : Prop := {
  enough_docs : min_docs policy <= len documents;
  enough_primary : min_primary policy <= default 0 (primary_sources_count st);
  enough_recent : min_recent policy <= default 0 (recent_documents_count st);
  reliable_on_average : (avg_rel_min policy <= default 0.0 (average_reliability st))%Q;
  few_unreliable : (spec_low_ratio documents st <= low_ratio_max policy)%Q;
  enough_domains : distinct_domains_min policy <= spec_distinct_hosts documents;
  enough_categories : category_diversity_min policy <= spec_category_diversity st
}.

(** The outcome of the seven tests of [gate_checks]; [true] is a
    failed check. *)
Definition failures (documents : list Document) (st : Stats)
  (policy : ThresholdProfile) : list bool :=
  [ len documents <? min_docs policy;
    get_primary_sources_count st <? min_primary policy;
    get_recent_documents_count st <? min_recent policy;
    Py.Qltb (get_average_reliability st) (avg_rel_min policy);
    Py.Qltb (low_ratio_max policy) (low_ratio documents st);
    distinct_domains urlparse documents <? distinct_domains_min policy;
    category_div st <? category_diversity_min policy ].

(** The slot names seven outcomes leave in [missing]. *)
Definition slots_of (f : list bool) : list string :=
  match f with
  | [f1; f2; f3; f4; f5; f6; f7] =>
      ((if f1 then ["docs_count"] else [])
       ++ (if f2 then ["primary"] else [])
       ++ (if f3 then ["recent"] else [])
       ++ (if f4 || f5 then ["reliability"] else [])
       ++ (if f6 || f7 then ["diversity"] else []))%list
  | _ => []
  end.

Lemma gate_checks_missing documents st policy :
  (gate_checks urlparse documents st policy).1
  = slots_of (failures documents st policy).
Proof.
  unfold gate_checks, failures, slots_of.
  destruct (len documents <? min_docs policy);
    destruct (get_primary_sources_count st <? min_primary policy);
    destruct (get_recent_documents_count st <? min_recent policy);
    destruct (Py.Qltb (get_average_reliability st) (avg_rel_min policy));
    destruct (Py.Qltb (low_ratio_max policy) (low_ratio documents st));
    destruct (distinct_domains urlparse documents <? distinct_domains_min policy);
    destruct (category_div st <? category_diversity_min policy);
    reflexivity.
Qed.

Lemma evaluate_gate_unfold documents st policy :
  (_evaluate_gate urlparse documents st policy).1
  = (len (slots_of (failures documents st policy)) =? 0,
     Py.sorted_set (slots_of (failures documents st policy))).
Proof.
  unfold _evaluate_gate. rewrite <- gate_checks_missing.
  by destruct (gate_checks urlparse documents st policy).
Qed.

(** Facts about [slots_of], by running it on the 128 outcomes. *)
Ltac outcomes :=
  intros f1 f2 f3 f4 f5 f6 f7;
  destruct f1, f2, f3, f4, f5, f6, f7; vm_compute; intuition congruence.

Lemma slots_of_empty : forall f1 f2 f3 f4 f5 f6 f7,
  (len (slots_of [f1; f2; f3; f4; f5; f6; f7]) =? 0) = true
  <-> f1 = false /\ f2 = false /\ f3 = false /\ f4 = false /\ f5 = false
      /\ f6 = false /\ f7 = false.
Proof. outcomes. Qed.

Lemma slots_of_nil : forall f1 f2 f3 f4 f5 f6 f7,
  (len (slots_of [f1; f2; f3; f4; f5; f6; f7]) =? 0) = true
  <-> slots_of [f1; f2; f3; f4; f5; f6; f7] = [].
Proof. outcomes. Qed.

Lemma slots_of_contains : forall f1 f2 f3 f4 f5 f6 f7,
  let l := slots_of [f1; f2; f3; f4; f5; f6; f7] in
  contains "docs_count" l = f1
  /\ contains "primary" l = f2
  /\ contains "recent" l = f3
  /\ contains "reliability" l = f4 || f5
  /\ contains "diversity" l = f6 || f7.
Proof. outcomes. Qed.

Definition slot_names : list string :=
  ["docs_count"; "primary"; "recent"; "reliability"; "diversity"].

Lemma slots_of_names : forall f1 f2 f3 f4 f5 f6 f7,
  forallb (fun s => contains s slot_names)
    (slots_of [f1; f2; f3; f4; f5; f6; f7]) = true.
Proof. outcomes. Qed.

Lemma slots_of_NoDup : forall f1 f2 f3 f4 f5 f6 f7,
  bool_decide (NoDup (slots_of [f1; f2; f3; f4; f5; f6; f7])) = true.
Proof. outcomes. Qed.

(** The counts of the gate are those of the specification. *)
Lemma low_ratio_spec (documents : list Document) (st : Stats) :
  (low_ratio documents st == spec_low_ratio documents st)%Q.
Proof.
  unfold low_ratio, spec_low_ratio, len.
  destruct documents as [|d l]; [reflexivity|].
  rewrite decide_False by done.
  destruct (Z.ltb_spec 0 (Z.of_nat (length (d :: l)))) as [_ | H];
    [reflexivity | simpl in H; lia].
Qed.

Lemma distinct_domains_fold (documents : list Document) :
  forall ds : gset string,
    fold_left
      (fun (ds : gset string) d =>
         match urlparse (url d) with
         | Some p =>
             let host := Py.lower (netloc p) in
             if String.eqb host "" then ds else ds ∪ {[host]}
         | None => ds
         end) documents ds
    = ds ∪ list_to_set (omap host_of documents).
Proof.
  induction documents as [|d l IH]; intros ds; simpl.
  - by rewrite (right_id_L ∅ (∪)).
  - rewrite IH. unfold host_of at 2.
    destruct (urlparse (url d)) as [p|]; [|done]. cbn zeta.
    destruct (String.eqb_spec (Py.lower (netloc p)) "") as [He | Hne].
    + by rewrite decide_True.
    + rewrite decide_False by done. simpl. by rewrite (assoc_L (∪)).
Qed.

Lemma distinct_domains_hosts (documents : list Document) :
  _distinct_domains urlparse documents = list_to_set (omap host_of documents).
Proof.
  unfold _distinct_domains. rewrite distinct_domains_fold.
  by rewrite (left_id_L ∅ (∪)).
Qed.

Lemma distinct_domains_count (documents : list Document) :
  distinct_domains urlparse documents = spec_distinct_hosts documents.
Proof. unfold distinct_domains. by rewrite distinct_domains_hosts. Qed.

Lemma category_div_spec (st : Stats) :
  category_div st = spec_category_diversity st.
Proof.
  unfold category_div, spec_category_diversity, get_sources_breakdown.
  set (m := default ∅ (sources_breakdown st)). f_equal.
  rewrite <- size_dom. f_equal. apply dom_filter_L. intros c.
  rewrite elem_of_filter, elem_of_dom. split.
  - intros [Hpos [v Hv]]. exists v. rewrite Hv in Hpos. by split.
  - intros (v & Hv & Hpos). rewrite Hv. split; [exact Hpos | by exists v].
Qed.

(** C1. [_evaluate_gate] passes exactly when all seven threshold checks
    hold: enough documents, enough primary and recent ones by the counts
    of the statistics (0 for a count they do not hold), a sufficient
    average (0.0 likewise), a share of low-reliability
    documents (1 for no documents) within its bound, enough distinct
    non-empty hosts among the URLs of the documents, and enough
    categories with a positive count in the breakdown.  A failed check
    puts the name of its slot into [missing_slots]: docs_count, primary
    and recent for the first three, reliability for the two reliability
    checks and diversity for the two diversity checks, and nothing else
    gets there.  No name occurs twice, neither
    in the list the checks build nor in the one returned, and the verdict
    is true exactly when [missing_slots] is empty. *)
Theorem evaluate_gate_conjunctive (documents : list Document) (st : Stats)
  (policy : ThresholdProfile) :
  let verdict := _evaluate_gate urlparse documents st policy in
  let passed := verdict.1.1 in
  let missing_slots := verdict.1.2 in
  (passed = true <-> Checks documents st policy)
  /\ ("docs_count" ∈ missing_slots <-> ¬ min_docs policy <= len documents)
  /\ ("primary" ∈ missing_slots
      <-> ¬ min_primary policy <= default 0 (primary_sources_count st))
  /\ ("recent" ∈ missing_slots
      <-> ¬ min_recent policy <= default 0 (recent_documents_count st))
  /\ ("reliability" ∈ missing_slots
      <-> ¬ (avg_rel_min policy <= default 0.0 (average_reliability st))%Q
          \/ ¬ (spec_low_ratio documents st <= low_ratio_max policy)%Q)
  /\ ("diversity" ∈ missing_slots
      <-> ¬ distinct_domains_min policy <= spec_distinct_hosts documents
          \/ ¬ category_diversity_min policy <= spec_category_diversity st)
  /\ missing_slots ⊆ slot_names
  /\ NoDup (gate_checks urlparse documents st policy).1
  /\ NoDup missing_slots
  /\ (passed = true <-> missing_slots = []).
Proof.
  intros verdict passed missing_slots.
  unfold passed, missing_slots, verdict.
  rewrite evaluate_gate_unfold, gate_checks_missing. unfold failures.
  cbn [fst snd].
  set (f1 := len documents <? min_docs policy).
  set (f2 := get_primary_sources_count st <? min_primary policy).
  set (f3 := get_recent_documents_count st <? min_recent policy).
  set (f4 := Py.Qltb (get_average_reliability st) (avg_rel_min policy)).
  set (f5 := Py.Qltb (low_ratio_max policy) (low_ratio documents st)).
  set (f6 := distinct_domains urlparse documents <? distinct_domains_min policy).
  set (f7 := category_div st <? category_diversity_min policy).
  assert (E1 : f1 = false <-> min_docs policy <= len documents)
    by apply Z.ltb_ge.
  assert (E2 : f2 = false <-> min_primary policy <= get_primary_sources_count st)
    by apply Z.ltb_ge.
  assert (E3 : f3 = false <-> min_recent policy <= get_recent_documents_count st)
    by apply Z.ltb_ge.
  assert (E4 : f4 = false
               <-> (avg_rel_min policy <= get_average_reliability st)%Q)
    by apply Qltb_ge.
  assert (E5 : f5 = false
               <-> (spec_low_ratio documents st <= low_ratio_max policy)%Q).
  { unfold f5. rewrite Qltb_ge. by rewrite (low_ratio_spec documents st). }
  assert (E6 : f6 = false
               <-> distinct_domains_min policy <= spec_distinct_hosts documents).
  { rewrite <- distinct_domains_count. apply Z.ltb_ge. }
  assert (E7 : f7 = false
               <-> category_diversity_min policy <= spec_category_diversity st).
  { rewrite <- category_div_spec. apply Z.ltb_ge. }
  destruct (slots_of_contains f1 f2 f3 f4 f5 f6 f7) as (M1 & M2 & M3 & M4 & M5).
  pose proof (slots_of_empty f1 f2 f3 f4 f5 f6 f7) as Hempty.
  pose proof (slots_of_nil f1 f2 f3 f4 f5 f6 f7) as Hnil.
  pose proof (slots_of_names f1 f2 f3 f4 f5 f6 f7) as Hnames.
  pose proof (slots_of_NoDup f1 f2 f3 f4 f5 f6 f7) as Hnodup.
  clearbody f1 f2 f3 f4 f5 f6 f7.
  set (l := slots_of [f1; f2; f3; f4; f5; f6; f7]) in *. clearbody l.
  repeat rewrite elem_of_sorted_set. repeat rewrite <- contains_elem_of.
  rewrite M1, M2, M3, M4, M5, sorted_set_nil, <- Hnil, Hempty.
  split.
  { split.
    - intros (? & ? & ? & ? & ? & ? & ?). constructor; tauto.
    - intros [? ? ? ? ? ? ?]. tauto. }
  split; [destruct f1; intuition congruence|].
  split; [destruct f2; intuition congruence|].
  split; [destruct f3; intuition congruence|].
  split; [destruct f4, f5; simpl; intuition congruence|].
  split; [destruct f6, f7; simpl; intuition congruence|].
  split.
  { intros s Hs. rewrite elem_of_sorted_set in Hs.
    rewrite forallb_forall in Hnames. apply contains_elem_of, Hnames.
    by apply list_elem_of_In. }
  split; [by apply bool_decide_eq_true in Hnodup|].
  split; [apply NoDup_sorted_set|].
  tauto.
Qed.

(** C5. For an empty document list the low-reliability ratio is 1.0,
    whatever the statistics say, and no quotient is formed.  Under the
    default profile, whose [low_ratio_max] is 0.3, the gate then fails
    and reliability is among the missing slots. *)
Theorem empty_corpus_fails_reliability (st : Stats) :
  let verdict := _evaluate_gate urlparse [] st default_threshold_profile in
  low_ratio [] st = 1.0%Q
  /\ (low_ratio_max default_threshold_profile == 0.3)%Q
  /\ verdict.1.1 = false
  /\ "reliability" ∈ verdict.1.2.
Proof.
  intros verdict. unfold verdict. rewrite evaluate_gate_unfold. unfold failures.
  change (Py.Qltb (low_ratio_max default_threshold_profile) (low_ratio [] st))
    with true.
  set (f1 := len [] <? min_docs default_threshold_profile).
  set (f2 := get_primary_sources_count st <? min_primary default_threshold_profile).
  set (f3 := get_recent_documents_count st <? min_recent default_threshold_profile).
  set (f4 := Py.Qltb (get_average_reliability st)
               (avg_rel_min default_threshold_profile)).
  set (f6 := distinct_domains urlparse []
             <? distinct_domains_min default_threshold_profile).
  set (f7 := category_div st <? category_diversity_min default_threshold_profile).
  destruct (slots_of_contains f1 f2 f3 f4 true f6 f7) as (_ & _ & _ & Hrel & _).
  pose proof (slots_of_empty f1 f2 f3 f4 true f6 f7) as Hempty.
  cbn [fst snd]. split; [reflexivity|]. split; [reflexivity|]. split.
  - apply not_true_iff_false. intros H. apply Hempty in H.
    destruct H as (_ & _ & _ & _ & H & _). discriminate H.
  - apply elem_of_sorted_set, contains_elem_of. rewrite Hrel.
    apply orb_true_r.
Qed.

End Gate.

(** The two gate scenarios of the specification, under the default
    profile: 40 documents with 1 primary, 1 recent, average 0.55, three
    hosts and two categories fail on all five slots; 55 documents with 3
    primary, 5 recent, average 0.65, low ratio 0.2, six hosts and three
    categories pass. *)
Definition pages (host : string) (n : nat) : list Document :=
  repeat (Sample.doc "web" ("https://" ++ host ++ "/page") "secondary" "news" None) n.

Definition scenario_stats (breakdown : list (string * Z)) (primary recent low : Z)
  (avg : Q) : Stats :=
  {| sources_breakdown := Some (list_to_map breakdown);
     primary_sources_count := Some primary;
     secondary_sources_count := 0;
     newest_date := None; oldest_date := None;
     recent_documents_count := Some recent;
     high_reliability_count := 0; medium_reliability_count := 0;
     low_reliability_count := Some low;
     average_reliability := Some avg |}.

Example gate_scenario_fail :
  (_evaluate_gate Sample.urlparse
     (pages "a.example" 20 ++ pages "b.example" 10 ++ pages "c.example" 10)%list
     (scenario_stats [("news", 30); ("company", 10)] 1 1 0 0.55)
     default_threshold_profile).1
  = (false, ["diversity"; "docs_count"; "primary"; "recent"; "reliability"]).
Proof. vm_compute. reflexivity. Qed.

Example gate_scenario_pass :
  (_evaluate_gate Sample.urlparse
     (pages "a.example" 10 ++ pages "b.example" 10 ++ pages "c.example" 10
      ++ pages "d.example" 10 ++ pages "e.example" 10 ++ pages "f.example" 5)%list
     (scenario_stats [("news", 30); ("company", 20); ("blog", 5)] 3 5 11 0.65)
     default_threshold_profile)
  = (true, [], []).
Proof. vm_compute. reflexivity. Qed.

(** ** Scored documents *)

Section Scored.

Variable fromisoformat : string -> option datetime.

(** What [_assess_reliability] leaves in a document it has processed. *)
Definition scored (d : Document) : Prop :=
  exists d0, d = doc_update d0 (_calculate_reliability d0).

Lemma assess_document_scored now doc doc' :
  assess_document fromisoformat now doc = Ok doc' -> scored doc'.
Proof.
  unfold assess_document. intros H.
  destruct (_parse_date fromisoformat (date doc)) as [t|].
  - destruct (Datetime.sub_days now t) as [age|]; [|done].
    injection H as <-. by eexists.
  - injection H as <-. by eexists.
Qed.

Lemma assess_from_scored clock documents : forall i documents',
  assess_from fromisoformat clock i documents = (documents', None) ->
  Forall scored documents'.
Proof.
  induction documents as [|d documents IH]; intros i documents' H; simpl in H.
  - injection H as <-. constructor.
  - destruct (assess_document fromisoformat (clock i) d) as [d'|] eqn:Hd; [|done].
    destruct (assess_from fromisoformat clock (S i) documents) as [rest exn] eqn:Hr.
    injection H as <- ->. constructor; [by eapply assess_document_scored | eauto].
Qed.

Lemma scored_rated d : scored d -> rated d.
Proof. intros [d0 ->]. apply scored_label. Qed.

Lemma low_ratio_zero (documents : list Document) (st : Stats) :
  documents <> [] -> get_low_reliability_count st = 0 ->
  (low_ratio documents st == 0)%Q.
Proof.
  intros Hne Hlow. unfold low_ratio. rewrite Hlow.
  destruct (Z.ltb_spec 0 (len documents)) as [_ | Hlen].
  - unfold Qdiv. apply Qmult_0_l.
  - destruct documents; [done | unfold len in Hlen; simpl in Hlen; lia].
Qed.

(** C10. Every score [_calculate_reliability] returns lies in
    [0.4, 0.9], so the label is never low and the tier never tier3.
    For a corpus [_assess_reliability] has processed to the end, the
    statistics therefore count no low-reliability document, and the
    low-ratio check of a profile with a non-negative [low_ratio_max]
    (the default one has 0.3) can fail only when the corpus is empty. *)
Theorem scored_documents_never_low (clock : nat -> datetime)
  (documents processed : list Document) (policy : ThresholdProfile) :
  _assess_reliability fromisoformat clock documents = (processed, None) ->
  (0 <= low_ratio_max policy)%Q ->
  let st := _calculate_statistics processed in
  (forall doc,
      let r := _calculate_reliability doc in
      (0.4 <= r_reliability_score r <= 0.9)%Q
      /\ r_reliability r <> "low" /\ r_evidence_tier r <> "tier3")
  /\ Forall (fun d => (0.4 <= reliability_score d <= 0.9)%Q
                      /\ reliability d <> "low" /\ evidence_tier d <> "tier3")
       processed
  /\ low_reliability_count st = Some 0
  /\ (¬ (low_ratio processed st <= low_ratio_max policy)%Q -> processed = [])
  /\ (¬ (low_ratio processed st <= low_ratio_max default_threshold_profile)%Q
      -> processed = []).
Proof.
  intros Hassess Hmax st.
  assert (Hdoc : forall doc,
             let r := _calculate_reliability doc in
             (0.4 <= r_reliability_score r <= 0.9)%Q
             /\ r_reliability r <> "low" /\ r_evidence_tier r <> "tier3").
  { intros doc r. split; [apply score_range|]. split.
    - destruct (scored_label doc) as [H | H]; unfold r; rewrite H; discriminate.
    - destruct (scored_tier doc) as [H | H]; unfold r; rewrite H; discriminate. }
  assert (Hscored : Forall scored processed)
    by (eapply assess_from_scored; exact Hassess).
  assert (Hlow : low_reliability_count st = Some 0).
  { apply statistics_low_count. eapply Forall_impl; [exact Hscored|].
    apply scored_rated. }
  assert (Hcheck : forall p, (0 <= low_ratio_max p)%Q ->
             ¬ (low_ratio processed st <= low_ratio_max p)%Q -> processed = []).
  { intros p Hp Hfail. destruct processed as [|d rest] eqn:E; [done|].
    exfalso. apply Hfail. rewrite low_ratio_zero; [exact Hp | done |].
    unfold get_low_reliability_count. by rewrite Hlow. }
  split; [exact Hdoc|]. split.
  { eapply Forall_impl; [exact Hscored|]. intros d [d0 ->]. apply Hdoc. }
  split; [exact Hlow|]. split; [by apply Hcheck|].
  apply Hcheck. by vm_compute.
Qed.

End Scored.

(** A corpus of two documents, one of them a blog post without a date,
    which gets the lowest score there is, 0.4, and is still medium. *)
Definition two_pages : list Document :=
  [ Sample.doc "web_1" "https://a.example/x" "secondary" "blog" None;
    Sample.doc "web_2" "https://b.example/y" "primary" "company"
      (Some "2024-06-01") ].

Definition two_pages_scored : list Document :=
  (_assess_reliability Sample.fromisoformat (fun _ => Sample.noon 2024 7 1)
     two_pages).1.

Lemma scored_documents_never_low_witness :
  reliability <$> two_pages_scored = ["medium"; "high"]
  /\ low_reliability_count (_calculate_statistics two_pages_scored) = Some 0.
Proof.
  split; [reflexivity|].
  apply (scored_documents_never_low Sample.fromisoformat
           (fun _ => Sample.noon 2024 7 1) two_pages two_pages_scored
           default_threshold_profile); [reflexivity | by vm_compute].
Defined.

(** ** Dates *)

Section Dates.

Variable fromisoformat : string -> option datetime.

(** An ISO date is returned as [fromisoformat] reads it. *)
Lemma parse_date_iso (s : string) (t : datetime) :
  s <> "" -> fromisoformat (Py.strip s) = Some t ->
  _parse_date fromisoformat (Some s) = Some t.
Proof.
  intros Hs Hiso. unfold _parse_date.
  destruct (String.eqb_spec s ""); [done|]. by rewrite Hiso.
Qed.

(** A year-month-day pattern with one of the three separators is read
    wherever it stands in the string. *)
Lemma parse_date_numeric (s y mo d : string) :
  s <> "" -> fromisoformat (Py.strip s) = None ->
  Re.search Re.ymd_here (Py.strip s) = Some (y, mo, d) ->
  _parse_date fromisoformat (Some s)
  = Datetime.make (Py.int_of_digits y) (Py.int_of_digits mo) (Py.int_of_digits d).
Proof.
  intros Hs Hiso Hre. unfold _parse_date.
  destruct (String.eqb_spec s ""); [done|]. by rewrite Hiso, Hre.
Qed.

(** The month table holds the twelve abbreviations and nothing else. *)
Lemma month_table :
  month_name_entries None = Ok []
  /\ (list_to_map abbr_entries : gmap string Z)
     = list_to_map [("jan", 1); ("feb", 2); ("mar", 3); ("apr", 4); ("may", 5);
                    ("jun", 6); ("jul", 7); ("aug", 8); ("sep", 9); ("oct", 10);
                    ("nov", 11); ("dec", 12)].
Proof. split; reflexivity. Qed.

(** A textual date is read when its month is one of the abbreviations. *)
Lemma parse_date_abbreviated :
  fromisoformat "Jan 5, 2024" = None ->
  _parse_date fromisoformat (Some "Jan 5, 2024") = Datetime.make 2024 1 5.
Proof. intros H. unfold _parse_date. cbn [String.eqb Ascii.eqb Bool.eqb]. change (Py.strip "Jan 5, 2024") with "Jan 5, 2024". by rewrite H. Qed.

(** The sentinel branch of [_assess_reliability]. *)
Lemma assess_document_unparsed (now : datetime) (doc : Document) :
  _parse_date fromisoformat (date doc) = None ->
  exists doc', assess_document fromisoformat now doc = Ok doc'
               /\ age_days doc' = 9999 /\ is_recent doc' = false
               /\ date doc' = None.
Proof.
  intros H. unfold assess_document. rewrite H. eexists. split; [reflexivity|].
  by repeat split.
Qed.

(** C8, at the failing input.  The date "January 5, 2024" has the form
    "Month D, YYYY" and is not read: the month table of [_parse_date] has
    no full month names, because the comprehension that should add them
    filters on the variable of the first regular expression match.  The
    document gets the sentinel age 9999 and is not recent. *)
Theorem full_month_name_rejected (now : datetime) (doc : Document) :
  fromisoformat "January 5, 2024" = None ->
  date doc = Some "January 5, 2024" ->
  Re.search Re.mdy_here "January 5, 2024" = Some ("January", "5", "2024")
  /\ _parse_date fromisoformat (Some "January 5, 2024") = None
  /\ exists doc', assess_document fromisoformat now doc = Ok doc'
                  /\ age_days doc' = 9999 /\ is_recent doc' = false.
Proof.
  intros Hiso Hdate.
  assert (Hparse : _parse_date fromisoformat (Some "January 5, 2024") = None).
  { unfold _parse_date. cbn [String.eqb Ascii.eqb Bool.eqb].
    change (Py.strip "January 5, 2024") with "January 5, 2024".
    by rewrite Hiso. }
  split; [reflexivity|]. split; [exact Hparse|].
  destruct (assess_document_unparsed now doc) as (doc' & ? & ? & ? & _).
  - by rewrite Hdate.
  - by exists doc'.
Qed.

End Dates.

Lemma full_month_name_rejected_witness :
  Sample.fromisoformat "January 5, 2024" = None
  /\ _parse_date Sample.fromisoformat (Some "January 5, 2024") = None.
Proof.
  split; [reflexivity|].
  apply (full_month_name_rejected Sample.fromisoformat (Sample.noon 2024 7 1)
           (Sample.doc "web_1" "https://a.example/x" "primary" "company"
              (Some "January 5, 2024")));
    reflexivity.
Defined.

(** Of the twelve month names only May, which is its own abbreviation,
    is read. *)
Example month_names_ex :
  (fun name => _parse_date Sample.fromisoformat (Some (name ++ " 5, 2024")))
    <$> month_name
  = [None; None; None; None; None; Datetime.make 2024 5 5; None; None; None;
     None; None; None; None].
Proof. reflexivity. Qed.

(** ** The query planner *)

(** The ten baseline queries. *)
Definition baseline (company domain_tag : string) : list string :=
  [ company ++ " " ++ domain_tag ++ " company overview";
    company ++ " product features technology";
    company ++ " news press release";
    company ++ " case study";
    company ++ " whitepaper";
    company ++ " interview";
    company ++ " site:medium.com";
    company ++ " site:github.com";
    company ++ " site:linkedin.com";
    company ++ " funding announcement" ].

(** The targeted queries of one slot; [cut] is the cutoff date of the
    recency window. *)
Definition slot_queries (cut company domain_tag slot : string) : list string :=
  if decide (slot = "primary") then
    [ company ++ " site:" ++ _company_domain_hint company
        ++ " (press OR newsroom OR investors)";
      company ++ " press release site:" ++ _company_domain_hint company;
      company ++ " site:" ++ _company_domain_hint company ++ " blog" ]
  else if decide (slot = "recent") then
    [ company ++ " (" ++ dq ++ "launch" ++ dq ++ " OR " ++ dq ++ "announced"
        ++ dq ++ " OR " ++ dq ++ "funding" ++ dq ++ ") after:" ++ cut;
      company ++ " press release after:" ++ cut ]
  else if decide (slot = "docs_count") then
    [ company ++ " " ++ domain_tag ++ " case study pdf";
      company ++ " " ++ domain_tag ++ " whitepaper pdf";
      company ++ " architecture overview" ]
  else if decide (slot = "reliability") then
    [ company ++ " site:sec.gov OR site:europa.eu OR site:ec.europa.eu";
      company ++ " site:iso.org OR site:ieee.org standard";
      company ++ " analyst report site:gartner.com OR site:forrester.com" ]
  else if decide (slot = "diversity") then
    [ company ++ " review technology analysis";
      company ++ " " ++ domain_tag ++ " industry report";
      company ++ " competitors comparison" ]
  else [].

(** The targeted queries of the missing slots, slot by slot in the order
    the planner visits them. *)
Definition targeted (cut company domain_tag : string) (missing : list string)
  : list string :=
  concat ((fun slot => if decide (slot ∈ missing)
                       then slot_queries cut company domain_tag slot else [])
            <$> ["primary"; "recent"; "docs_count"; "reliability"; "diversity"]).

(** The cutoff date depends on the date of the clock reading only. *)
Lemma cutoff_same_day (t t' : datetime) (n : Z) :
  Datetime.year t = Datetime.year t' -> Datetime.month t = Datetime.month t' ->
  Datetime.day t = Datetime.day t' ->
  Datetime.minus_days_isoformat t n = Datetime.minus_days_isoformat t' n.
Proof.
  intros Hy Hm Hd. unfold Datetime.minus_days_isoformat, Datetime.toordinal.
  by rewrite Hy, Hm, Hd.
Qed.

Lemma contains_decide {A : Type} (x : string) (l : list string) (a b : A) :
  (if contains x l then a else b) = (if decide (x ∈ l) then a else b).
Proof.
  destruct (contains x l) eqn:H.
  - apply contains_elem_of in H. by rewrite decide_True.
  - apply not_true_iff_false in H. rewrite contains_elem_of in H.
    by rewrite decide_False.
Qed.

Lemma build_queries_targeted utcnow company domain_tag st cut :
  attempts_current (web_collection st) <> 1 ->
  missing_slots (gate (web_collection st)) <> [] ->
  Datetime.minus_days_isoformat utcnow
    (recent_window_days (threshold_profile (web_collection st))) = Ok cut ->
  _build_queries utcnow company domain_tag st
  = Ok (baseline company domain_tag
        ++ targeted cut company domain_tag
             (missing_slots (gate (web_collection st))))%list.
Proof.
  intros Hattempt Hmissing Hcut. unfold _build_queries.
  destruct (Z.eqb_spec (attempts_current (web_collection st)) 1); [done|].
  destruct (missing_slots (gate (web_collection st))) as [|s l] eqn:E; [done|].
  rewrite Hcut. cbn [mbind result_bind mret result_ret].
  unfold targeted, baseline. cbn [fmap list_fmap concat].
  rewrite !contains_decide.
  destruct (decide ("primary" ∈ s :: l)), (decide ("recent" ∈ s :: l)),
    (decide ("docs_count" ∈ s :: l)), (decide ("reliability" ∈ s :: l)),
    (decide ("diversity" ∈ s :: l)); reflexivity.
Qed.

(** A state at the start of round [n] whose last verdict left the slots
    [missing] open. *)
Definition state_at (n : Z) (missing : list string) : State :=
  let wc := initial_collection default_threshold_profile in
  {| company_name := "Acme"; domain := "ai"; errors := [];
     web_collection :=
       {| status := status wc; documents := documents wc; count := count wc;
          sources := sources wc; stats := stats wc;
          gate := {| passed := false; missing_slots := missing; reasons := [] |};
          attempts_current := n; attempts_max := attempts_max wc;
          decision_log := decision_log wc;
          threshold_profile := threshold_profile wc; error := error wc |} |}.

Example build_queries_ex :
  _build_queries (Sample.noon 2024 7 1) "Acme" "ai" (state_at 2 ["recent"])
  = Ok (app (baseline "Acme" "ai")
          [ "Acme (" ++ dq ++ "launch" ++ dq ++ " OR " ++ dq ++ "announced" ++ dq
              ++ " OR " ++ dq ++ "funding" ++ dq ++ ") after:2024-01-03";
            "Acme press release after:2024-01-03" ]).
Proof. reflexivity. Qed.

(** C9, as stated, fails: the planner is not a function of its arguments
    alone.  With the recent slot missing, the same company, domain and
    state give different query lists on two different days. *)
Lemma build_queries_reads_clock :
  _build_queries (Sample.noon 2024 7 1) "Acme" "ai" (state_at 2 ["recent"])
  <> _build_queries (Sample.noon 2024 7 2) "Acme" "ai" (state_at 2 ["recent"]).
Proof. intros H. vm_compute in H. congruence. Qed.

(** C9, amended.  [_build_queries] is a function of its arguments and of
    the UTC date at the time of the call.  On attempt 1 it returns the
    ten baseline queries; on a later attempt with no missing slot it
    returns the baseline; on a later attempt with missing slots it returns
    the baseline followed by the targeted queries of the missing slots,
    two or three for each of the five slots, where the queries of the
    recent slot carry the cutoff date of the recency window.  Two calls
    with the same arguments on the same UTC date return the same list. *)
Theorem build_queries_plan (utcnow : datetime) (company domain_tag : string)
  (st : State) :
  let wc := web_collection st in
  let missing := missing_slots (gate wc) in
  let window := recent_window_days (threshold_profile wc) in
  length (baseline company domain_tag) = 10%nat
  /\ (attempts_current wc = 1 ->
      _build_queries utcnow company domain_tag st = Ok (baseline company domain_tag))
  /\ (2 <= attempts_current wc -> missing = [] ->
      _build_queries utcnow company domain_tag st = Ok (baseline company domain_tag))
  /\ (2 <= attempts_current wc -> missing <> [] ->
      forall cut, Datetime.minus_days_isoformat utcnow window = Ok cut ->
        _build_queries utcnow company domain_tag st
        = Ok (baseline company domain_tag
              ++ targeted cut company domain_tag missing)%list)
  /\ (forall cut slot, slot ∈ slot_names ->
        (2 <= length (slot_queries cut company domain_tag slot) <= 3)%nat)
  /\ (forall utcnow',
        Datetime.year utcnow' = Datetime.year utcnow ->
        Datetime.month utcnow' = Datetime.month utcnow ->
        Datetime.day utcnow' = Datetime.day utcnow ->
        _build_queries utcnow' company domain_tag st
        = _build_queries utcnow company domain_tag st).
Proof.
  intros wc missing window. split; [reflexivity|]. split.
  { intros H. unfold _build_queries. fold wc. by rewrite H. }
  split.
  { intros H Hm. unfold _build_queries. fold wc missing. rewrite Hm.
    by destruct (attempts_current wc =? 1). }
  split.
  { intros H Hm cut Hcut. apply build_queries_targeted; [fold wc; lia | done | done]. }
  split.
  { intros cut slot Hslot. unfold slot_names in Hslot.
    repeat (apply elem_of_cons in Hslot as [-> | Hslot]); [..|by apply elem_of_nil in Hslot];
      vm_compute; lia. }
  intros utcnow' Hy Hm Hd. unfold _build_queries.
  by rewrite (cutoff_same_day utcnow' utcnow _ Hy Hm Hd).
Qed.

Lemma build_queries_plan_witness :
  _build_queries (Sample.noon 2024 7 1) "Acme" "ai"
    (state_at 2 ["recent"; "reliability"])
  = Ok (baseline "Acme" "ai"
        ++ targeted "2024-01-03" "Acme" "ai" ["recent"; "reliability"])%list
  /\ _build_queries (Sample.noon 2024 7 1) "Acme" "ai" (state_at 1 ["recent"])
     = Ok (baseline "Acme" "ai").
Proof.
  destruct (build_queries_plan (Sample.noon 2024 7 1) "Acme" "ai"
              (state_at 2 ["recent"; "reliability"])) as (_ & _ & _ & H & _).
  destruct (build_queries_plan (Sample.noon 2024 7 1) "Acme" "ai"
              (state_at 1 ["recent"])) as (_ & H1 & _).
  split.
  - apply H; [by vm_compute | discriminate | reflexivity].
  - apply H1. reflexivity.
Defined.

(** ** De-duplication *)

Section Dedup.

Variable urlparse : string -> option ParseResult.
Variable fromisoformat : string -> option datetime.

(** The key a document is filed under. *)
Definition normalized (d : Document) : string := _normalize_url urlparse (url d).

(** What [dedup_merge] adds: documents of the batch that have a URL
    whose normal form was not seen before, no two of them with the same
    normal form; the seen-set grows by exactly these forms. *)
Lemma dedup_merge_spec (analyzed : list Document) :
  forall (seen : gset string) (acc : list Document),
  exists added,
    dedup_merge urlparse analyzed seen acc
    = (seen ∪ list_to_set (normalized <$> added), (acc ++ added)%list)
    /\ NoDup (normalized <$> added)
    /\ Forall (fun d => d ∈ analyzed /\ url d <> "" /\ normalized d ∉ seen) added.
Proof.
  induction analyzed as [|d rest IH]; intros seen acc; simpl.
  - exists []. rewrite app_nil_r. simpl. rewrite (right_id_L ∅ (∪)).
    repeat split; constructor.
  - destruct (String.eqb_spec (url d) "") as [Hurl | Hurl].
    { destruct (IH seen acc) as (added & -> & Hnd & Hall). exists added.
      repeat split; [done|]. eapply Forall_impl; [exact Hall|].
      intros x (? & ? & ?). repeat split; [by right | done | done]. }
    destruct (decide (_normalize_url urlparse (url d) ∈ seen)) as [Hseen | Hnew].
    { destruct (IH seen acc) as (added & -> & Hnd & Hall). exists added.
      repeat split; [done|]. eapply Forall_impl; [exact Hall|].
      intros x (? & ? & ?). repeat split; [by right | done | done]. }
    destruct (IH (seen ∪ {[_normalize_url urlparse (url d)]}) (acc ++ [d])%list)
      as (added & -> & Hnd & Hall).
    exists (d :: added). split; [|split].
    + rewrite <- app_assoc. simpl. f_equal. fold (normalized d).
      by rewrite (assoc_L (∪)).
    + simpl. constructor; [|done]. intros Hin.
      apply list_elem_of_fmap in Hin as (x & Hx & Hxin).
      rewrite Forall_forall in Hall. destruct (Hall x Hxin) as (_ & _ & Hfresh).
      apply Hfresh. rewrite <- Hx. apply elem_of_union_r, elem_of_singleton.
      reflexivity.
    + constructor; [repeat split; [by left | done | done]|].
      eapply Forall_impl; [exact Hall|].
      intros x (? & ? & Hx). repeat split; [by right | done |].
      intros Hin. apply Hx. by apply elem_of_union_l.
Qed.

(** [assess_document] leaves the identifier and the URL alone. *)
Lemma assess_document_key now doc doc' :
  assess_document fromisoformat now doc = Ok doc' ->
  doc_id doc' = doc_id doc /\ url doc' = url doc.
Proof.
  unfold assess_document. intros H.
  destruct (_parse_date fromisoformat (date doc)) as [t|].
  - destruct (Datetime.sub_days now t) as [age|]; [|done]. by injection H as <-.
  - by injection H as <-.
Qed.

Definition doc_key (d : Document) : string * string := (doc_id d, url d).

Lemma assess_from_keys clock documents : forall i,
  doc_key <$> (assess_from fromisoformat clock i documents).1 = doc_key <$> documents.
Proof.
  induction documents as [|d documents IH]; intros i; simpl; [done|].
  destruct (assess_document fromisoformat (clock i) d) as [d'|] eqn:Hd; [|done].
  specialize (IH (S i)).
  destruct (assess_from fromisoformat clock (S i) documents) as [rest exn].
  cbn [fst] in *. rewrite !fmap_cons, IH. f_equal.
  apply assess_document_key in Hd as [Hid Hurl]. unfold doc_key. by rewrite Hid, Hurl.
Qed.

Lemma assess_keys clock documents :
  doc_key <$> (_assess_reliability fromisoformat clock documents).1
  = doc_key <$> documents.
Proof. apply assess_from_keys. Qed.

End Dedup.

(** ** One round of the loop *)

Section Round.

Variable urlparse : string -> option ParseResult.
Variable fromisoformat : string -> option datetime.
Variable w : World.
Variables company domain_tag : string.
Variable policy : ThresholdProfile.

Local Abbreviation attempt_of :=
  (attempt urlparse fromisoformat w company domain_tag policy).
Local Abbreviation loop_of fuel :=
  (attempts_loop urlparse fromisoformat fuel w company domain_tag policy).
Local Abbreviation normal := (normalized urlparse).

(** The collection dictionary a completed round leaves, and the way the
    round ends, from the verdict on the [cumulative] list. *)
Definition round_entry (wc : WebCollection) (queries : list string)
  (added cumulative : list Document) : LogEntry :=
  let verdict :=
    _evaluate_gate urlparse cumulative (_calculate_statistics cumulative) policy in
  {| log_attempt := attempts_current wc; log_queries := queries;
     log_new_docs := len added; log_total_docs := len cumulative;
     log_gate_passed := verdict.1.1; log_missing_slots := verdict.1.2;
     log_reasons := verdict.2;
     log_timestamp := now_isoformat w (attempts_current wc) |}.

Definition completed_collection (wc : WebCollection) (queries : list string)
  (added cumulative : list Document) : WebCollection :=
  let st := _calculate_statistics cumulative in
  let verdict := _evaluate_gate urlparse cumulative st policy in
  let logged :=
    log_decision
      (update_collection wc cumulative st
         {| passed := verdict.1.1; missing_slots := verdict.1.2;
            reasons := verdict.2 |})
      (round_entry wc queries added cumulative) in
  if verdict.1.1 then logged
  else if attempts_max wc <=? attempts_current wc then set_status logged "partial"
  else logged.

Definition completed_flow (wc : WebCollection) (cumulative : list Document)
  : Flow :=
  let st := _calculate_statistics cumulative in
  let verdict := _evaluate_gate urlparse cumulative st policy in
  if verdict.1.1 then Break
  else if attempts_max wc <=? attempts_current wc then Break
  else Continue.

(** The three ways a round can go: an exception before the merge, an
    exception while the merged list is assessed, or a completed round. *)
Lemma attempt_shape (r : Run) :
  let wc := next_attempt (web_collection (state r)) in
  let entered := set_web_collection (state r) wc in
  (exists msg,
      attempt_of r
      = ({| state := entered; cumulative_docs := cumulative_docs r;
            seen_urls := seen_urls r |}, Raised msg))
  \/ exists queries analyzed added cumulative exn,
       collect w (attempts_current wc) queries = Ok analyzed
       /\ NoDup (normal <$> added)
       /\ Forall (fun d => d ∈ analyzed /\ url d <> ""
                           /\ normal d ∉ seen_urls r) added
       /\ _assess_reliability fromisoformat
            (utcnow_assess w (attempts_current wc))
            (cumulative_docs r ++ added)%list = (cumulative, exn)
       /\ attempt_of r
          = match exn with
            | Some msg =>
                ({| state := entered; cumulative_docs := cumulative;
                    seen_urls := seen_urls r ∪ list_to_set (normal <$> added) |},
                 Raised msg)
            | None =>
                ({| state := set_web_collection (state r)
                               (completed_collection wc queries added cumulative);
                    cumulative_docs := cumulative;
                    seen_urls := seen_urls r ∪ list_to_set (normal <$> added) |},
                 completed_flow wc cumulative)
            end.
Proof.
  intros wc entered. unfold attempt. fold wc. fold entered.
  cbn [state cumulative_docs seen_urls].
  destruct (_build_queries _ company domain_tag entered) as [queries | msg];
    [|left; by exists msg].
  destruct (collect w (attempts_current wc) queries) as [analyzed | msg] eqn:Hcollect;
    [|left; by exists msg].
  right.
  destruct (dedup_merge_spec urlparse analyzed (seen_urls r) [])
    as (added & Hmerge & Hnodup & Hall).
  rewrite Hmerge. rewrite app_nil_l.
  destruct (_assess_reliability fromisoformat (utcnow_assess w (attempts_current wc))
              (cumulative_docs r ++ added)%list) as [cumulative exn] eqn:Hassess.
  exists queries, analyzed, added, cumulative, exn.
  repeat split; [done | done | done | done |].
  destruct exn as [msg|]; [done|].
  unfold completed_collection, completed_flow, round_entry.
  destruct (_evaluate_gate urlparse cumulative (_calculate_statistics cumulative) policy)
    as [[gate_passed missing] rs].
  cbn [fst snd]. destruct gate_passed; [done|].
  cbn [attempts_max log_decision update_collection].
  by destruct (attempts_max wc <=? attempts_current wc).
Qed.

(** The fields of a run the lemmas below speak about. *)
Definition cur (r : Run) : Z := attempts_current (web_collection (state r)).
Definition cap (r : Run) : Z := attempts_max (web_collection (state r)).
Definition log (r : Run) : list LogEntry := decision_log (web_collection (state r)).

(** A case of [attempt_shape], with the result of the round rewritten. *)
Ltac round_cases r :=
  let H := fresh "Hround" in
  destruct (attempt_shape r)
    as [[? H] | (queries & analyzed & added & cumulative & exn & Hcollect
                 & Hnodup & Hfresh & Hassess & H)];
  [|destruct exn as [?|]]; rewrite H in *; clear H.

Lemma completed_collection_counter wc queries added cumulative :
  let wc' := completed_collection wc queries added cumulative in
  attempts_current wc' = attempts_current wc
  /\ attempts_max wc' = attempts_max wc
  /\ threshold_profile wc' = threshold_profile wc
  /\ documents wc' = Cumulative
  /\ count wc' = len cumulative
  /\ error wc' = None.
Proof.
  unfold completed_collection.
  destruct (_evaluate_gate urlparse cumulative _ policy).1.1; [done|].
  by destruct (attempts_max wc <=? attempts_current wc).
Qed.

(** Every round counts itself, and leaves the bound and the error list
    of the state alone, however it ends. *)
Lemma attempt_counter (r : Run) :
  cur (attempt_of r).1 = cur r + 1
  /\ cap (attempt_of r).1 = cap r
  /\ errors (state (attempt_of r).1) = errors (state r).
Proof.
  unfold cur, cap. round_cases r; cbn [fst state web_collection set_web_collection errors];
    try done.
  destruct (completed_collection_counter
              (next_attempt (web_collection (state r))) queries added cumulative)
    as (-> & -> & _). done.
Qed.

(** A round extends the cumulative list at its end and changes no URL
    or identifier in it. *)
Lemma attempt_extends (r : Run) :
  exists added,
    doc_key <$> cumulative_docs (attempt_of r).1
    = doc_key <$> (cumulative_docs r ++ added)%list
    /\ seen_urls (attempt_of r).1 = seen_urls r ∪ list_to_set (normal <$> added)
    /\ NoDup (normal <$> added)
    /\ Forall (fun d => url d <> "" /\ normal d ∉ seen_urls r) added.
Proof.
  round_cases r; cbn [fst cumulative_docs seen_urls].
  - exists []. rewrite app_nil_r. simpl. rewrite (right_id_L ∅ (∪)).
    repeat split; constructor.
  - exists added. pose proof (assess_keys fromisoformat
                               (utcnow_assess w (attempts_current
                                  (next_attempt (web_collection (state r)))))
                               (cumulative_docs r ++ added)%list) as Hk.
    rewrite Hassess in Hk. repeat split; [done | done |].
    eapply Forall_impl; [exact Hfresh|]. by intros d (_ & ? & ?).
  - exists added. pose proof (assess_keys fromisoformat
                               (utcnow_assess w (attempts_current
                                  (next_attempt (web_collection (state r)))))
                               (cumulative_docs r ++ added)%list) as Hk.
    rewrite Hassess in Hk. repeat split; [done | done |].
    eapply Forall_impl; [exact Hfresh|]. by intros d (_ & ? & ?).
Qed.

Lemma keys_urls (l l' : list Document) :
  doc_key <$> l = doc_key <$> l' -> url <$> l = url <$> l'.
Proof.
  intros H. apply (f_equal (fmap snd)) in H.
  by rewrite <- !list_fmap_compose in H.
Qed.

Lemma keys_length (l l' : list Document) :
  doc_key <$> l = doc_key <$> l' -> length l = length l'.
Proof. intros H. apply (f_equal length) in H. by rewrite !length_fmap in H. Qed.

Lemma normal_urls (l : list Document) :
  normal <$> l = _normalize_url urlparse <$> (url <$> l).
Proof. by rewrite <- list_fmap_compose. Qed.

(** The invariant of the de-duplication: no two accumulated documents
    have the same normalised URL, every one has a URL, and the seen-set
    holds the normalised URL of every one. *)
Definition deduplicated (r : Run) : Prop :=
  NoDup (normal <$> cumulative_docs r)
  /\ Forall (fun d => url d <> "" /\ normal d ∈ seen_urls r) (cumulative_docs r).

Lemma deduplicated_urls (seen : gset string) (l l' : list Document) :
  url <$> l = url <$> l' ->
  Forall (fun d => url d <> "" /\ normal d ∈ seen) l' ->
  Forall (fun d => url d <> "" /\ normal d ∈ seen) l.
Proof.
  intros Hurls Hall.
  assert (H : Forall (fun u => u <> "" /\ _normalize_url urlparse u ∈ seen)
                (url <$> l)).
  { rewrite Hurls. apply Forall_fmap. eapply Forall_impl; [exact Hall|]. done. }
  apply Forall_fmap in H. eapply Forall_impl; [exact H|]. done.
Qed.

Lemma attempt_deduplicated (r : Run) :
  deduplicated r -> deduplicated (attempt_of r).1.
Proof.
  intros [Hnodup Hseen]. unfold deduplicated.
  destruct (attempt_extends r) as (added & Hkeys & -> & Hadded & Hfresh).
  apply keys_urls in Hkeys. split.
  - rewrite normal_urls, Hkeys, <- normal_urls, fmap_app.
    apply NoDup_app. split; [done|]. split; [|done].
    intros u Hu Hu'. apply list_elem_of_fmap in Hu as (d & -> & Hd).
    apply list_elem_of_fmap in Hu' as (d' & Heq & Hd').
    rewrite Forall_forall in Hseen, Hfresh.
    destruct (Hfresh d' Hd') as [_ Hnew]. apply Hnew. rewrite <- Heq.
    by apply Hseen.
  - eapply deduplicated_urls; [exact Hkeys|]. apply Forall_app. split.
    + eapply Forall_impl; [exact Hseen|]. intros d [? ?]. split; [done|].
      by apply elem_of_union_l.
    + rewrite Forall_forall in Hfresh. apply Forall_forall. intros d Hd.
      split; [by apply Hfresh|]. apply elem_of_union_r, elem_of_list_to_set.
      apply list_elem_of_fmap. by exists d.
Qed.

(** What the loop keeps from round to round it keeps to its end,
    whether it ends by itself, by [break] or by an exception. *)
Lemma loop_invariant (P : Run -> Prop) :
  (forall r, P r -> P (attempt_of r).1) ->
  forall fuel r, P r -> P (loop_of fuel r).1.
Proof.
  intros Hstep. induction fuel as [|fuel IH]; intros r Hr; simpl; [done|].
  destruct (attempts_current (web_collection (state r))
            <? attempts_max (web_collection (state r))); [|done].
  specialize (Hstep r Hr).
  destruct (attempt_of r) as [r' [| |msg]]; simpl in *; auto.
Qed.

Lemma loop_relation (R : relation Run) `{!Reflexive R, !Transitive R} :
  (forall r, R r (attempt_of r).1) ->
  forall fuel r, R r (loop_of fuel r).1.
Proof.
  intros Hstep fuel r. apply (loop_invariant (R r)); [|reflexivity].
  intros r' Hr'. by transitivity r'.
Qed.

(** The cumulative list only grows: what was accumulated stays, in the
    same order, and new documents come after. *)
Definition grows (r r' : Run) : Prop :=
  doc_key <$> cumulative_docs r `prefix_of` doc_key <$> cumulative_docs r'.

#[local] Instance grows_refl : Reflexive grows.
Proof. intros r. unfold grows. reflexivity. Qed.

#[local] Instance grows_trans : Transitive grows.
Proof. intros r1 r2 r3. unfold grows. apply transitivity. Qed.

Lemma attempt_grows (r : Run) : grows r (attempt_of r).1.
Proof.
  destruct (attempt_extends r) as (added & Hkeys & _). unfold grows.
  rewrite Hkeys, fmap_app. by apply prefix_app_r.
Qed.

(** The list under the key [documents] is never longer than the
    cumulative list, and a round does not shorten it. *)
Definition view_grows (r r' : Run) : Prop :=
  (length (documents_of r) <= length (documents_of r'))%nat
  /\ (length (cumulative_docs r) <= length (cumulative_docs r'))%nat
  /\ (documents (web_collection (state r)) = Cumulative ->
      documents (web_collection (state r')) = Cumulative).

#[local] Instance view_grows_refl : Reflexive view_grows.
Proof. intros r. unfold view_grows. auto. Qed.

#[local] Instance view_grows_trans : Transitive view_grows.
Proof.
  intros r1 r2 r3 (? & ? & ?) (? & ? & ?). unfold view_grows.
  repeat split; [lia | lia | auto].
Qed.

Lemma attempt_view_grows (r : Run) : view_grows r (attempt_of r).1.
Proof.
  pose proof (attempt_grows r) as Hg. apply prefix_length in Hg.
  rewrite !length_fmap in Hg. unfold view_grows, documents_of.
  round_cases r;
    cbn [fst state web_collection set_web_collection cumulative_docs
         next_attempt documents] in *.
  - destruct (documents (web_collection (state r))); simpl; auto with lia.
  - destruct (documents (web_collection (state r))); simpl in *; auto with lia.
  - destruct (completed_collection_counter
                (next_attempt (web_collection (state r))) queries added cumulative)
      as (_ & _ & _ & -> & _).
    destruct (documents (web_collection (state r))); simpl in *; auto with lia.
Qed.

(** *** Completed rounds *)

Lemma completed_collection_log wc queries added cumulative :
  decision_log (completed_collection wc queries added cumulative)
  = (decision_log wc ++ [round_entry wc queries added cumulative])%list.
Proof.
  unfold completed_collection.
  destruct (_evaluate_gate urlparse cumulative _ policy).1.1; [done|].
  by destruct (attempts_max wc <=? attempts_current wc).
Qed.

(** How a completed round ends, by its verdict and its number. *)
Lemma completed_round wc queries added cumulative :
  let wc' := completed_collection wc queries added cumulative in
  let e := round_entry wc queries added cumulative in
  passed (gate wc') = log_gate_passed e
  /\ match completed_flow wc cumulative with
     | Break =>
         (log_gate_passed e = true /\ status wc' = "completed")
         \/ (log_gate_passed e = false /\ attempts_max wc <= attempts_current wc
             /\ status wc' = "partial")
     | Continue =>
         log_gate_passed e = false /\ attempts_current wc < attempts_max wc
         /\ status wc' = "insufficient"
     | Raised _ => False
     end.
Proof.
  unfold completed_collection, completed_flow, round_entry. cbn [log_gate_passed].
  destruct (_evaluate_gate urlparse cumulative _ policy).1.1; [split; [done | by left]|].
  destruct (Z.leb_spec (attempts_max wc) (attempts_current wc)).
  - split; [done | by right].
  - done.
Qed.

Definition sum_new_docs (l : list LogEntry) : Z :=
  foldr (fun e acc => log_new_docs e + acc) 0 l.

Lemma sum_new_docs_app l e :
  sum_new_docs (l ++ [e]) = sum_new_docs l + log_new_docs e.
Proof. induction l as [|x l IH]; simpl; [lia | rewrite IH; lia]. Qed.

(** The invariant of the decision log at the head of the loop: the
    entries are those of earlier rounds, none of them the last possible
    one, and their new-document counts add up to the cumulative list. *)
Definition logged (r : Run) : Prop :=
  Forall (fun e => log_attempt e <= cur r /\ log_attempt e < cap r
                   /\ log_total_docs e <= len (cumulative_docs r)) (log r)
  /\ len (cumulative_docs r) = sum_new_docs (log r).

(** What holds at the end of a run whose log has an entry for the last
    possible round with a failed verdict. *)
Definition exhausted (r : Run) (e : LogEntry) : Prop :=
  status (web_collection (state r)) = "partial"
  /\ error (web_collection (state r)) = None
  /\ passed (gate (web_collection (state r))) = false
  /\ cur r = cap r
  /\ documents (web_collection (state r)) = Cumulative
  /\ count (web_collection (state r)) = len (cumulative_docs r)
  /\ log_total_docs e = len (cumulative_docs r)
  /\ len (cumulative_docs r) = sum_new_docs (log r)
  /\ Forall (fun e' => log_total_docs e' <= len (cumulative_docs r)) (log r).

Lemma loop_exhausted : forall fuel r,
  logged r ->
  match (loop_of fuel r).2 with
  | Some _ => Forall (fun e => log_attempt e < cap (loop_of fuel r).1)
                (log (loop_of fuel r).1)
  | None =>
      forall e, e ∈ log (loop_of fuel r).1 ->
        log_attempt e = cap (loop_of fuel r).1 -> log_gate_passed e = false ->
        exhausted (loop_of fuel r).1 e
  end.
Proof.
  assert (Hhead : forall r, logged r ->
            forall e, e ∈ log r -> log_attempt e = cap r -> log_gate_passed e = false ->
                      exhausted r e).
  { intros r [Hlog _] e He Hcap. rewrite Forall_forall in Hlog.
    destruct (Hlog e He) as (_ & ? & _). lia. }
  induction fuel as [|fuel IH]; intros r Hr; simpl; [by apply Hhead|].
  fold (cur r) (cap r).
  destruct (Z.ltb_spec (cur r) (cap r)) as [Hlt | Hge];
    [|cbn [fst snd]; by apply Hhead].
  destruct Hr as [Hlog Hsum].
  pose proof (attempt_counter r) as (Hcur & Hcap & _).
  pose proof (attempt_view_grows r) as (_ & Hlen & _).
  round_cases r; cbn [fst snd] in *.
  - unfold log, cap in *. cbn [state web_collection set_web_collection next_attempt
                               decision_log attempts_max] in *.
    eapply Forall_impl; [exact Hlog|]. intros e (_ & ? & _). done.
  - unfold log, cap in *. cbn [state web_collection set_web_collection next_attempt
                               decision_log attempts_max] in *.
    eapply Forall_impl; [exact Hlog|]. intros e (_ & ? & _). done.
  - set (wc := next_attempt (web_collection (state r))) in *.
    set (r' := {| state := set_web_collection (state r)
                             (completed_collection wc queries added cumulative);
                  cumulative_docs := cumulative;
                  seen_urls := seen_urls r ∪ list_to_set (normal <$> added) |}) in *.
    assert (Hn : attempts_current wc = cur r + 1) by reflexivity.
    assert (Hm : attempts_max wc = cap r) by reflexivity.
    assert (Hlog' : log r' = (log r ++ [round_entry wc queries added cumulative])%list)
      by apply completed_collection_log.
    assert (Hcum : len cumulative = len (cumulative_docs r) + len added).
    { pose proof (assess_keys fromisoformat (utcnow_assess w (attempts_current wc))
                    (cumulative_docs r ++ added)%list) as Hk.
      rewrite Hassess in Hk. apply keys_length in Hk. cbn [fst] in Hk.
      unfold len. rewrite Hk, length_app. lia. }
    assert (Hsum' : len (cumulative_docs r') = sum_new_docs (log r')).
    { rewrite Hlog', sum_new_docs_app. cbn [cumulative_docs r' round_entry log_new_docs].
      lia. }
    assert (Hold : Forall (fun e => log_attempt e <= cur r /\ log_attempt e < cap r
                                    /\ log_total_docs e <= len cumulative) (log r)).
    { eapply Forall_impl; [exact Hlog|]. intros e (? & ? & ?).
      repeat split; [done | done |]. unfold len in *. cbn [cumulative_docs] in Hlen. lia. }
    destruct (completed_collection_counter wc queries added cumulative)
      as (_ & _ & _ & Hdocs & Hcount & Herr).
    pose proof (completed_round wc queries added cumulative) as [Hpassed Hflow].
    destruct (completed_flow wc cumulative) as [| |msg]; [| |done].
    + (* the loop goes on *)
      apply IH. destruct Hflow as (_ & Hmore & _). split; [|exact Hsum'].
      rewrite Hlog'. apply Forall_app. split.
      * eapply Forall_impl; [exact Hold|]. intros e (? & ? & ?).
        repeat split; [lia | lia | done].
      * constructor; [|constructor]. cbn [round_entry log_attempt log_total_docs].
        repeat split; [lia | lia | cbn [cumulative_docs r']; lia].
    + (* the loop is left *)
      cbn [snd fst]. intros e He Hlast Hfailed.
      rewrite Hlog' in He. apply elem_of_app in He as [He | He].
      { rewrite Forall_forall in Hold. destruct (Hold e He) as (_ & ? & _). lia. }
      apply list_elem_of_singleton in He as ->.
      destruct Hflow as [[Htrue _] | (_ & Hmax & Hstatus)]; [congruence|].
      unfold exhausted.
      repeat split; try done.
      * cbn [r' state web_collection set_web_collection].
        rewrite Hpassed. exact Hfailed.
      * unfold cur, cap. cbn [r' state web_collection set_web_collection].
        destruct (completed_collection_counter wc queries added cumulative)
          as (-> & -> & _). lia.
      * rewrite Hlog'. apply Forall_app. split.
        -- eapply Forall_impl; [exact Hold|]. by intros e (_ & _ & ?).
        -- constructor; [|constructor]. cbn [round_entry log_total_docs cumulative_docs r'].
           lia.
Qed.

(** *** Termination of the loop *)

(** The fuel [execute] gives the loop, the distance of the counter from
    its bound, is enough: more fuel changes nothing. *)
Lemma loop_fuel : forall fuel r,
  (Z.to_nat (cap r - cur r) <= fuel)%nat ->
  loop_of fuel r = loop_of (Z.to_nat (cap r - cur r)) r.
Proof.
  induction fuel as [|fuel IH]; intros r Hfuel.
  - by replace (Z.to_nat (cap r - cur r)) with 0%nat by lia.
  - simpl. fold (cur r) (cap r).
    destruct (Z.ltb_spec (cur r) (cap r)) as [Hlt | Hge].
    + destruct (Z.to_nat (cap r - cur r)) as [|k] eqn:Hk; [lia|].
      simpl. fold (cur r) (cap r).
      destruct (Z.ltb_spec (cur r) (cap r)); [|lia].
      pose proof (attempt_counter r) as (Hcur & Hcap & _).
      destruct (attempt_of r) as [r' [| |msg]]; [|done|done].
      cbn [fst] in *.
      assert (Hk' : Z.to_nat (cap r' - cur r') = k) by lia.
      rewrite (IH r') by lia. by rewrite Hk'.
    + replace (Z.to_nat (cap r - cur r)) with 0%nat by lia. done.
Qed.

(** [rounds r r']: the loop, started in [r], is at its head again in
    [r'] after some rounds that all ended in [Continue]. *)
Inductive rounds : Run -> Run -> Prop :=
| rounds_here (r : Run) : rounds r r
| rounds_next (r r1 r2 : Run) :
    cur r < cap r -> attempt_of r = (r1, Continue) -> rounds r1 r2 ->
    rounds r r2.

Lemma rounds_loop (r r' : Run) :
  rounds r r' ->
  forall fuel, (Z.to_nat (cap r - cur r) <= fuel)%nat ->
  loop_of fuel r = loop_of (Z.to_nat (cap r' - cur r')) r'.
Proof.
  induction 1 as [r | r r1 r2 Hlt Hstep _ IH]; intros fuel Hfuel.
  - by apply loop_fuel.
  - pose proof (attempt_counter r) as (Hcur & Hcap & _).
    rewrite Hstep in Hcur, Hcap. cbn [fst] in *.
    destruct fuel as [|fuel]; [lia|]. simpl. fold (cur r) (cap r).
    destruct (Z.ltb_spec (cur r) (cap r)); [|lia].
    rewrite Hstep. apply IH. lia.
Qed.

Lemma rounds_errors (r r' : Run) :
  rounds r r' -> errors (state r') = errors (state r) /\ cap r' = cap r.
Proof.
  induction 1 as [r | r r1 r2 _ Hstep _ [IHe IHc]]; [done|].
  pose proof (attempt_counter r) as (_ & Hcap & Herr).
  rewrite Hstep in Hcap, Herr. cbn [fst] in *. split; congruence.
Qed.

(** An exception in a round the loop reaches ends the loop there. *)
Lemma rounds_raise (r0 r : Run) (msg : string) :
  rounds r0 r -> cur r < cap r -> (attempt_of r).2 = Raised msg ->
  loop_of (Z.to_nat (cap r0 - cur r0)) r0 = ((attempt_of r).1, Some msg).
Proof.
  intros Hrounds Hlt Hraise.
  rewrite (rounds_loop r0 r Hrounds) by lia.
  destruct (Z.to_nat (cap r - cur r)) as [|k] eqn:Hk; [lia|].
  simpl. fold (cur r) (cap r). destruct (Z.ltb_spec (cur r) (cap r)); [|lia].
  destruct (attempt_of r) as [r' flow]. cbn [fst snd] in *. by subst flow.
Qed.

(** A round that ends in [Continue] has written its log entry. *)
Lemma attempt_continue_logged (r r1 : Run) :
  logged r -> cur r < cap r -> attempt_of r = (r1, Continue) -> logged r1.
Proof.
  intros [Hlog Hsum] Hlt Hstep.
  pose proof (attempt_view_grows r) as (_ & Hlen & _).
  rewrite Hstep in Hlen. cbn [fst] in Hlen. revert Hstep.
  destruct (attempt_shape r)
    as [[? ->] | (queries & analyzed & added & cumulative & exn & _ & _ & _
                  & Hassess & ->)]; [done|].
  destruct exn as [?|]; [done|]. intros Hstep.
  set (wc := next_attempt (web_collection (state r))) in *.
  pose proof (completed_round wc queries added cumulative) as [_ Hflow].
  injection Hstep as <- Hcont. rewrite Hcont in Hflow.
  destruct Hflow as (_ & Hmore & _).
  assert (Hn : attempts_current wc = cur r + 1) by reflexivity.
  assert (Hm : attempts_max wc = cap r) by reflexivity.
  destruct (completed_collection_counter wc queries added cumulative)
    as (Hcur' & Hcap' & _).
  assert (Hcum : len cumulative = len (cumulative_docs r) + len added).
  { pose proof (assess_keys fromisoformat (utcnow_assess w (attempts_current wc))
                  (cumulative_docs r ++ added)%list) as Hk.
    rewrite Hassess in Hk. apply keys_length in Hk. cbn [fst] in Hk.
    unfold len. rewrite Hk, length_app. lia. }
  unfold logged, log, cur, cap in *.
  cbn [state web_collection set_web_collection cumulative_docs] in *.
  rewrite completed_collection_log, Hcur', Hcap'. split.
  - apply Forall_app. split.
    + eapply Forall_impl; [exact Hlog|]. intros e (? & ? & ?).
      unfold len in *. repeat split; lia.
    + constructor; [|constructor]. cbn [round_entry log_attempt log_total_docs].
      repeat split; lia.
  - rewrite sum_new_docs_app. cbn [round_entry log_new_docs].
    change (decision_log wc) with (decision_log (web_collection (state r))). lia.
Qed.

Lemma rounds_logged (r r' : Run) : rounds r r' -> logged r -> logged r'.
Proof.
  induction 1 as [r | r r1 r2 Hlt Hstep _ IH]; [done|].
  intros Hr. apply IH. by eapply attempt_continue_logged.
Qed.

(** *** Monotonicity along the loop *)

(** With more fuel the loop gets at least as far. *)
Lemma loop_monotone (R : relation Run) `{!Reflexive R, !Transitive R} :
  (forall r, R r (attempt_of r).1) ->
  forall fuel fuel' r, (fuel <= fuel')%nat ->
    R (loop_of fuel r).1 (loop_of fuel' r).1.
Proof.
  intros Hstep. induction fuel as [|fuel IH]; intros fuel' r Hle.
  - change (loop_of 0 r).1 with r. by apply loop_relation.
  - destruct fuel' as [|fuel']; [lia|]. simpl.
    destruct (attempts_current (web_collection (state r))
              <? attempts_max (web_collection (state r))); [|reflexivity].
    destruct (attempt_of r) as [r' [| |msg]]; [|reflexivity|reflexivity].
    apply IH. lia.
Qed.

Definition seen_grows (r r' : Run) : Prop := seen_urls r ⊆ seen_urls r'.

#[local] Instance seen_grows_refl : Reflexive seen_grows.
Proof. intros r. unfold seen_grows. reflexivity. Qed.

#[local] Instance seen_grows_trans : Transitive seen_grows.
Proof. intros r1 r2 r3. unfold seen_grows. apply transitivity. Qed.

Lemma attempt_seen_grows (r : Run) : seen_grows r (attempt_of r).1.
Proof.
  unfold seen_grows. destruct (attempt_extends r) as (added & _ & -> & _).
  apply union_subseteq_l.
Qed.

Lemma loop_grows fuel fuel' r :
  (fuel <= fuel')%nat ->
  grows (loop_of fuel r).1 (loop_of fuel' r).1
  /\ view_grows (loop_of fuel r).1 (loop_of fuel' r).1
  /\ seen_grows (loop_of fuel r).1 (loop_of fuel' r).1.
Proof.
  intros Hle. split; [|split].
  - apply (loop_monotone grows); [apply attempt_grows | done].
  - apply (loop_monotone view_grows); [apply attempt_view_grows | done].
  - apply (loop_monotone seen_grows); [apply attempt_seen_grows | done].
Qed.

End Round.

(** ** The run *)

Section Execute.

Variable urlparse : string -> option ParseResult.
Variable fromisoformat : string -> option datetime.

Local Abbreviation normal := (normalized urlparse).
Local Abbreviation attempt_of := (attempt urlparse fromisoformat).
Local Abbreviation loop_of := (attempts_loop urlparse fromisoformat).
Local Abbreviation run_of := (execute_with urlparse fromisoformat).

(** The objects of a run before the first round. *)
Definition initial_run (policy : ThresholdProfile) (st : State) : Run :=
  {| state := set_web_collection st (initial_collection policy);
     cumulative_docs := []; seen_urls := ∅ |}.

Lemma execute_with_loop policy w st :
  let res := loop_of (Z.to_nat (max_attempts policy)) w
               (Py.strip (company_name st)) (Py.strip (domain st)) policy
               (initial_run policy st) in
  run_of policy w st
  = match res.2 with
    | None => res.1
    | Some msg => handle_exception w res.1 msg
    end.
Proof.
  intros res. unfold execute_with. fold (initial_run policy st).
  cbn [attempts_max initial_collection]. fold res. by destruct res as [r [msg|]].
Qed.

Lemma handle_exception_docs w r msg :
  cumulative_docs (handle_exception w r msg) = cumulative_docs r
  /\ seen_urls (handle_exception w r msg) = seen_urls r
  /\ documents_of (handle_exception w r msg) = documents_of r
  /\ log (handle_exception w r msg) = log r
  /\ cap (handle_exception w r msg) = cap r
  /\ cur (handle_exception w r msg) = cur r.
Proof. done. Qed.

(** A property the rounds keep holds when [execute] returns, if it held
    before the first round and the handler keeps it. *)
Lemma execute_invariant (P : Run -> Prop) policy w st :
  (forall company domain_tag r, P r -> P (attempt_of w company domain_tag policy r).1) ->
  (forall r msg, P r -> P (handle_exception w r msg)) ->
  P (initial_run policy st) -> P (run_of policy w st).
Proof.
  intros Hstep Hhandle Hinit. rewrite execute_with_loop.
  pose proof (loop_invariant urlparse fromisoformat w
                (Py.strip (company_name st)) (Py.strip (domain st)) policy P
                (Hstep _ _) (Z.to_nat (max_attempts policy)) _ Hinit) as H.
  destruct (loop_of _ w _ _ policy (initial_run policy st)) as [r [msg|]];
    cbn [fst snd] in *; auto.
Qed.

Lemma deduplicated_view (r : Run) :
  deduplicated urlparse r -> NoDup (normal <$> documents_of r).
Proof.
  intros [H _]. unfold documents_of.
  destruct (documents (web_collection (state r))); [constructor | done].
Qed.

(** C3. The normal form of a URL is its scheme, its lower-cased network
    location and its path, so two URLs that differ in query string or
    fragment only have the same normal form.  A round keeps a hit only
    if it has a URL whose normal form is not in the seen-set, which
    never loses an element.  Hence at every point of a run, and when
    [execute] returns, no two documents of the cumulative list have the
    same normal form, and the seen-set holds the normal form of each. *)
Theorem cumulative_urls_unique (policy : ThresholdProfile) (w : World) (st : State) :
  (forall u p, urlparse u = Some p ->
     _normalize_url urlparse u = scheme p ++ "://" ++ Py.lower (netloc p) ++ path p)
  /\ (forall u u' p p',
        urlparse u = Some p -> urlparse u' = Some p' ->
        scheme p = scheme p' -> Py.lower (netloc p) = Py.lower (netloc p') ->
        path p = path p' ->
        _normalize_url urlparse u = _normalize_url urlparse u')
  /\ (forall analyzed seen,
        seen ⊆ (dedup_merge urlparse analyzed seen []).1
        /\ NoDup (normal <$> (dedup_merge urlparse analyzed seen []).2)
        /\ Forall (fun d => d ∈ analyzed /\ url d <> "" /\ normal d ∉ seen)
             (dedup_merge urlparse analyzed seen []).2)
  /\ (forall fuel company domain_tag r,
        seen_urls r ⊆ seen_urls (loop_of fuel w company domain_tag policy r).1
        /\ (deduplicated urlparse r ->
            deduplicated urlparse (loop_of fuel w company domain_tag policy r).1))
  /\ (forall fuel company domain_tag,
        deduplicated urlparse
          (loop_of fuel w company domain_tag policy (initial_run policy st)).1)
  /\ deduplicated urlparse (run_of policy w st)
  /\ NoDup (normal <$> documents_of (run_of policy w st)).
Proof.
  assert (Hinit : deduplicated urlparse (initial_run policy st))
    by (split; constructor).
  assert (Hloop : forall fuel company domain_tag r,
             deduplicated urlparse r ->
             deduplicated urlparse (loop_of fuel w company domain_tag policy r).1).
  { intros fuel company domain_tag. apply loop_invariant.
    apply attempt_deduplicated. }
  assert (Hrun : deduplicated urlparse (run_of policy w st)).
  { apply execute_invariant; [|done|done].
    intros company domain_tag. apply attempt_deduplicated. }
  split; [by intros u p; unfold _normalize_url; intros ->|].
  split.
  { intros u u' p p' Hu Hu' Hs Hn Hp. unfold _normalize_url.
    by rewrite Hu, Hu', Hs, Hn, Hp. }
  split.
  { intros analyzed seen.
    destruct (dedup_merge_spec urlparse analyzed seen []) as (added & -> & ? & ?).
    rewrite app_nil_l. cbn [fst snd]. split; [apply union_subseteq_l | done]. }
  split.
  { intros fuel company domain_tag r. split; [|apply Hloop].
    by destruct (loop_grows urlparse fromisoformat w company domain_tag policy
                   0 fuel r) as (_ & _ & ?); [lia|]. }
  split; [by intros; apply Hloop|].
  split; [done | by apply deduplicated_view].
Qed.

(** C4. A round only extends the cumulative list: the documents it had
    stay, in their order, and the ones the round adds, newly seen and
    pairwise distinct, come after them.  So from any point of the loop on,
    whether it retries, runs out of attempts or is left, the list after
    more rounds starts with the list after fewer, and is at least as long;
    the exception handler leaves it as it is.  The same holds for the
    list a reader of the [documents] key sees. *)
Theorem cumulative_docs_monotone (policy : ThresholdProfile) (w : World)
  (company domain_tag : string) (r : Run) :
  (exists added,
     doc_key <$> cumulative_docs (attempt_of w company domain_tag policy r).1
     = doc_key <$> (cumulative_docs r ++ added)%list
     /\ NoDup (normal <$> added)
     /\ Forall (fun d => url d <> "" /\ normal d ∉ seen_urls r) added)
  /\ (forall fuel fuel', (fuel <= fuel')%nat ->
        let earlier := (loop_of fuel w company domain_tag policy r).1 in
        let later := (loop_of fuel' w company domain_tag policy r).1 in
        doc_key <$> cumulative_docs earlier `prefix_of` doc_key <$> cumulative_docs later
        /\ (length (cumulative_docs earlier) <= length (cumulative_docs later))%nat
        /\ (length (documents_of earlier) <= length (documents_of later))%nat)
  /\ (forall msg,
        cumulative_docs (handle_exception w r msg) = cumulative_docs r
        /\ documents_of (handle_exception w r msg) = documents_of r).
Proof.
  split.
  { destruct (attempt_extends urlparse fromisoformat w company domain_tag policy r)
      as (added & ? & _ & ? & ?). by exists added. }
  split; [|done].
  intros fuel fuel' Hle earlier later.
  destruct (loop_grows urlparse fromisoformat w company domain_tag policy
              fuel fuel' r Hle) as (Hg & (Hv & Hl & _) & _).
  done.
Qed.

Lemma initial_run_logged policy st : logged (initial_run policy st).
Proof. split; [constructor | reflexivity]. Qed.

Lemma loop_cap fuel w company domain_tag policy r :
  cap (loop_of fuel w company domain_tag policy r).1 = cap r.
Proof.
  apply (loop_invariant urlparse fromisoformat w company domain_tag policy
           (fun r' => cap r' = cap r)); [|done].
  intros r' <-.
  by destruct (attempt_counter urlparse fromisoformat w company domain_tag policy r')
    as (_ & ? & _).
Qed.

(** C6. When the decision log of the run [execute] returns has an entry
    for the round whose number is [max_attempts] and the verdict of that
    round is a failure, the status is partial (and not degraded), no
    error is recorded, the counter stands at [max_attempts], and the
    [documents] key holds the cumulative list of the whole run: its
    length is the [count], the total of that last entry and the sum of
    the new-document counts of all rounds, and no round had a longer
    total. *)
Theorem exhausted_run_is_partial (policy : ThresholdProfile) (w : World)
  (st : State) (e : LogEntry) :
  let r := run_of policy w st in
  let wc := web_collection (state r) in
  e ∈ decision_log wc ->
  log_attempt e = max_attempts policy ->
  log_gate_passed e = false ->
  status wc = "partial"
  /\ status wc <> "degraded"
  /\ error wc = None
  /\ passed (gate wc) = false
  /\ attempts_current wc = max_attempts policy
  /\ documents_of r = cumulative_docs r
  /\ count wc = len (documents_of r)
  /\ log_total_docs e = len (documents_of r)
  /\ len (documents_of r) = sum_new_docs (decision_log wc)
  /\ Forall (fun e' => log_total_docs e' <= len (documents_of r)) (decision_log wc).
Proof.
  intros r wc He Hlast Hfailed. unfold wc, r in *. clear wc r.
  rewrite execute_with_loop in *.
  set (company := Py.strip (company_name st)) in *.
  set (domain_tag := Py.strip (domain st)) in *.
  pose proof (loop_exhausted urlparse fromisoformat w company domain_tag policy
                (Z.to_nat (max_attempts policy)) (initial_run policy st)
                (initial_run_logged policy st)) as Hloop.
  pose proof (loop_cap (Z.to_nat (max_attempts policy)) w company domain_tag policy
                (initial_run policy st)) as Hcap.
  change (cap (initial_run policy st)) with (max_attempts policy) in Hcap.
  destruct (loop_of _ w company domain_tag policy (initial_run policy st))
    as [r [msg|]]; cbn [fst snd] in *.
  - exfalso. rewrite Forall_forall in Hloop.
    specialize (Hloop e He). lia.
  - destruct (Hloop e He) as (Hs & Herr & Hp & Hcur & Hdocs & Hcount & Htotal & Hsum & Hall);
      [congruence | done |].
    assert (Hview : documents_of r = cumulative_docs r)
      by (unfold documents_of; by rewrite Hdocs).
    rewrite Hview. unfold cur in Hcur. repeat split; try done.
    + rewrite Hs. discriminate.
    + congruence.
Qed.

Lemma attempt_raised_log w company domain_tag policy r msg :
  (attempt_of w company domain_tag policy r).2 = Raised msg ->
  log (attempt_of w company domain_tag policy r).1 = log r.
Proof.
  destruct (attempt_shape urlparse fromisoformat w company domain_tag policy r)
    as [[? ->] | (queries & analyzed & added & cumulative & exn & _ & _ & _ & _ & ->)];
    [done|].
  destruct exn as [?|]; [done|]. cbn [fst snd]. intros Hflow.
  pose proof (completed_round urlparse w policy
                (next_attempt (web_collection (state r))) queries added cumulative)
    as [_ H].
  by rewrite Hflow in H.
Qed.

(** C7. When a round the loop reaches raises an exception with message
    [msg], [execute] returns what its handler makes of the state the
    round has left: the status is degraded, the error is [msg], the
    error list of the state has one more entry, with stage
    web_collection, the message, the time stamp of the handler,
    not recovered and of high impact on reliability.  The counter stands
    at the number of the round that raised, and the decision log is the
    one the rounds before it have written: no round follows. *)
Theorem exception_degrades_run (policy : ThresholdProfile) (w : World)
  (st : State) (r : Run) (msg : string) :
  let company := Py.strip (company_name st) in
  let domain_tag := Py.strip (domain st) in
  rounds urlparse fromisoformat w company domain_tag policy
    (initial_run policy st) r ->
  cur r < cap r ->
  (attempt_of w company domain_tag policy r).2 = Raised msg ->
  let final := run_of policy w st in
  let wc := web_collection (state final) in
  final = handle_exception w (attempt_of w company domain_tag policy r).1 msg
  /\ status wc = "degraded"
  /\ error wc = Some msg
  /\ errors (state final)
     = (errors st
        ++ [ {| stage := "web_collection"; error_message := msg;
                timestamp := now_isoformat w (cur r + 1); recovered := false;
                traceback := None; impact_on_reliability := "high" |} ])%list
  /\ attempts_current wc = cur r + 1
  /\ decision_log wc = log r
  /\ Forall (fun e => log_attempt e <= cur r) (decision_log wc).
Proof.
  intros company domain_tag Hrounds Hlt Hraise final wc.
  assert (Hfinal : final
                   = handle_exception w (attempt_of w company domain_tag policy r).1 msg).
  { unfold final. rewrite execute_with_loop. fold company domain_tag.
    pose proof (rounds_raise urlparse fromisoformat w company domain_tag policy
                  _ r msg Hrounds Hlt Hraise) as Hloop.
    change (cap (initial_run policy st) - cur (initial_run policy st))
      with (max_attempts policy - 0) in Hloop.
    rewrite Z.sub_0_r in Hloop. by rewrite Hloop. }
  destruct (attempt_counter urlparse fromisoformat w company domain_tag policy r)
    as (Hcur & _ & Herrors).
  destruct (rounds_errors urlparse fromisoformat w company domain_tag policy
              _ r Hrounds) as [Herr0 _].
  pose proof (attempt_raised_log w company domain_tag policy r msg Hraise) as Hlog.
  assert (Hlogged : logged r).
  { eapply rounds_logged; [exact Hrounds | apply initial_run_logged]. }
  split; [exact Hfinal|]. unfold wc. rewrite Hfinal.
  unfold handle_exception.
  cbn [state web_collection status error errors set_status set_error
       attempts_current decision_log].
  fold (cur (attempt_of w company domain_tag policy r).1).
  rewrite Herrors, Herr0, Hcur.
  repeat split; try done.
  destruct Hlogged as [Hall _]. fold (log (attempt_of w company domain_tag policy r).1).
  rewrite Hlog. eapply Forall_impl; [exact Hall|]. by intros e (? & _).
Qed.

End Execute.

(** ** Two runs *)

Definition acme : State :=
  {| company_name := " Acme "; domain := "ai"; errors := [];
     web_collection := initial_collection default_threshold_profile |}.

Definition stamp (n : Z) : string := "2024-07-01T12:00:0" ++ Py.str_of_Z n.

(** Round 1 finds two pages and a hit without a URL; round 2 finds one
    of the pages again, under another query string and in another case,
    and a new one.  Neither round satisfies the default profile. *)
Definition meagre_world : World :=
  {| utcnow_plan := fun _ => Sample.noon 2024 7 1;
     collect := fun n _ =>
       if n =? 1 then
         Ok [ Sample.doc "web_1" "https://acme.example/press" "primary" "company"
                (Some "2024-06-01");
              Sample.doc "web_2" "" "secondary" "news" None;
              Sample.doc "web_3" "https://news.example/acme" "secondary" "news"
                (Some "Mar 5, 2024") ]
       else
         Ok [ Sample.doc "web_4" "https://ACME.example/press?ref=home" "primary"
                "company" None;
              Sample.doc "web_5" "https://blog.example/acme" "secondary" "blog"
                (Some "January 5, 2024") ];
     utcnow_assess := fun _ _ => Sample.noon 2024 7 1;
     now_isoformat := stamp |}.

(** As above, but the page of round 2 carries a date with a UTC offset. *)
Definition aware_world : World :=
  {| utcnow_plan := fun _ => Sample.noon 2024 7 1;
     collect := fun n _ =>
       if n =? 1 then
         Ok [ Sample.doc "web_1" "https://acme.example/press" "primary" "company"
                (Some "2024-06-01") ]
       else
         Ok [ Sample.doc "web_2" "https://blog.example/acme" "secondary" "blog"
                (Some "2024-05-01T00:00:00+00:00") ];
     utcnow_assess := fun _ _ => Sample.noon 2024 7 1;
     now_isoformat := stamp |}.

Definition run_meagre : Run :=
  execute Sample.urlparse Sample.fromisoformat meagre_world acme.

Definition run_aware : Run :=
  execute Sample.urlparse Sample.fromisoformat aware_world acme.

Example run_meagre_ex :
  let wc := web_collection (state run_meagre) in
  status wc = "partial"
  /\ attempts_current wc = 2
  /\ url <$> documents_of run_meagre
     = ["https://acme.example/press"; "https://news.example/acme";
        "https://blog.example/acme"]
  /\ reliability <$> documents_of run_meagre = ["high"; "medium"; "medium"]
  /\ age_days <$> documents_of run_meagre = [30; 118; 9999]
  /\ missing_slots (gate wc) = ["diversity"; "docs_count"; "primary"; "recent"]
  /\ log_new_docs <$> decision_log wc = [2; 1]
  /\ length (log_queries <$> decision_log wc) = 2%nat.
Proof. vm_compute. repeat split. Qed.

Example run_aware_ex :
  let wc := web_collection (state run_aware) in
  status wc = "degraded"
  /\ error wc = Some "can't subtract offset-naive and offset-aware datetimes"
  /\ attempts_current wc = 2
  /\ count wc = 1
  /\ doc_id <$> documents_of run_aware = ["web_1"; "web_2"]
  /\ log_attempt <$> decision_log wc = [1].
Proof. vm_compute. repeat split. Qed.

Lemma exhausted_run_is_partial_witness :
  exists e,
    decision_log (web_collection (state run_meagre)) !! 1%nat = Some e
    /\ log_attempt e = 2 /\ log_gate_passed e = false
    /\ status (web_collection (state run_meagre)) = "partial"
    /\ len (documents_of run_meagre) = 3.
Proof.
  eexists. split; [vm_compute; reflexivity|].
  match goal with
  | |- log_attempt ?e = 2 /\ _ =>
      destruct (exhausted_run_is_partial Sample.urlparse Sample.fromisoformat
                  default_threshold_profile meagre_world acme e)
        as (Hstatus & _ & _ & _ & _ & _ & _ & Htotal & _)
  end.
  - apply list_elem_of_lookup. exists 1%nat. vm_compute. reflexivity.
  - reflexivity.
  - reflexivity.
  - split; [reflexivity|]. split; [reflexivity|].
    split; [exact Hstatus|]. unfold run_meagre, execute.
    rewrite <- Htotal. reflexivity.
Defined.

Lemma pair_snd {A B : Type} (p : A * B) (b : B) : p.2 = b -> p = (p.1, b).
Proof. destruct p. simpl. by intros ->. Qed.

Lemma exception_degrades_run_witness :
  status (web_collection (state run_aware)) = "degraded"
  /\ attempts_current (web_collection (state run_aware)) = 2
  /\ length (errors (state run_aware)) = 1%nat.
Proof.
  pose (r1 := (attempt Sample.urlparse Sample.fromisoformat aware_world "Acme" "ai"
                 default_threshold_profile
                 (initial_run default_threshold_profile acme)).1).
  destruct (exception_degrades_run Sample.urlparse Sample.fromisoformat
              default_threshold_profile aware_world acme r1
              "can't subtract offset-naive and offset-aware datetimes")
    as (_ & Hstatus & _ & Herrors & Hcur & _).
  - eapply rounds_next; [|apply pair_snd|apply rounds_here].
    + by vm_compute.
    + vm_compute. reflexivity.
  - by vm_compute.
  - vm_compute. reflexivity.
  - split; [exact Hstatus|]. split; [exact Hcur|].
    unfold run_aware, execute. by rewrite Herrors.
Defined.

(** ** The score arithmetic in binary64

    The scorer adds at most three of the doubles 0.2, 0.1 and -0.1 to
    0.5 and compares the sum with the doubles 0.7 and 0.4.  Here the
    same steps are taken in IEEE-754 binary64, with round-to-nearest-even,
    and compared with the exact arithmetic of [_calculate_reliability]. *)

Example binary64_ex :
  Binary64.nearest 1 10 = S754_finite false 7205759403792794 (-56)
  /\ Binary64.add (Binary64.nearest 7 10) (Binary64.nearest 1 10)
     <> Binary64.nearest 8 10
  /\ Binary64.round2 (Binary64.add (Binary64.nearest 7 10) (Binary64.nearest 1 10))
     = Binary64.nearest 8 10
  /\ Binary64.add (Binary64.nearest 5 10) (Binary64.nearest 2 10)
     = Binary64.nearest 7 10.
Proof. vm_compute. repeat split. discriminate. Qed.

(** On every document the binary64 run takes the branches of the exact
    one, and the score it returns is the double nearest to the exact
    score. *)
Lemma binary64_agrees (doc : Document) :
  let r := _calculate_reliability doc in
  Binary64.calculate_reliability doc
  = (r_reliability r, r_evidence_tier r, Binary64.of_Q (r_reliability_score r)).
Proof.
  unfold Binary64.calculate_reliability, Binary64.category_bonus.
  score_cases doc; vm_compute; reflexivity.
Qed.

(** The mean of the scores is taken in binary64 as well, and there the
    exact arithmetic gives another result.  Nineteen documents scored
    0.6 and one scored 0.5 have the exact mean 0.595, which rounds to
    0.6; the sum of the doubles divided by 20 is a double below 0.595,
    and the average of the statistics is 0.59, below the 0.6 the default
    profile asks for: the gate reports the reliability slot, although no
    document is of low reliability. *)
Definition scored_as (q : Q) : Document :=
  {| doc_id := "web"; url := "https://a.example/x"; title := ""; content := "";
     source_type := "secondary"; source_category := "news"; publisher := None;
     date := None; age_days := 9999; is_recent := false; reliability := "medium";
     reliability_score := q; reliability_reasons := []; evidence_tier := "tier2" |}.

Example average_binary64_ex :
  let corpus := (repeat (scored_as 0.6) 19 ++ [scored_as 0.5])%list in
  (get_average_reliability (_calculate_statistics corpus) == 0.59)%Q
  /\ (Py.round2 (11.9 / 20) == 0.6)%Q
  /\ (get_average_reliability (_calculate_statistics (repeat (scored_as 0.6) 3))
      == 0.6)%Q
  /\ low_reliability_count (_calculate_statistics corpus) = Some 0
  /\ (_evaluate_gate Sample.urlparse corpus (_calculate_statistics corpus)
        default_threshold_profile).1
     = (false, ["diversity"; "docs_count"; "primary"; "recent"; "reliability"]).
Proof. vm_compute. repeat split. Qed.


(** * Further properties of the engine *)

(** ** SearchDispatcher ([_run_tavily_queries]) *)

(** A raw hit of the search service, as far as the engine reads it. *)
Record Hit : Type := {
  hit_url : string;
  hit_title : string;
  hit_content : string;
  hit_raw_content : option string
}.

Definition DOMAIN_CAP_PER_HOST : Z := 15.

Section Dispatcher.

Variable urlparse : string -> option ParseResult.

(** [self.tavily.search(...)]: the first argument numbers the calls of one
    dispatch.  [Ok None] is a response without a [results] list. *)
Definition SearchService : Type :=
  nat -> string -> string -> Z -> bool -> result (option (list Hit)).

(** [_search_one]: a failed call counts as no results. *)
Definition _search_one (search : SearchService) (k : nat) (query depth : string)
  (max_results : Z) (include_raw : bool) : list Hit :=
  match search k query depth max_results include_raw with
  | Ok (Some results) => results
  | Ok None => []
  | Raise _ => []
  end.

(** One [for q in ...: all_results.extend(_search_one(q, ...))] loop,
    whose first call has number [k0]. *)
Definition search_pass (search : SearchService) (k0 : nat) (depth : string)
  (max_results : Z) (include_raw : bool) (queries : list string) : list Hit :=
  concat (imap (fun i q => _search_one search (k0 + i) q depth max_results include_raw)
            queries).

(** [all_results] before the cap: the shallow pass, and the deep pass on
    the first five queries when the shallow one found fewer than 100. *)
Definition merged_results (search : SearchService) (queries : list string)
  : list Hit :=
  let all_results := search_pass search 0 "basic" 5 false queries in
  if len all_results <? 100 then
    (all_results
     ++ search_pass search (length queries) "advanced" 8 true
          (take (Z.to_nat (Z.min 5 (len queries))) queries))%list
  else all_results.

(** The host a hit is counted under; a URL [urlparse] rejects counts
    under the empty host. *)
Definition hit_host (r : Hit) : string :=
  match urlparse (hit_url r) with
  | Some p => Py.lower (netloc p)
  | None => ""
  end.

(** The cap loop, with its two accumulators. *)
Fixpoint cap_hosts (all_results : list Hit) (per_host : gmap string Z)
  (capped : list Hit) : list Hit :=
  match all_results with
  | [] => capped
  | r :: rest =>
      let host := hit_host r in
      let cnt := default 0 (per_host !! host) in
      if cnt <? DOMAIN_CAP_PER_HOST
      then cap_hosts rest (<[host := cnt + 1]> per_host) (capped ++ [r])%list
      else cap_hosts rest per_host capped
  end.

(** [_run_tavily_queries] *)
Definition _run_tavily_queries (search : SearchService) (queries : list string)
  : list Hit :=
  cap_hosts (merged_results search queries) ∅ [].

(** The hits of a list that are counted under host [h]. *)
Definition of_host (h : string) (l : list Hit) : list Hit :=
  filter (fun r => hit_host r = h) l.

Lemma of_host_app h l l' : of_host h (l ++ l') = (of_host h l ++ of_host h l')%list.
Proof. apply filter_app. Qed.

Lemma of_host_cons h r l :
  of_host h (r :: l) = if decide (hit_host r = h) then r :: of_host h l else of_host h l.
Proof. unfold of_host. by rewrite filter_cons. Qed.

(** What the cap loop appends: a sublist of the input that has, for each
    host, the first hits of that host up to what the cap still allows. *)
Lemma cap_hosts_spec (all_results : list Hit) :
  forall (per_host : gmap string Z) (capped : list Hit),
  (forall h, default 0 (per_host !! h) = len (of_host h capped)) ->
  exists kept,
    cap_hosts all_results per_host capped = (capped ++ kept)%list
    /\ sublist kept all_results
    /\ forall h, of_host h kept
                 = take (Z.to_nat (DOMAIN_CAP_PER_HOST - len (of_host h capped)))
                     (of_host h all_results).
Proof.
  induction all_results as [|r rest IH]; intros per_host capped Hper; simpl.
  - exists []. rewrite app_nil_r. repeat split; [done|]. intros h.
    by destruct (Z.to_nat _).
  - rewrite (Hper (hit_host r)).
    destruct (Z.ltb_spec (len (of_host (hit_host r) capped)) DOMAIN_CAP_PER_HOST)
      as [Hlt | Hge].
    + destruct (IH (<[hit_host r := len (of_host (hit_host r) capped) + 1]> per_host)
                  (capped ++ [r])%list) as (kept & -> & Hsub & Hkept).
      { intros h. rewrite of_host_app, of_host_cons. unfold len. rewrite length_app.
        destruct (decide (hit_host r = h)) as [<- | Hne].
        - rewrite lookup_insert_eq. simpl. unfold len. lia.
        - rewrite lookup_insert_ne by done. rewrite Hper. simpl. unfold len. lia. }
      exists (r :: kept). rewrite <- app_assoc. split; [done|].
      split; [by constructor|]. intros h. specialize (Hkept h).
      rewrite of_host_app, !of_host_cons in *. unfold len in *.
      rewrite length_app in Hkept.
      destruct (decide (hit_host r = h)) as [<- | Hne]; simpl in Hkept.
      * rewrite Hkept.
        replace (Z.to_nat (DOMAIN_CAP_PER_HOST
                           - Z.of_nat (length (of_host (hit_host r) capped))))
          with (S (Z.to_nat (DOMAIN_CAP_PER_HOST
                             - Z.of_nat (length (of_host (hit_host r) capped) + 1))))
          by (unfold len in Hlt; lia).
        done.
      * rewrite Hkept. by rewrite Nat.add_0_r.
    + destruct (IH per_host capped Hper) as (kept & -> & Hsub & Hkept).
      exists kept. split; [done|]. split; [by constructor|]. intros h.
      rewrite Hkept, of_host_cons.
      destruct (decide (hit_host r = h)) as [<- | Hne]; [|done].
      replace (Z.to_nat (DOMAIN_CAP_PER_HOST - len (of_host (hit_host r) capped)))
        with 0%nat by lia. done.
Qed.

(** X1. [_run_tavily_queries] returns, in the order of discovery, exactly
    the first 15 hits of every host among the merged search results: the
    output is a sublist of the merged list, and its hits of a host are the
    first 15 of that host.  No host, the empty one of hits without a
    usable URL included, has more than 15 hits in the output. *)
Theorem run_queries_caps_hosts (search : SearchService) (queries : list string)
  (h : string) :
  sublist (_run_tavily_queries search queries) (merged_results search queries)
  /\ of_host h (_run_tavily_queries search queries)
     = take 15 (of_host h (merged_results search queries))
  /\ (length (of_host h (_run_tavily_queries search queries)) <= 15)%nat.
Proof.
  unfold _run_tavily_queries.
  destruct (cap_hosts_spec (merged_results search queries) ∅ [])
    as (kept & -> & Hsub & Hkept); [done|].
  rewrite app_nil_l. split; [done|].
  assert (H : of_host h kept = take 15 (of_host h (merged_results search queries)))
    by apply Hkept.
  split; [done|]. rewrite H, length_take. lia.
Qed.

Lemma search_pass_ext (search search' : SearchService) k0 depth max_results
  include_raw (queries : list string) :
  (forall i q, queries !! i = Some q ->
     search (k0 + i)%nat q depth max_results include_raw
     = search' (k0 + i)%nat q depth max_results include_raw) ->
  search_pass search k0 depth max_results include_raw queries
  = search_pass search' k0 depth max_results include_raw queries.
Proof.
  intros H. unfold search_pass. f_equal. apply imap_ext.
  intros i q Hq. unfold _search_one. by rewrite (H i q Hq).
Qed.

(** X2. The dispatcher asks the service once, in shallow mode, for every
    query, and after that in deep mode for at most the first five
    queries; its result depends on no other answer.  Two services that
    agree on these calls give the same result. *)
Theorem run_queries_calls (search search' : SearchService)
  (queries : list string) :
  (forall i q, queries !! i = Some q ->
     search i q "basic" 5 false = search' i q "basic" 5 false) ->
  (forall i q, (i < 5)%nat -> queries !! i = Some q ->
     search (length queries + i)%nat q "advanced" 8 true
     = search' (length queries + i)%nat q "advanced" 8 true) ->
  _run_tavily_queries search queries = _run_tavily_queries search' queries.
Proof.
  intros Hbasic Hdeep. unfold _run_tavily_queries, merged_results.
  rewrite (search_pass_ext search search' 0 "basic" 5 false queries Hbasic).
  destruct (len (search_pass search' 0 "basic" 5 false queries) <? 100); [|done].
  do 2 f_equal. apply search_pass_ext. intros i q Hq.
  apply lookup_take_Some in Hq as [Hq Hi]. apply Hdeep; [lia | done].
Qed.

Lemma elem_of_concat {A : Type} (x : A) (ls : list (list A)) :
  x ∈ concat ls <-> exists l, x ∈ l /\ l ∈ ls.
Proof.
  rewrite list_elem_of_In, in_concat. split.
  - intros (l & Hl & Hx). exists l. by rewrite !list_elem_of_In.
  - intros (l & Hx & Hl). exists l. by rewrite <- !list_elem_of_In.
Qed.

Lemma search_pass_origin (search : SearchService) k0 depth max_results include_raw
  (queries : list string) (r : Hit) :
  r ∈ search_pass search k0 depth max_results include_raw queries ->
  exists i q results,
    queries !! i = Some q
    /\ search (k0 + i)%nat q depth max_results include_raw = Ok (Some results)
    /\ r ∈ results.
Proof.
  unfold search_pass. intros Hr. apply elem_of_concat in Hr as (l & Hr & Hl).
  apply elem_of_lookup_imap_1 in Hl as (i & q & -> & Hq).
  unfold _search_one in Hr.
  destruct (search (k0 + i)%nat q depth max_results include_raw)
    as [[results|]|msg] eqn:Hs; [|by apply elem_of_nil in Hr..].
  by exists i, q, results.
Qed.

(** X3. Every hit the dispatcher returns stands in the result list of
    an answer the service gave to one of the planned queries; a call that
    raised, or an answer without results, contributes nothing.  When all
    calls fail the result is empty. *)
Theorem run_queries_origin (search : SearchService) (queries : list string) :
  (forall r, r ∈ _run_tavily_queries search queries ->
     exists k q depth max_results include_raw results,
       q ∈ queries
       /\ search k q depth max_results include_raw = Ok (Some results)
       /\ r ∈ results)
  /\ ((forall k q depth max_results include_raw,
         search k q depth max_results include_raw <> Ok None ->
         exists msg, search k q depth max_results include_raw = Raise msg) ->
      _run_tavily_queries search queries = []).
Proof.
  split.
  - intros r Hr.
    unfold _run_tavily_queries in Hr.
    destruct (cap_hosts_spec (merged_results search queries) ∅ [])
      as (kept & Hkept & Hsub & _); [done|].
    rewrite Hkept, app_nil_l in Hr.
    apply (fun H => elem_of_sublist _ _ r H Hsub) in Hr.
    unfold merged_results in Hr.
    assert (Hpass : forall k0 depth max_results include_raw qs,
               qs ⊆ queries ->
               r ∈ search_pass search k0 depth max_results include_raw qs ->
               exists k q depth max_results include_raw results,
                 q ∈ queries
                 /\ search k q depth max_results include_raw = Ok (Some results)
                 /\ r ∈ results).
    { intros k0 depth max_results include_raw qs Hqs Hin.
      apply search_pass_origin in Hin as (i & q & results & Hq & Hs & Hres).
      exists (k0 + i)%nat, q, depth, max_results, include_raw, results.
      split; [|done]. apply Hqs. by eapply list_elem_of_lookup_2. }
    destruct (len (search_pass search 0 "basic" 5 false queries) <? 100).
    + apply elem_of_app in Hr as [Hr | Hr].
      * by eapply Hpass.
      * eapply Hpass; [|exact Hr]. intros q Hq.
        apply elem_of_take in Hq as (i & Hq & _). by eapply list_elem_of_lookup_2.
    + by eapply Hpass.
  - intros Hfail.
    assert (Hempty : forall k0 depth max_results include_raw qs,
               search_pass search k0 depth max_results include_raw qs = []).
    { intros k0 depth max_results include_raw qs. unfold search_pass.
      revert k0. induction qs as [|q qs IH]; intros k0; [done|].
      rewrite imap_cons. simpl. unfold _search_one at 1.
      destruct (search (k0 + 0)%nat q depth max_results include_raw)
        as [[results|]|msg] eqn:Hs.
      - destruct (Hfail (k0 + 0)%nat q depth max_results include_raw) as [msg Hm];
          congruence.
      - simpl. rewrite <- (IH (S k0)). f_equal. apply imap_ext.
        intros i x _. simpl. f_equal. lia.
      - simpl. rewrite <- (IH (S k0)). f_equal. apply imap_ext.
        intros i x _. simpl. f_equal. lia. }
    unfold _run_tavily_queries, merged_results. rewrite !Hempty. reflexivity.
Qed.

End Dispatcher.

(** A service that answers shallow calls with three hits of one host and
    fails on deep calls, and one that differs from it on later calls. *)
Definition flaky_search : SearchService := fun k q depth _ _ =>
  if String.eqb depth "basic" then
    Ok (Some [ {| hit_url := "https://a.example/" ++ q; hit_title := q;
                  hit_content := ""; hit_raw_content := None |};
               {| hit_url := "https://A.example/2"; hit_title := q;
                  hit_content := ""; hit_raw_content := None |};
               {| hit_url := ""; hit_title := q;
                  hit_content := ""; hit_raw_content := None |} ])
  else Raise "timeout".

Definition flaky_search' : SearchService := fun k q depth max_results raw =>
  if (100 <=? k)%nat then Ok None else flaky_search k q depth max_results raw.

Example run_queries_ex :
  length (_run_tavily_queries Sample.urlparse flaky_search
            (baseline "Acme" "ai")) = 25%nat
  /\ length (of_host Sample.urlparse "a.example"
               (_run_tavily_queries Sample.urlparse flaky_search
                  (baseline "Acme" "ai"))) = 15%nat
  /\ length (of_host Sample.urlparse ""
               (_run_tavily_queries Sample.urlparse flaky_search
                  (baseline "Acme" "ai"))) = 10%nat.
Proof. vm_compute. repeat split. Qed.

Lemma run_queries_calls_witness :
  _run_tavily_queries Sample.urlparse flaky_search (baseline "Acme" "ai")
  = _run_tavily_queries Sample.urlparse flaky_search' (baseline "Acme" "ai").
Proof.
  apply (run_queries_calls Sample.urlparse flaky_search flaky_search'
           (baseline "Acme" "ai")).
  - intros i q Hq. apply lookup_lt_Some in Hq. simpl in Hq.
    unfold flaky_search'. destruct (Nat.leb_spec 100 i); [lia | reflexivity].
  - intros i q Hi Hq. unfold flaky_search'. simpl length.
    destruct (Nat.leb_spec 100 (10 + i)); [lia | reflexivity].
Defined.

(** ** StatsAggregator, continued *)

(** The number of documents with a property. *)
Definition tally (P : Document -> Prop) `{!forall d, Decision (P d)}
  (documents : list Document) : Z :=
  len (filter P documents).

Lemma tally_snoc (P : Document -> Prop) `{!forall d, Decision (P d)} l d :
  tally P (l ++ [d]) = tally P l + (if decide (P d) then 1 else 0).
Proof.
  unfold tally, len. rewrite filter_app, length_app, filter_cons, filter_nil.
  destruct (decide (P d)); simpl; lia.
Qed.

Lemma tally_bounds (P : Document -> Prop) `{!forall d, Decision (P d)} l :
  0 <= tally P l <= len l.
Proof. unfold tally, len. pose proof (length_filter P l). lia. Qed.

(** The sum of the counts of a breakdown. *)
Definition total_of (m : gmap string Z) : Z :=
  map_fold (fun _ v acc => v + acc) 0 m.

Lemma total_of_insert (m : gmap string Z) c v :
  m !! c = None -> total_of (<[c := v]> m) = v + total_of m.
Proof.
  intros H. unfold total_of. rewrite map_fold_insert_L; [done | | done].
  intros. lia.
Qed.

Lemma total_of_bump (m : gmap string Z) c :
  total_of (<[c := default 0 (m !! c) + 1]> m) = total_of m + 1.
Proof.
  destruct (m !! c) as [v|] eqn:Hc; simpl.
  - rewrite <- (insert_delete_id m c v Hc) at 2.
    rewrite <- insert_delete_eq.
    rewrite !total_of_insert by apply lookup_delete_eq. lia.
  - rewrite total_of_insert by done. lia.
Qed.

Lemma eqb_decide {A : Type} (s t : string) (a b : A) :
  (if String.eqb s t then a else b) = (if decide (s = t) then a else b).
Proof. destruct (String.eqb_spec s t); by case_decide. Qed.

(** What the counting loop has established after the documents [seen]. *)
Definition tallied (seen : list Document) (st : Stats) : Prop :=
  exists m,
    sources_breakdown st = Some m
    /\ (forall c, default 0 (m !! c) = tally (fun d => source_category d = c) seen)
    /\ map_Forall (fun _ v => 0 < v) m
    /\ total_of m = len seen
    /\ primary_sources_count st
       = Some (tally (fun d => source_type d = "primary") seen)
    /\ secondary_sources_count st
       = tally (fun d => source_type d <> "primary") seen
    /\ recent_documents_count st = Some (tally (fun d => is_recent d = true) seen)
    /\ high_reliability_count st = tally (fun d => reliability d = "high") seen
    /\ medium_reliability_count st = tally (fun d => reliability d = "medium") seen
    /\ low_reliability_count st
       = Some (tally (fun d => reliability d <> "high" /\ reliability d <> "medium")
                 seen).

Lemma initial_stats_tallied : tallied [] initial_stats.
Proof.
  exists ∅. by repeat split.
Qed.

Lemma count_document_tallied seen st d :
  tallied seen st -> tallied (seen ++ [d]) (count_document st d).
Proof.
  intros (m & Hm & Hcount & Hpos & Htotal & Hp & Hs & Hr & Hh & Hmed & Hl).
  exists (<[source_category d := default 0 (m !! source_category d) + 1]> m).
  unfold count_document. cbn [sources_breakdown primary_sources_count
    secondary_sources_count recent_documents_count high_reliability_count
    medium_reliability_count low_reliability_count].
  rewrite Hm, Hp, Hr, Hl, Hs, Hh, Hmed, !tally_snoc. cbn [fmap option_fmap option_map].
  split; [done|]. split.
  { intros c. destruct (decide (source_category d = c)) as [<- | Hne].
    - rewrite lookup_insert_eq, tally_snoc, decide_True by done.
      simpl. by rewrite Hcount.
    - rewrite lookup_insert_ne, tally_snoc, decide_False by done.
      rewrite Hcount. lia. }
  split.
  { apply map_Forall_insert_2; [|done]. rewrite Hcount.
    pose proof (tally_bounds (fun d0 => source_category d0 = source_category d) seen).
    lia. }
  split; [rewrite total_of_bump, Htotal; unfold len; rewrite length_app; simpl; lia|].
  destruct (String.eqb_spec (reliability d) "high"),
    (String.eqb_spec (reliability d) "medium"); cbn [orb];
    repeat split; rewrite ?eqb_decide;
    try (destruct (is_recent d));
    repeat case_decide; simpl; destruct_and?;
    first [ congruence | tauto | lia | (f_equal; lia) ].
Qed.

Lemma fold_count_tallied (documents seen : list Document) (st : Stats) :
  tallied seen st ->
  tallied (seen ++ documents) (fold_left count_document documents st).
Proof.
  revert seen st. induction documents as [|d documents IH]; intros seen st H; simpl.
  - by rewrite app_nil_r.
  - rewrite (cons_middle d seen documents), app_assoc.
    apply IH. by apply count_document_tallied.
Qed.

Lemma statistics_tallied (documents : list Document) :
  tallied documents (_calculate_statistics documents).
Proof.
  destruct documents as [|d documents]; [apply initial_stats_tallied|].
  pose proof (fold_count_tallied (d :: documents) [] initial_stats
                initial_stats_tallied) as H.
  rewrite app_nil_l in H. unfold _calculate_statistics.
  destruct H as (m & ? & ? & ? & ? & ? & ? & ? & ? & ? & ?).
  exists m. by repeat split.
Qed.

(** X4. The counters of [_calculate_statistics] count what their names
    say: primary and secondary sources by [source_type], recent
    documents, and the three reliability labels, where low takes every
    label that is neither high nor medium; the breakdown has, for every
    category, the number of its documents.  So primary and secondary add
    up to the number of documents, as do the three reliability counters
    and the counts of the breakdown. *)
Theorem statistics_counts (documents : list Document) :
  let st := _calculate_statistics documents in
  get_primary_sources_count st = tally (fun d => source_type d = "primary") documents
  /\ get_recent_documents_count st = tally (fun d => is_recent d = true) documents
  /\ high_reliability_count st = tally (fun d => reliability d = "high") documents
  /\ medium_reliability_count st = tally (fun d => reliability d = "medium") documents
  /\ (forall c, default 0 (get_sources_breakdown st !! c)
                = tally (fun d => source_category d = c) documents)
  /\ get_primary_sources_count st + secondary_sources_count st = len documents
  /\ high_reliability_count st + medium_reliability_count st
     + get_low_reliability_count st = len documents
  /\ total_of (get_sources_breakdown st) = len documents
  /\ 0 <= get_recent_documents_count st <= len documents.
Proof.
  intros st.
  destruct (statistics_tallied documents)
    as (m & Hm & Hcount & Hpos & Htotal & Hp & Hs & Hr & Hh & Hmed & Hl).
  fold st in Hm, Hp, Hs, Hr, Hh, Hmed, Hl.
  unfold get_primary_sources_count, get_recent_documents_count,
    get_sources_breakdown, get_low_reliability_count.
  rewrite Hm, Hp, Hr, Hl, Hs, Hh, Hmed. cbn [default].
  repeat split; try done.
  - clear. unfold tally, len. induction documents as [|d l IH]; [done|].
    rewrite !filter_cons. repeat case_decide; simpl in *; try tauto; lia.
  - clear. unfold tally, len. induction documents as [|d l IH]; [done|].
    rewrite !filter_cons.
    repeat case_decide; simpl in *; try tauto; try congruence; try lia.
    all: destruct_and?; try congruence; try tauto.
  - apply tally_bounds.
  - apply tally_bounds.
Qed.

Lemma tally_pos (P : Document -> Prop) `{!forall d, Decision (P d)} l :
  0 < tally P l <-> exists d, d ∈ l /\ P d.
Proof.
  unfold tally, len. split.
  - intros Hlt. destruct (filter P l) as [|d l'] eqn:E; [simpl in Hlt; lia|].
    assert (Hd : d ∈ filter P l) by (rewrite E; left).
    apply list_elem_of_filter in Hd as [? ?]. by exists d.
  - intros (d & Hd & HP).
    assert (Hin : d ∈ filter P l) by (by apply list_elem_of_filter).
    destruct (filter P l); [by apply elem_of_nil in Hin | simpl; lia].
Qed.

Lemma statistics_categories (documents : list Document) :
  let st := _calculate_statistics documents in
  map_Forall (fun _ v => 0 < v) (get_sources_breakdown st)
  /\ dom (get_sources_breakdown st) = list_to_set (source_category <$> documents)
  /\ category_div st
     = Z.of_nat (size (list_to_set (source_category <$> documents) : gset string)).
Proof.
  intros st.
  destruct (statistics_tallied documents) as (m & Hm & Hcount & Hpos & _).
  fold st in Hm. unfold category_div, get_sources_breakdown. rewrite Hm.
  cbn [default].
  assert (Hdom : dom m = (list_to_set (source_category <$> documents) : gset string)).
  { apply set_eq. intros c.
    rewrite elem_of_dom, elem_of_list_to_set, list_elem_of_fmap. split.
    - intros [v Hv]. specialize (Hcount c). rewrite Hv in Hcount. simpl in Hcount.
      pose proof (Hpos c v Hv) as Hv'. simpl in Hv'. rewrite Hcount in Hv'.
      apply tally_pos in Hv' as (d & Hd & Hc). by exists d.
    - intros (d & -> & Hd).
      assert (Hlt : 0 < tally (fun d0 => source_category d0 = source_category d)
                          documents) by (apply tally_pos; by exists d).
      rewrite <- Hcount in Hlt.
      destruct (m !! source_category d) as [v|]; [by exists v|].
      simpl in Hlt. lia. }
  split; [done|]. split; [done|].
  rewrite map_filter_id by (intros c v Hv; exact (Hpos c v Hv)).
  rewrite <- Hdom, size_dom. done.
Qed.

(** X5. Every category in the breakdown has a positive count, so the
    filter of the category-diversity check of the gate removes nothing:
    the diversity the gate compares with [category_diversity_min] is the
    number of distinct categories of the documents, which is also the
    size of the [sources] set [execute] stores. *)
Theorem category_diversity_counts_categories (documents : list Document)
  (wc : WebCollection) (g : Gate) :
  let st := _calculate_statistics documents in
  map_Forall (fun _ v => 0 < v) (get_sources_breakdown st)
  /\ dom (get_sources_breakdown st) = list_to_set (source_category <$> documents)
  /\ category_div st
     = Z.of_nat (size (list_to_set (source_category <$> documents) : gset string))
  /\ category_div st = Z.of_nat (size (sources (update_collection wc documents st g))).
Proof.
  intros st. destruct (statistics_categories documents) as (Hpos & Hdom & Hdiv).
  fold st in Hpos, Hdom, Hdiv. done.
Qed.

(** ** The outcome of a run *)

Section Outcome.

Variable urlparse : string -> option ParseResult.
Variable fromisoformat : string -> option datetime.
Variable w : World.
Variables company domain_tag : string.
Variable policy : ThresholdProfile.

Local Abbreviation attempt_of :=
  (attempt urlparse fromisoformat w company domain_tag policy).
Local Abbreviation loop_of fuel :=
  (attempts_loop urlparse fromisoformat fuel w company domain_tag policy).
Local Abbreviation verdict_of docs :=
  (_evaluate_gate urlparse docs (_calculate_statistics docs) policy).
Local Abbreviation collection_of r := (web_collection (state r)).

(** The summary keys of the collection describe the cumulative list. *)
Definition summarised (r : Run) : Prop :=
  documents_of r = cumulative_docs r
  /\ count (collection_of r) = len (cumulative_docs r)
  /\ sources (collection_of r)
     = list_to_set (source_category <$> cumulative_docs r)
  /\ stats (collection_of r) = _calculate_statistics (cumulative_docs r).

(** The entries of rounds whose verdict was a failure, numbered from 1. *)
Definition failed_rounds (l : list LogEntry) : Prop :=
  log_attempt <$> l = seqZ 1 (len l)
  /\ Forall (fun e => log_gate_passed e = false /\ log_missing_slots e <> []
                      /\ log_missing_slots e ⊆ slot_names) l.

(** The queries of the log: the baseline in the first entry, and in a
    later one the baseline followed by the targeted queries of the slots
    the entry before it reports missing. *)
Definition planned (l : list LogEntry) : Prop :=
  (forall e, l !! 0%nat = Some e -> log_queries e = baseline company domain_tag)
  /\ (forall i e' e, l !! i = Some e' -> l !! S i = Some e ->
        log_missing_slots e' <> []
        /\ exists cut,
             Datetime.minus_days_isoformat (utcnow_plan w (log_attempt e))
               (recent_window_days policy) = Ok cut
             /\ log_queries e
                = (baseline company domain_tag
                   ++ targeted cut company domain_tag (log_missing_slots e'))%list).

(** The state at the head of the loop. *)
Definition at_head (r : Run) : Prop :=
  status (collection_of r) = "insufficient"
  /\ error (collection_of r) = None
  /\ passed (gate (collection_of r)) = false
  /\ threshold_profile (collection_of r) = policy
  /\ cur r = len (log r)
  /\ failed_rounds (log r)
  /\ planned (log r)
  /\ missing_slots (gate (collection_of r))
     = default [] (log_missing_slots <$> last (log r))
  /\ summarised r.

(** The ways the loop ends: its condition is false on entry; a round
    leaves it with a verdict; a round raises. *)
Inductive Ended (r0 : Run) : Run * option string -> Prop :=
| ended_unentered : cap r0 <= cur r0 -> Ended r0 (r0, None)
| ended_break (r : Run) (l : list LogEntry) (e : LogEntry) :
    log r = (l ++ [e])%list ->
    failed_rounds l ->
    planned (log r) ->
    log_attempt e = cur r ->
    cur r = len (log r) ->
    cur r <= cap r ->
    gate (collection_of r)
    = {| passed := log_gate_passed e; missing_slots := log_missing_slots e;
         reasons := log_reasons e |} ->
    verdict_of (cumulative_docs r)
    = (log_gate_passed e, log_missing_slots e, log_reasons e) ->
    error (collection_of r) = None ->
    summarised r ->
    (log_gate_passed e = true /\ status (collection_of r) = "completed"
     \/ log_gate_passed e = false /\ status (collection_of r) = "partial"
        /\ cur r = cap r) ->
    Ended r0 (r, None)
| ended_raise (r : Run) (msg : string) :
    status (collection_of r) = "insufficient" ->
    error (collection_of r) = None ->
    passed (gate (collection_of r)) = false ->
    cur r = len (log r) + 1 ->
    cur r <= cap r ->
    failed_rounds (log r) ->
    planned (log r) ->
    count (collection_of r) <= len (documents_of r) ->
    Ended r0 (r, Some msg).

(** A round, case by case, with the planned queries and the answer of
    the services in view. *)
Lemma attempt_cases (r : Run) :
  let wc := next_attempt (web_collection (state r)) in
  let entered := set_web_collection (state r) wc in
  let early msg :=
    ({| state := entered; cumulative_docs := cumulative_docs r;
        seen_urls := seen_urls r |}, Raised msg) in
  match _build_queries (utcnow_plan w (attempts_current wc)) company domain_tag
          entered with
  | Raise msg => attempt_of r = early msg
  | Ok queries =>
      match collect w (attempts_current wc) queries with
      | Raise msg => attempt_of r = early msg
      | Ok analyzed =>
          exists added cumulative exn seen,
            doc_key <$> cumulative = doc_key <$> (cumulative_docs r ++ added)%list
            /\ attempt_of r
               = match exn with
                 | Some msg =>
                     ({| state := entered; cumulative_docs := cumulative;
                         seen_urls := seen |}, Raised msg)
                 | None =>
                     ({| state :=
                           set_web_collection (state r)
                             (completed_collection urlparse w policy wc queries
                                added cumulative);
                         cumulative_docs := cumulative; seen_urls := seen |},
                      completed_flow urlparse policy wc cumulative)
                 end
      end
  end.
Proof.
  intros wc entered early. unfold attempt. fold wc. fold entered.
  cbn [state cumulative_docs seen_urls].
  destruct (_build_queries _ company domain_tag entered) as [queries | msg];
    [|done].
  destruct (collect w (attempts_current wc) queries) as [analyzed | msg];
    [|done].
  destruct (dedup_merge urlparse analyzed (seen_urls r) []) as [seen added].
  pose proof (assess_keys fromisoformat (utcnow_assess w (attempts_current wc))
                (cumulative_docs r ++ added)%list) as Hkeys.
  destruct (_assess_reliability fromisoformat (utcnow_assess w (attempts_current wc))
              (cumulative_docs r ++ added)%list) as [cumulative exn].
  exists added, cumulative, exn, seen. split; [exact Hkeys|].
  destruct exn as [msg|]; [done|].
  unfold completed_collection, completed_flow, round_entry.
  destruct (_evaluate_gate urlparse cumulative (_calculate_statistics cumulative) policy)
    as [[gate_passed missing] rs].
  cbn [fst snd]. destruct gate_passed; [done|].
  cbn [attempts_max log_decision update_collection].
  by destruct (attempts_max wc <=? attempts_current wc).
Qed.

Lemma completed_collection_fields wc queries added cumulative :
  let wc' := completed_collection urlparse w policy wc queries added cumulative in
  let e := round_entry urlparse w policy wc queries added cumulative in
  gate wc'
  = {| passed := log_gate_passed e; missing_slots := log_missing_slots e;
       reasons := log_reasons e |}
  /\ verdict_of cumulative = (log_gate_passed e, log_missing_slots e, log_reasons e)
  /\ stats wc' = _calculate_statistics cumulative
  /\ sources wc' = list_to_set (source_category <$> cumulative)
  /\ log_attempt e = attempts_current wc
  /\ log_queries e = queries.
Proof.
  unfold completed_collection, round_entry.
  cbn [log_gate_passed log_missing_slots log_reasons log_attempt log_queries].
  destruct (verdict_of cumulative) as [[gate_passed missing] rs]. cbn [fst snd].
  destruct gate_passed; [done|].
  by destruct (attempts_max wc <=? attempts_current wc).
Qed.

(** A failed verdict names a slot. *)
Lemma failed_verdict_missing (documents : list Document) (st : Stats) :
  (_evaluate_gate urlparse documents st policy).1.1 = false ->
  (_evaluate_gate urlparse documents st policy).1.2 <> [].
Proof.
  rewrite evaluate_gate_unfold. unfold failures. cbn [fst snd].
  intros Hfailed Hnil. rewrite sorted_set_nil in Hnil.
  rewrite <- slots_of_nil in Hnil. congruence.
Qed.

Lemma verdict_missing_names (documents : list Document) (st : Stats) :
  (_evaluate_gate urlparse documents st policy).1.2 ⊆ slot_names.
Proof.
  rewrite evaluate_gate_unfold. unfold failures. cbn [fst snd].
  intros s Hs. rewrite elem_of_sorted_set in Hs.
  match type of Hs with
  | s ∈ slots_of [?f1; ?f2; ?f3; ?f4; ?f5; ?f6; ?f7] =>
      pose proof (slots_of_names f1 f2 f3 f4 f5 f6 f7) as Hnames
  end.
  rewrite forallb_forall in Hnames. apply contains_elem_of, Hnames.
  by apply list_elem_of_In.
Qed.

Lemma failed_rounds_snoc (l : list LogEntry) (e : LogEntry) :
  failed_rounds l -> log_attempt e = len l + 1 ->
  log_gate_passed e = false -> log_missing_slots e <> [] ->
  log_missing_slots e ⊆ slot_names ->
  failed_rounds (l ++ [e]).
Proof.
  intros [Hnum Hall] Hn Hfailed Hmissing Hnames. split.
  - rewrite fmap_app, Hnum. unfold len. rewrite length_app. simpl length.
    rewrite Nat.add_1_r, seqZ_S. simpl. f_equal. f_equal. unfold len in Hn. lia.
  - apply Forall_app. split; [done|]. constructor; [done | constructor].
Qed.

Lemma planned_snoc (l : list LogEntry) (e : LogEntry) :
  planned l ->
  match last l with
  | None => log_queries e = baseline company domain_tag
  | Some e' =>
      log_missing_slots e' <> []
      /\ exists cut,
           Datetime.minus_days_isoformat (utcnow_plan w (log_attempt e))
             (recent_window_days policy) = Ok cut
           /\ log_queries e
              = (baseline company domain_tag
                 ++ targeted cut company domain_tag (log_missing_slots e'))%list
  end ->
  planned (l ++ [e]).
Proof.
  intros [Hfirst Hnext] Hlast. split.
  - intros e0 He0. destruct l as [|x l].
    + simpl in He0. injection He0 as <-. exact Hlast.
    + simpl in He0. apply Hfirst. exact He0.
  - intros i e' e0 He' He0.
    apply lookup_app_Some in He0 as [He0 | [Hlen He0]].
    + apply (Hnext i); [|done].
      apply lookup_app_Some in He' as [He' | [Hlen' _]]; [done|].
      apply lookup_lt_Some in He0. lia.
    + apply list_lookup_singleton_Some in He0 as [Hi <-].
      assert (Hi' : S i = length l) by lia.
      apply lookup_app_Some in He' as [He' | [Hlen' _]]; [|lia].
      assert (Hl : last l = Some e').
      { rewrite last_lookup. rewrite <- Hi'. exact He'. }
      rewrite Hl in Hlast. exact Hlast.
Qed.

(** What the planner returns at the head of the loop. *)
Lemma head_queries (r : Run) (queries : list string) :
  at_head r ->
  let wc := next_attempt (web_collection (state r)) in
  _build_queries (utcnow_plan w (attempts_current wc)) company domain_tag
    (set_web_collection (state r) wc) = Ok queries ->
  match last (log r) with
  | None => queries = baseline company domain_tag
  | Some e' =>
      log_missing_slots e' <> []
      /\ exists cut,
           Datetime.minus_days_isoformat (utcnow_plan w (cur r + 1))
             (recent_window_days policy) = Ok cut
           /\ queries
              = (baseline company domain_tag
                 ++ targeted cut company domain_tag (log_missing_slots e'))%list
  end.
Proof.
  intros (_ & _ & _ & Hprofile & Hcur & (_ & Hfailed) & _ & Hmissing & _) wc Hq.
  subst wc.
  destruct (last (log r)) as [e'|] eqn:Hlast.
  - assert (He' : e' ∈ log r).
    { rewrite last_lookup in Hlast. by eapply list_elem_of_lookup_2. }
    rewrite Forall_forall in Hfailed. destruct (Hfailed e' He') as (_ & Hne & _).
    split; [done|]. simpl in Hmissing.
    assert (Hlen : 0 < len (log r)).
    { unfold len. destruct (log r); [by apply elem_of_nil in He' | simpl; lia]. }
    destruct (Datetime.minus_days_isoformat (utcnow_plan w (cur r + 1))
                (recent_window_days policy)) as [cut | msg] eqn:Hcut.
    + exists cut. split; [done|].
      rewrite build_queries_targeted with (cut := cut) in Hq.
      * injection Hq as <-.
        cbn [web_collection set_web_collection gate next_attempt].
        fold (collection_of r). by rewrite Hmissing.
      * cbn [web_collection set_web_collection attempts_current next_attempt].
        fold (cur r). lia.
      * cbn [web_collection set_web_collection gate next_attempt].
        fold (collection_of r). by rewrite Hmissing.
      * cbn [web_collection set_web_collection threshold_profile next_attempt
               attempts_current].
        fold (collection_of r). rewrite Hprofile. exact Hcut.
    + exfalso. revert Hq. unfold _build_queries.
      cbn [web_collection set_web_collection threshold_profile next_attempt
             attempts_current gate].
      fold (collection_of r) (cur r). rewrite Hprofile, Hmissing, Hcut.
      destruct (Z.eqb_spec (cur r + 1) 1); [lia|].
      by destruct (log_missing_slots e').
  - assert (Hnil : log r = []).
    { destruct (log r) as [|x l] using rev_ind; [done|].
      by rewrite last_snoc in Hlast. }
    rewrite Hnil in Hcur. revert Hq. unfold _build_queries.
    cbn [web_collection set_web_collection next_attempt attempts_current].
    fold (cur r). rewrite Hcur. simpl. by intros [= <-].
Qed.

Lemma loop_ended : forall fuel r,
  at_head r -> (Z.to_nat (cap r - cur r) <= fuel)%nat ->
  Ended r (loop_of fuel r).
Proof.
  induction fuel as [|fuel IH]; intros r Hhead Hfuel; simpl.
  { apply ended_unentered. lia. }
  fold (cur r) (cap r).
  destruct (Z.ltb_spec (cur r) (cap r)) as [Hlt | Hge];
    [|by apply ended_unentered].
  pose proof (attempt_cases r) as Hcases. cbv zeta in Hcases.
  pose proof (head_queries r) as Hplan. cbv zeta in Hplan.
  pose proof Hhead as (Hstatus & Herror & Hpassed & Hprofile & Hcur & Hfailed
                       & Hplanned & Hmissing & Hdocs & Hcount & Hsources & Hstats).
  set (wc := next_attempt (web_collection (state r))) in *.
  assert (Hraise : forall msg cumulative seen,
             len (cumulative_docs r) <= len cumulative ->
             Ended r ({| state := set_web_collection (state r) wc;
                         cumulative_docs := cumulative; seen_urls := seen |},
                      Some msg)).
  { intros msg cumulative seen Hle. apply ended_raise; try done.
    - unfold cur, log in *. cbn. lia.
    - unfold cur, cap in *. cbn. lia.
    - unfold documents_of in *. cbn [state web_collection set_web_collection
        cumulative_docs documents next_attempt wc count].
      fold (collection_of r) in *.
      destruct (documents (collection_of r)).
      + rewrite Hcount, <- Hdocs. done.
      + rewrite Hcount. done. }
  destruct (_build_queries _ company domain_tag _) as [queries | msg];
    [|rewrite Hcases; by apply Hraise].
  specialize (Hplan queries Hhead eq_refl).
  destruct (collect w (attempts_current wc) queries) as [analyzed | msg];
    [|rewrite Hcases; by apply Hraise].
  destruct Hcases as (added & cumulative & exn & seen & Hkeys & ->).
  assert (Hlen : len (cumulative_docs r) <= len cumulative).
  { apply keys_length in Hkeys. unfold len. rewrite Hkeys, length_app. lia. }
  destruct exn as [msg|]; [by apply Hraise|].
  destruct (completed_collection_fields wc queries added cumulative)
    as (Hgate & Hverdict & Hstats' & Hsources' & Hno & Hqueries).
  destruct (completed_collection_counter urlparse w policy wc queries added cumulative)
    as (Hcur' & Hcap' & Hprofile' & Hdocs' & Hcount' & Herror').
  pose proof (completed_collection_log urlparse w policy wc queries added cumulative)
    as Hlog'.
  pose proof (completed_round urlparse w policy wc queries added cumulative)
    as [_ Hflow]. cbv zeta in Hflow.
  set (wc' := completed_collection urlparse w policy wc queries added cumulative) in *.
  set (e := round_entry urlparse w policy wc queries added cumulative) in *.
  set (r' := {| state := set_web_collection (state r) wc';
                cumulative_docs := cumulative; seen_urls := seen |}).
  assert (Hn : attempts_current wc = cur r + 1) by reflexivity.
  assert (Hm : attempts_max wc = cap r) by reflexivity.
  assert (Hl : decision_log wc = log r) by reflexivity.
  assert (Hplanned' : planned (log r')).
  { unfold log, r'. cbn [state web_collection set_web_collection].
    rewrite Hlog', Hl. apply planned_snoc; [done|].
    rewrite Hno, Hqueries, Hn. exact Hplan. }
  assert (Hsummary : summarised r').
  { unfold summarised, documents_of, r'.
    cbn [state web_collection set_web_collection cumulative_docs].
    by rewrite Hdocs'. }
  assert (Hcurlen : cur r' = len (log r')).
  { unfold cur, log, r'. cbn [state web_collection set_web_collection].
    rewrite Hcur', Hlog', Hl, Hn. unfold len. rewrite length_app. simpl.
    unfold len in Hcur. lia. }
  destruct (completed_flow urlparse policy wc cumulative) eqn:Hflow'.
  - destruct Hflow as (Hfail & Hmore & Hstatus').
    assert (Hne : log_missing_slots e <> []).
    { pose proof (failed_verdict_missing cumulative (_calculate_statistics cumulative))
        as Hv. rewrite Hverdict in Hv. by apply Hv. }
    assert (Hnames : log_missing_slots e ⊆ slot_names).
    { pose proof (verdict_missing_names cumulative (_calculate_statistics cumulative))
        as Hv. by rewrite Hverdict in Hv. }
    assert (Hhead' : at_head r').
    { unfold at_head. split_and!; try done.
      - unfold r'. cbn [state web_collection set_web_collection].
        by rewrite Hgate.
      - unfold r'. cbn [state web_collection set_web_collection].
        by rewrite Hprofile'.
      - unfold log, r'. cbn [state web_collection set_web_collection].
        rewrite Hlog', Hl. apply failed_rounds_snoc; [done | | done | done | done].
        rewrite Hno, Hn. lia.
      - unfold log, r'. cbn [state web_collection set_web_collection].
        rewrite Hlog', last_snoc, Hgate. done. }
    assert (Hfuel' : (Z.to_nat (cap r' - cur r') <= fuel)%nat).
    { unfold cur, cap, r' in *. cbn [state web_collection set_web_collection] in *.
      rewrite Hcur', Hcap', Hn, Hm. lia. }
    specialize (IH r' Hhead' Hfuel').
    assert (Hlt' : cur r' < cap r').
    { unfold cur, cap, r' in *. cbn [state web_collection set_web_collection] in *.
      rewrite Hcur', Hcap', Hn, Hm. lia. }
    destruct IH; [lia | eapply ended_break; eassumption | by apply ended_raise].
  - eapply (ended_break r r' (log r) e); try done.
    + unfold cur, cap, r' in *. cbn [state web_collection set_web_collection] in *.
      rewrite Hcur', Hcap', Hn, Hm. lia.
    + destruct Hflow as [[? ?] | (? & ? & ?)]; [by left | right].
      repeat split; try done.
      unfold cur, cap, r' in *. cbn [state web_collection set_web_collection] in *.
      rewrite Hcur', Hcap', Hn, Hm. lia.
  - done.
Qed.

End Outcome.

(** ** What [execute] returns *)

Lemma gate_passed_checks urlparse (documents : list Document) (st : Stats)
  (policy : ThresholdProfile) :
  (_evaluate_gate urlparse documents st policy).1.1 = true
  <-> Checks urlparse documents st policy.
Proof.
  rewrite evaluate_gate_unfold. unfold failures. cbn [fst].
  rewrite slots_of_empty, !Z.ltb_ge, !Qltb_ge.
  rewrite (low_ratio_spec documents st), distinct_domains_count,
    category_div_spec.
  split.
  - intros (? & ? & ? & ? & ? & ? & ?). by constructor.
  - intros [? ? ? ? ? ? ?]. tauto.
Qed.

Section Verdict.

Variable urlparse : string -> option ParseResult.
Variable fromisoformat : string -> option datetime.

Local Abbreviation run_of := (execute_with urlparse fromisoformat).
Local Abbreviation loop_of := (attempts_loop urlparse fromisoformat).
Local Abbreviation collection_of r := (web_collection (state r)).

Lemma initial_run_at_head w company domain_tag policy st :
  at_head w company domain_tag policy (initial_run policy st).
Proof.
  unfold at_head, summarised, failed_rounds, planned. split_and!; try done.
Qed.

Lemma attempt_keeps_input w company domain_tag policy (r : Run) :
  let r' := (attempt urlparse fromisoformat w company domain_tag policy r).1 in
  company_name (state r') = company_name (state r)
  /\ domain (state r') = domain (state r)
  /\ errors (state r') = errors (state r).
Proof.
  pose proof (attempt_cases urlparse fromisoformat w company domain_tag policy r)
    as Hcases. cbv zeta in Hcases.
  destruct (_build_queries _ company domain_tag _) as [queries | msg];
    [|by rewrite Hcases].
  destruct (collect w _ queries) as [analyzed | msg]; [|by rewrite Hcases].
  destruct Hcases as (added & cumulative & [msg|] & seen & _ & ->); done.
Qed.

(** The run [execute] returns is what the loop left, or what the handler
    made of it. *)
Lemma execute_cases policy w st :
  exists res,
    Ended urlparse w (Py.strip (company_name st)) (Py.strip (domain st)) policy
      (initial_run policy st) res
    /\ cap res.1 = max_attempts policy
    /\ (company_name (state res.1) = company_name st
        /\ domain (state res.1) = domain st
        /\ errors (state res.1) = errors st)
    /\ run_of policy w st
       = match res.2 with
         | None => res.1
         | Some msg => handle_exception w res.1 msg
         end.
Proof.
  exists (loop_of (Z.to_nat (max_attempts policy)) w (Py.strip (company_name st))
            (Py.strip (domain st)) policy (initial_run policy st)).
  split; [|split; [|split]].
  - apply loop_ended; [apply initial_run_at_head|].
    unfold cap, cur. cbn. lia.
  - by rewrite loop_cap.
  - apply (loop_invariant urlparse fromisoformat w _ _ policy
             (fun r => company_name (state r) = company_name st
                       /\ domain (state r) = domain st
                       /\ errors (state r) = errors st)); [|done].
    intros r (Hc & Hd & He).
    destruct (attempt_keeps_input w (Py.strip (company_name st))
                (Py.strip (domain st)) policy r) as (-> & -> & ->).
    done.
  - apply execute_with_loop.
Qed.

(** X7. [execute] leaves the loop by a verdict or by an exception: the
    loop condition is false only when it is so before the first round,
    that is for a profile that allows no attempt, and then the collection
    is returned as initialised, with status insufficient.  Otherwise the
    status is completed with a passed gate, partial with a failed gate
    in the last allowed round, or degraded with the error message and
    the failed gate of the round before; the counter is between 1 and
    [max_attempts]. *)
Theorem execute_outcome (policy : ThresholdProfile) (w : World) (st : State) :
  let r := run_of policy w st in
  let wc := web_collection (state r) in
  (max_attempts policy <= 0 -> r = initial_run policy st)
  /\ (0 < max_attempts policy ->
      1 <= attempts_current wc <= max_attempts policy
      /\ (status wc = "completed" /\ passed (gate wc) = true /\ error wc = None
          \/ status wc = "partial" /\ passed (gate wc) = false /\ error wc = None
             /\ attempts_current wc = max_attempts policy
          \/ status wc = "degraded" /\ passed (gate wc) = false
             /\ exists msg, error wc = Some msg)).
Proof.
  intros r wc. unfold wc, r. clear wc r.
  destruct (execute_cases policy w st) as (res & Hend & Hcap & _ & ->).
  destruct Hend as [Hun | r l e Hlog _ _ Hno Hcur Hle Hgate _ Herror _ Hstatus
                   | r msg Hstatus Herror Hpassed Hcur Hle _ _ _];
    cbn [fst snd] in *.
  - unfold cap, cur in Hun. cbn in Hun. split; [done | lia].
  - assert (Hpos : 1 <= cur r).
    { rewrite Hcur, Hlog. unfold len. rewrite length_app. simpl. lia. }
    fold (cur r). split; [lia|]. intros _. split; [lia|].
    rewrite Hgate. cbn [passed].
    destruct Hstatus as [[? ?] | (? & ? & ?)]; [left | right; left];
      repeat split; try done. lia.
  - assert (Hpos : 1 <= cur r).
    { rewrite Hcur. unfold len. lia. }
    change (attempts_current (collection_of (handle_exception w r msg)))
      with (cur r).
    split; [lia|]. intros _. split; [lia|]. right; right.
    split; [done|]. split; [exact Hpassed|]. by exists msg.
Qed.

(** X8. Unless the run is degraded, the summary keys [execute] returns
    describe the returned documents: [count] is their number, [sources]
    the set of their categories, [stats] their statistics, and, when a
    round was made, [gate] the verdict on them.  In every run, degraded
    or not, [count] is no more than the number of returned documents. *)
Theorem execute_summary (policy : ThresholdProfile) (w : World) (st : State) :
  let r := run_of policy w st in
  let wc := web_collection (state r) in
  let documents := documents_of r in
  let verdict :=
    _evaluate_gate urlparse documents (_calculate_statistics documents) policy in
  count wc <= len documents
  /\ (status wc <> "degraded" ->
      count wc = len documents
      /\ sources wc = list_to_set (source_category <$> documents)
      /\ stats wc = _calculate_statistics documents
      /\ (0 < max_attempts policy ->
          gate wc = {| passed := verdict.1.1; missing_slots := verdict.1.2;
                       reasons := verdict.2 |})).
Proof.
  intros r wc documents verdict. unfold verdict, documents, wc, r.
  clear verdict documents wc r.
  destruct (execute_cases policy w st) as (res & Hend & Hcap & _ & ->).
  destruct Hend as [Hun | r l e _ _ _ _ _ _ Hgate Hverdict _ Hsummary _
                   | r msg _ _ _ _ _ _ _ Hcount];
    cbn [fst snd] in *.
  - unfold cap, cur in Hun. cbn in Hun. split; [done|]. intros _.
    repeat split. lia.
  - destruct Hsummary as (-> & -> & -> & ->). split; [lia|]. intros _.
    repeat split. intros _. by rewrite Hgate, Hverdict.
  - split; [exact Hcount|]. intros Hstatus. by destruct Hstatus.
Qed.

(** X9. A run is completed only if the returned documents meet all seven
    thresholds of the profile, and partial only if they do not. *)
Theorem completed_run_meets_thresholds (policy : ThresholdProfile) (w : World)
  (st : State) :
  let r := run_of policy w st in
  let wc := web_collection (state r) in
  let documents := documents_of r in
  (status wc = "completed" ->
   Checks urlparse documents (_calculate_statistics documents) policy)
  /\ (status wc = "partial" ->
      ~ Checks urlparse documents (_calculate_statistics documents) policy).
Proof.
  intros r wc documents. unfold documents, wc, r. clear documents wc r.
  destruct (execute_cases policy w st) as (res & Hend & Hcap & _ & ->).
  destruct Hend as [Hun | r l e _ _ _ _ _ _ _ Hverdict _ Hsummary Hstatus
                   | r msg _ _ _ _ _ _ _ _];
    cbn [fst snd] in *; [done| |done].
  destruct Hsummary as (-> & _).
  rewrite <- gate_passed_checks, Hverdict. cbn [fst].
  destruct Hstatus as [[-> ->] | (-> & -> & _)]; done.
Qed.

(** X10. The decision log has one entry per completed round, numbered
    from 1 without gaps.  Every entry but the last records a failed
    verdict with a non-empty list of missing slots.  Unless the run is
    degraded, the number of entries is the attempt counter and the last
    entry records the returned gate; in a degraded run the round that
    raised has no entry, and every entry records a failure. *)
Theorem execute_decision_log (policy : ThresholdProfile) (w : World) (st : State) :
  let r := run_of policy w st in
  let wc := web_collection (state r) in
  let entries := decision_log wc in
  log_attempt <$> entries = seqZ 1 (len entries)
  /\ (forall i e, entries !! i = Some e -> (S i < length entries)%nat ->
        log_gate_passed e = false /\ log_missing_slots e <> [])
  /\ (status wc <> "degraded" ->
      len entries = attempts_current wc
      /\ forall e, last entries = Some e ->
           gate wc = {| passed := log_gate_passed e;
                        missing_slots := log_missing_slots e;
                        reasons := log_reasons e |})
  /\ (status wc = "degraded" ->
      len entries = attempts_current wc - 1
      /\ Forall (fun e => log_gate_passed e = false) entries).
Proof.
  intros r wc entries. unfold entries, wc, r. clear entries wc r.
  destruct (execute_cases policy w st) as (res & Hend & Hcap & _ & ->).
  destruct Hend as [Hun | r l e Hlog [Hnum Hfailed] _ Hno Hcur _ Hgate _ _ _ Hstatus
                   | r msg _ _ _ Hcur _ [Hnum Hfailed] _ _];
    cbn [fst snd] in *.
  - split; [done|].
    split; [intros i e H; apply lookup_lt_Some in H; cbn in H; lia|].
    split; [done|]. done.
  - fold (log r) (cur r). rewrite Hlog. split.
    { rewrite fmap_app, Hnum. unfold len. rewrite length_app. simpl length.
      rewrite Nat.add_1_r, seqZ_S. simpl. do 2 f_equal.
      rewrite Hno, Hcur, Hlog. unfold len. rewrite length_app. simpl. lia. }
    split.
    { intros i e0 He0 Hi. rewrite length_app in Hi. simpl in Hi.
      rewrite lookup_app_l in He0 by lia.
      rewrite Forall_forall in Hfailed.
      destruct (Hfailed e0) as (? & ? & _); [by eapply list_elem_of_lookup_2 | done]. }
    split.
    { intros _. split; [by rewrite Hcur, Hlog|].
      intros e0. rewrite last_snoc. by intros [= <-]. }
    intros Hdeg. destruct Hstatus as [[_ H] | (_ & H & _)];
      rewrite H in Hdeg; discriminate Hdeg.
  - change (decision_log (collection_of (handle_exception w r msg))) with (log r).
    change (attempts_current (collection_of (handle_exception w r msg)))
      with (cur r).
    split; [done|]. split.
    { intros i e0 He0 _. rewrite Forall_forall in Hfailed.
      destruct (Hfailed e0) as (? & ? & _); [by eapply list_elem_of_lookup_2 | done]. }
    split; [by intros H|]. intros _. split; [lia|].
    eapply Forall_impl; [exact Hfailed|]. by intros e0 (? & _).
Qed.

Lemma targeted_nonempty (cut company domain_tag : string) (missing : list string) :
  missing <> [] -> missing ⊆ slot_names ->
  (2 <= length (targeted cut company domain_tag missing))%nat.
Proof.
  intros Hne Hnames. destruct missing as [|s l]; [done|].
  assert (Hs : s ∈ slot_names) by (apply Hnames; left).
  assert (Hin : s ∈ s :: l) by left. revert Hin. generalize (s :: l) as missing.
  intros missing Hin. unfold targeted. cbn [fmap list_fmap concat].
  rewrite !length_app. unfold slot_names in Hs.
  repeat (apply elem_of_cons in Hs as [-> | Hs]); [..|by apply elem_of_nil in Hs];
    repeat case_decide; try done; vm_compute; lia.
Qed.

(** X11. The first round asks the ten baseline queries.  Every later
    round of a run asks the baseline followed by the targeted queries of
    the slots the round before it reported missing, of which there is at
    least one: inside [execute] the planner never falls back to the
    baseline alone, and a retry asks more than ten queries. *)
Theorem execute_retries_targeted (policy : ThresholdProfile) (w : World)
  (st : State) :
  let r := run_of policy w st in
  let entries := decision_log (web_collection (state r)) in
  let company := Py.strip (company_name st) in
  let domain_tag := Py.strip (domain st) in
  (forall e, entries !! 0%nat = Some e ->
     log_queries e = baseline company domain_tag)
  /\ (forall i e' e, entries !! i = Some e' -> entries !! S i = Some e ->
        (10 < length (log_queries e))%nat
        /\ exists cut,
             Datetime.minus_days_isoformat (utcnow_plan w (log_attempt e))
               (recent_window_days policy) = Ok cut
             /\ log_queries e
                = (baseline company domain_tag
                   ++ targeted cut company domain_tag (log_missing_slots e'))%list).
Proof.
  intros r entries company domain_tag. unfold entries, r. clear entries r.
  destruct (execute_cases policy w st) as (res & Hend & Hcap & _ & ->).
  fold company domain_tag in Hend.
  assert (Hgoal : forall l,
    planned w company domain_tag policy l ->
    (forall i e, l !! i = Some e -> (S i < length l)%nat ->
       log_missing_slots e ⊆ slot_names) ->
    (forall e, l !! 0%nat = Some e -> log_queries e = baseline company domain_tag)
    /\ (forall i e' e, l !! i = Some e' -> l !! S i = Some e ->
          (10 < length (log_queries e))%nat
          /\ exists cut,
               Datetime.minus_days_isoformat (utcnow_plan w (log_attempt e))
                 (recent_window_days policy) = Ok cut
               /\ log_queries e
                  = (baseline company domain_tag
                     ++ targeted cut company domain_tag (log_missing_slots e'))%list)).
  { intros l [Hfirst Hnext] Hnames. split; [exact Hfirst|].
    intros i e' e He' He. destruct (Hnext i e' e He' He) as (Hne & cut & Hcut & Hq).
    split; [|by exists cut]. rewrite Hq, length_app.
    pose proof (targeted_nonempty cut company domain_tag (log_missing_slots e') Hne)
      as Hlen.
    apply lookup_lt_Some in He. specialize (Hnames i e' He' He).
    specialize (Hlen Hnames). simpl. lia. }
  destruct Hend as [Hun | r l e Hlog [_ Hfailed] Hplanned _ _ _ _ _ _ _ _
                   | r msg _ _ _ _ _ [_ Hfailed] Hplanned _];
    cbn [fst snd] in *.
  - split; [by intros e H|].
    intros i e' e H. apply lookup_lt_Some in H. cbn in H. lia.
  - apply Hgoal; [exact Hplanned|]. fold (log r). rewrite Hlog.
    intros i e0 He0 Hi. rewrite length_app in Hi. simpl in Hi.
    rewrite lookup_app_l in He0 by lia. rewrite Forall_forall in Hfailed.
    destruct (Hfailed e0) as (_ & _ & ?); [by eapply list_elem_of_lookup_2 | done].
  - apply Hgoal; [exact Hplanned|].
    change (decision_log (collection_of (handle_exception w r msg))) with (log r).
    intros i e0 He0 _. rewrite Forall_forall in Hfailed.
    destruct (Hfailed e0) as (_ & _ & ?); [by eapply list_elem_of_lookup_2 | done].
Qed.

(** X12. [execute] reads the company name, the domain and the error list
    of the incoming state and nothing else of it: what an earlier run
    left under [web_collection] does not influence the result.  It
    returns the name and the domain unchanged, and the error list
    unchanged unless the run is degraded, in which case exactly one
    entry is appended. *)
Theorem execute_reads_input (policy : ThresholdProfile) (w : World)
  (st : State) :
  let r := run_of policy w st in
  let wc := web_collection (state r) in
  company_name (state r) = company_name st
  /\ domain (state r) = domain st
  /\ (status wc <> "degraded" -> errors (state r) = errors st)
  /\ (status wc = "degraded" ->
      exists entry, errors (state r) = (errors st ++ [entry])%list)
  /\ (forall st', company_name st' = company_name st -> domain st' = domain st ->
        errors st' = errors st -> run_of policy w st' = run_of policy w st).
Proof.
  intros r wc. unfold wc, r. clear wc r.
  split_and!; [..|intros st' Hc Hd He; unfold execute_with, set_web_collection;
                  by rewrite Hc, Hd, He];
    destruct (execute_cases policy w st) as (res & Hend & _ & (Hc & Hd & He) & ->);
    destruct Hend as [Hun | r l e _ _ _ _ _ _ _ _ _ _ Hstatus
                     | r msg _ _ _ _ _ _ _ _];
    cbn [fst snd] in *; try done.
  - intros Hdeg. destruct Hstatus as [[_ H] | (_ & H & _)];
      rewrite H in Hdeg; discriminate Hdeg.
  - intros _. eexists. cbn [handle_exception state errors]. by rewrite He.
Qed.

End Verdict.

(** A profile the first round of [meagre_world] satisfies. *)
Definition lenient_profile : ThresholdProfile :=
  {| min_docs := 2; min_primary := 1; recent_window_days := 180;
     min_recent := 1; avg_rel_min := 0.5; low_ratio_max := 0.3;
     distinct_domains_min := 2; category_diversity_min := 2;
     max_attempts := 2 |}.

Definition run_lenient : Run :=
  execute_with Sample.urlparse Sample.fromisoformat lenient_profile
    meagre_world acme.

Example run_lenient_ex :
  let wc := web_collection (state run_lenient) in
  status wc = "completed"
  /\ attempts_current wc = 1
  /\ doc_id <$> documents_of run_lenient = ["web_1"; "web_3"]
  /\ reliability <$> documents_of run_lenient = ["high"; "medium"]
  /\ missing_slots (gate wc) = [].
Proof. vm_compute. repeat split. Qed.

Lemma execute_outcome_witness :
  1 <= attempts_current (web_collection (state run_meagre)) <= 2
  /\ status (web_collection (state run_meagre)) = "partial".
Proof.
  destruct (execute_outcome Sample.urlparse Sample.fromisoformat
              default_threshold_profile meagre_world acme) as [_ H].
  destruct H as [Hbounds _]; [reflexivity|].
  split; [exact Hbounds | reflexivity].
Defined.

Lemma execute_summary_witness :
  count (web_collection (state run_meagre)) = len (documents_of run_meagre)
  /\ stats (web_collection (state run_meagre))
     = _calculate_statistics (documents_of run_meagre).
Proof.
  destruct (execute_summary Sample.urlparse Sample.fromisoformat
              default_threshold_profile meagre_world acme) as [_ H].
  destruct H as (Hcount & _ & Hstats & _); [by vm_compute|].
  split; [exact Hcount | exact Hstats].
Defined.

Lemma completed_run_meets_thresholds_witness :
  Checks Sample.urlparse (documents_of run_lenient)
    (_calculate_statistics (documents_of run_lenient)) lenient_profile
  /\ ~ Checks Sample.urlparse (documents_of run_meagre)
         (_calculate_statistics (documents_of run_meagre))
         default_threshold_profile.
Proof.
  split.
  - apply (completed_run_meets_thresholds Sample.urlparse Sample.fromisoformat
             lenient_profile meagre_world acme). reflexivity.
  - apply (completed_run_meets_thresholds Sample.urlparse Sample.fromisoformat
             default_threshold_profile meagre_world acme). reflexivity.
Defined.

Lemma execute_decision_log_witness :
  len (decision_log (web_collection (state run_meagre))) = 2
  /\ len (decision_log (web_collection (state run_aware))) = 1.
Proof.
  destruct (execute_decision_log Sample.urlparse Sample.fromisoformat
              default_threshold_profile meagre_world acme) as (_ & _ & H & _).
  destruct (execute_decision_log Sample.urlparse Sample.fromisoformat
              default_threshold_profile aware_world acme) as (_ & _ & _ & H').
  destruct H as [Hlen _]; [by vm_compute|].
  destruct H' as [Hlen' _]; [reflexivity|].
  split; [exact Hlen | exact Hlen'].
Defined.

Lemma execute_retries_targeted_witness :
  exists e' e,
    decision_log (web_collection (state run_meagre)) !! 0%nat = Some e'
    /\ decision_log (web_collection (state run_meagre)) !! 1%nat = Some e
    /\ (10 < length (log_queries e))%nat.
Proof.
  assert (H : exists e' e,
             decision_log (web_collection (state run_meagre)) !! 0%nat = Some e'
             /\ decision_log (web_collection (state run_meagre)) !! 1%nat = Some e).
  { vm_compute. do 2 eexists. split; reflexivity. }
  destruct H as (e' & e & H0 & H1). exists e', e.
  split; [exact H0|]. split; [exact H1|].
  destruct (execute_retries_targeted Sample.urlparse Sample.fromisoformat
              default_threshold_profile meagre_world acme) as [_ H].
  by destruct (H 0%nat e' e H0 H1) as [Hlen _].
Defined.

Lemma execute_reads_input_witness :
  errors (state run_meagre) = []
  /\ exists entry, errors (state run_aware) = [entry].
Proof.
  destruct (execute_reads_input Sample.urlparse Sample.fromisoformat
              default_threshold_profile meagre_world acme) as (_ & _ & H & _).
  destruct (execute_reads_input Sample.urlparse Sample.fromisoformat
              default_threshold_profile aware_world acme) as (_ & _ & _ & H' & _).
  split.
  - apply H. by vm_compute.
  - apply H'. reflexivity.
Defined.

(** ** The gate on the statistics of the documents *)



Section GateReport.

Variable urlparse : string -> option ParseResult.


Lemma gate_checks_reasons documents st policy :
  length (gate_checks urlparse documents st policy).2
  = length (filter (fun b => b = true) (failures urlparse documents st policy)).
Proof.
  unfold gate_checks, failures.
  destruct (len documents <? min_docs policy);
    destruct (get_primary_sources_count st <? min_primary policy);
    destruct (get_recent_documents_count st <? min_recent policy);
    destruct (Py.Qltb (get_average_reliability st) (avg_rel_min policy));
    destruct (Py.Qltb (low_ratio_max policy) (low_ratio documents st));
    destruct (distinct_domains urlparse documents <? distinct_domains_min policy);
    destruct (category_div st <? category_diversity_min policy);
    reflexivity.
Qed.

Lemma slots_of_reasons : forall f1 f2 f3 f4 f5 f6 f7,
  let f := [f1; f2; f3; f4; f5; f6; f7] in
  (length (Py.sorted_set (slots_of f)) <= length (filter (fun b => b = true) f))%nat
  /\ (length (filter (fun b => b = true) f) <= 7)%nat
  /\ ((len (slots_of f) =? 0) = true <-> length (filter (fun b => b = true) f) = 0%nat).
Proof.
  intros f1 f2 f3 f4 f5 f6 f7.
  destruct f1, f2, f3, f4, f5, f6, f7; vm_compute;
    repeat split; intros; first [lia | congruence].
Qed.

(** X14. [_evaluate_gate] returns one reason for every failed check,
    so at most seven; the verdict is true
    exactly when there is none.  The missing slots are returned
    without repetition in increasing order, and there are no more of
    them than reasons. *)
Theorem gate_reasons (documents : list Document) (st : Stats)
  (policy : ThresholdProfile) :
  let verdict := _evaluate_gate urlparse documents st policy in
  length verdict.2
  = length (filter (fun b => b = true) (failures urlparse documents st policy))
  /\ (verdict.1.1 = true <-> verdict.2 = [])
  /\ (length verdict.1.2 <= length verdict.2 <= 7)%nat
  /\ Sorted (fun a b => String.leb a b = true) verdict.1.2
  /\ NoDup verdict.1.2.
Proof.
  intros verdict.
  assert (Hr : verdict.2 = (gate_checks urlparse documents st policy).2).
  { unfold verdict, _evaluate_gate.
    by destruct (gate_checks urlparse documents st policy). }
  assert (Hv : verdict.1
               = (len (slots_of (failures urlparse documents st policy)) =? 0,
                  Py.sorted_set (slots_of (failures urlparse documents st policy))))
    by apply evaluate_gate_unfold.
  rewrite Hv. cbn [fst snd]. rewrite <- length_zero_iff_nil, Hr, gate_checks_reasons.
  unfold failures.
  match goal with
  | |- context [slots_of [?f1; ?f2; ?f3; ?f4; ?f5; ?f6; ?f7]] =>
      destruct (slots_of_reasons f1 f2 f3 f4 f5 f6 f7) as (Hle & Hseven & Hzero)
  end.
  split; [done|]. split; [exact Hzero|]. split; [lia|]. split.
  - apply (Sorted_merge_sort Py.str_le).
  - apply NoDup_sorted_set.
Qed.

(** One profile asks no more than another. *)
Definition weaker (p' p : ThresholdProfile) : Prop :=
  min_docs p' <= min_docs p
  /\ min_primary p' <= min_primary p
  /\ min_recent p' <= min_recent p
  /\ (avg_rel_min p' <= avg_rel_min p)%Q
  /\ (low_ratio_max p <= low_ratio_max p')%Q
  /\ distinct_domains_min p' <= distinct_domains_min p
  /\ category_diversity_min p' <= category_diversity_min p.

Lemma verdict_missing_slot documents st policy (s : string) :
  s ∈ (_evaluate_gate urlparse documents st policy).1.2
  <-> s = "docs_count" /\ len documents < min_docs policy
      \/ s = "primary" /\ get_primary_sources_count st < min_primary policy
      \/ s = "recent" /\ get_recent_documents_count st < min_recent policy
      \/ s = "reliability"
         /\ ((get_average_reliability st < avg_rel_min policy)%Q
             \/ (low_ratio_max policy < low_ratio documents st)%Q)
      \/ s = "diversity"
         /\ (distinct_domains urlparse documents < distinct_domains_min policy
             \/ category_div st < category_diversity_min policy).
Proof.
  rewrite evaluate_gate_unfold. cbn [fst snd]. unfold failures.
  rewrite elem_of_sorted_set, <- !Z.ltb_lt, <- !Qltb_lt.
  set (f1 := len documents <? min_docs policy).
  set (f2 := get_primary_sources_count st <? min_primary policy).
  set (f3 := get_recent_documents_count st <? min_recent policy).
  set (f4 := Py.Qltb (get_average_reliability st) (avg_rel_min policy)).
  set (f5 := Py.Qltb (low_ratio_max policy) (low_ratio documents st)).
  set (f6 := distinct_domains urlparse documents <? distinct_domains_min policy).
  set (f7 := category_div st <? category_diversity_min policy).
  clearbody f1 f2 f3 f4 f5 f6 f7.
  destruct f1, f2, f3, f4, f5, f6, f7; cbn [slots_of app orb];
    rewrite ?elem_of_cons, ?elem_of_nil; intuition congruence.
Qed.

(** X15. The gate is monotone in the profile: with a profile that asks
    no more in any of the seven thresholds, the missing slots are among
    those of the stricter profile, and a corpus that passes the stricter
    profile passes the weaker one. *)
Theorem gate_monotone (documents : list Document) (st : Stats)
  (policy policy' : ThresholdProfile) :
  weaker policy' policy ->
  (_evaluate_gate urlparse documents st policy').1.2
  ⊆ (_evaluate_gate urlparse documents st policy).1.2
  /\ ((_evaluate_gate urlparse documents st policy).1.1 = true ->
      (_evaluate_gate urlparse documents st policy').1.1 = true).
Proof.
  intros (H1 & H2 & H3 & H4 & H5 & H6 & H7). split.
  - intros s. rewrite !verdict_missing_slot.
    intros [[-> ?] | [[-> ?] | [[-> ?] | [[-> Hr] | [-> Hd]]]]].
    + left. split; [done | lia].
    + right; left. split; [done | lia].
    + do 2 right; left. split; [done | lia].
    + do 3 right; left. split; [done|].
      destruct Hr as [Hr | Hr]; [left | right].
      * eapply Qlt_le_trans; [exact Hr | exact H4].
      * eapply Qle_lt_trans; [exact H5 | exact Hr].
    + do 4 right. split; [done | lia].
  - rewrite !gate_passed_checks. intros [C1 C2 C3 C4 C5 C6 C7].
    constructor; try lia.
    + eapply Qle_trans; [exact H4 | exact C4].
    + eapply Qle_trans; [exact C5 | exact H5].
Qed.

End GateReport.

Lemma gate_monotone_witness :
  (_evaluate_gate Sample.urlparse two_pages_scored
     (_calculate_statistics two_pages_scored) lenient_profile).1.2
  ⊆ (_evaluate_gate Sample.urlparse two_pages_scored
       (_calculate_statistics two_pages_scored) default_threshold_profile).1.2.
Proof.
  apply (gate_monotone Sample.urlparse two_pages_scored
           (_calculate_statistics two_pages_scored)
           default_threshold_profile lenient_profile).
  unfold weaker. cbn. repeat split; try lia; by vm_compute.
Defined.

(** ** The shape of a query plan *)

Definition opens_with (company q : string) : Prop :=
  exists rest, q = company ++ " " ++ rest.

Lemma baseline_opens (company domain_tag : string) :
  Forall (opens_with company) (baseline company domain_tag).
Proof. repeat constructor; eexists; reflexivity. Qed.

Lemma slot_queries_shape (cut company domain_tag slot : string) :
  (length (slot_queries cut company domain_tag slot) <= 3)%nat
  /\ Forall (opens_with company) (slot_queries cut company domain_tag slot).
Proof.
  unfold slot_queries. repeat case_decide; simpl; (split; [lia|]);
    repeat constructor; eexists; reflexivity.
Qed.

Lemma targeted_shape (cut company domain_tag : string) (missing : list string) :
  (length (targeted cut company domain_tag missing) <= 14)%nat
  /\ Forall (opens_with company) (targeted cut company domain_tag missing).
Proof.
  unfold targeted. cbn [fmap list_fmap concat]. rewrite !length_app, !Forall_app.
  assert (Hnone : (length (@nil string) <= 2)%nat
                  /\ Forall (opens_with company) []) by (split; [simpl; lia | constructor]).
  assert (Hrecent : (length (slot_queries cut company domain_tag "recent") <= 2)%nat)
    by (vm_compute; lia).
  pose proof (slot_queries_shape cut company domain_tag "primary") as [? ?].
  pose proof (slot_queries_shape cut company domain_tag "recent") as [? ?].
  pose proof (slot_queries_shape cut company domain_tag "docs_count") as [? ?].
  pose proof (slot_queries_shape cut company domain_tag "reliability") as [? ?].
  pose proof (slot_queries_shape cut company domain_tag "diversity") as [? ?].
  repeat case_decide; simpl length; split_and!; try done; try constructor; lia.
Qed.

Lemma targeted_members (cut company domain_tag : string) (missing missing' : list string) :
  (forall s, s ∈ missing <-> s ∈ missing') ->
  targeted cut company domain_tag missing = targeted cut company domain_tag missing'.
Proof.
  intros Hsame. unfold targeted. cbn [fmap list_fmap concat].
  repeat match goal with
         | |- context [decide (?s ∈ missing)] =>
             rewrite (decide_ext (s ∈ missing) (s ∈ missing')) by apply Hsame
         end.
  done.
Qed.

(** X16. A query plan starts with the ten baseline queries and has at
    most fourteen more; every query of it opens with the company name.
    The planner raises only on a later attempt with missing slots, when
    the cutoff date of the recency window is out of the range of dates,
    whether or not the recent slot is among the missing ones.  The plan
    depends on the missing slots as a set: neither their order nor
    repetitions matter. *)
Theorem build_queries_shape (utcnow : datetime) (company domain_tag : string)
  (st : State) :
  let wc := web_collection st in
  match _build_queries utcnow company domain_tag st with
  | Ok queries =>
      baseline company domain_tag `prefix_of` queries
      /\ (10 <= length queries <= 24)%nat
      /\ Forall (opens_with company) queries
  | Raise msg =>
      attempts_current wc <> 1
      /\ missing_slots (gate wc) <> []
      /\ Datetime.minus_days_isoformat utcnow
           (recent_window_days (threshold_profile wc)) = Raise msg
  end
  /\ (forall st',
        attempts_current (web_collection st') = attempts_current wc ->
        threshold_profile (web_collection st') = threshold_profile wc ->
        (forall s, s ∈ missing_slots (gate (web_collection st'))
                   <-> s ∈ missing_slots (gate wc)) ->
        _build_queries utcnow company domain_tag st'
        = _build_queries utcnow company domain_tag st).
Proof.
  intros wc.
  assert (Hbase : baseline company domain_tag `prefix_of` baseline company domain_tag
                  /\ (10 <= length (baseline company domain_tag) <= 24)%nat
                  /\ Forall (opens_with company) (baseline company domain_tag)).
  { split; [done|]. split; [simpl; lia | apply baseline_opens]. }
  assert (Hfirst : attempts_current wc = 1 ->
            _build_queries utcnow company domain_tag st
            = Ok (baseline company domain_tag)).
  { intros H. unfold _build_queries. fold wc. by rewrite H. }
  assert (Hnone : missing_slots (gate wc) = [] ->
            _build_queries utcnow company domain_tag st
            = Ok (baseline company domain_tag)).
  { intros H. unfold _build_queries. fold wc. rewrite H.
    by destruct (attempts_current wc =? 1). }
  assert (Hraise : forall msg, attempts_current wc <> 1 ->
            missing_slots (gate wc) <> [] ->
            Datetime.minus_days_isoformat utcnow
              (recent_window_days (threshold_profile wc)) = Raise msg ->
            _build_queries utcnow company domain_tag st = Raise msg).
  { intros msg H1 H2 H3. unfold _build_queries. fold wc. rewrite H3.
    destruct (Z.eqb_spec (attempts_current wc) 1); [done|].
    by destruct (missing_slots (gate wc)). }
  split.
  - destruct (decide (attempts_current wc = 1)) as [H1 | H1];
      [by rewrite (Hfirst H1)|].
    destruct (decide (missing_slots (gate wc) = [])) as [H2 | H2];
      [by rewrite (Hnone H2)|].
    destruct (Datetime.minus_days_isoformat utcnow
                (recent_window_days (threshold_profile wc))) as [cut | msg] eqn:Hcut.
    + rewrite (build_queries_targeted utcnow company domain_tag st cut H1 H2 Hcut).
      destruct (targeted_shape cut company domain_tag (missing_slots (gate wc)))
        as [Hlen Hall].
      split; [by apply prefix_app_r|]. split.
      * rewrite length_app.
        change (length (baseline company domain_tag)) with 10%nat.
        fold wc. lia.
      * apply Forall_app. split; [apply baseline_opens | exact Hall].
    + by rewrite (Hraise msg H1 H2 eq_refl).
  - intros st' Hattempt Hprofile Hsame.
    assert (Hnil : missing_slots (gate (web_collection st')) = []
                   <-> missing_slots (gate wc) = []).
    { split; intros H; rewrite H in Hsame.
      - destruct (missing_slots (gate wc)) as [|s l]; [done|].
        specialize (Hsame s). rewrite elem_of_nil in Hsame.
        exfalso. apply Hsame. left.
      - destruct (missing_slots (gate (web_collection st'))) as [|s l]; [done|].
        specialize (Hsame s). rewrite elem_of_nil in Hsame.
        exfalso. apply Hsame. left. }
    destruct (decide (attempts_current wc = 1)) as [H1 | H1].
    { rewrite (Hfirst H1). unfold _build_queries. by rewrite Hattempt, H1. }
    destruct (decide (missing_slots (gate wc) = [])) as [H2 | H2].
    { rewrite (Hnone H2). unfold _build_queries.
      rewrite (proj2 Hnil H2). by destruct (_ =? 1). }
    assert (H1' : attempts_current (web_collection st') <> 1) by congruence.
    assert (H2' : missing_slots (gate (web_collection st')) <> []) by tauto.
    destruct (Datetime.minus_days_isoformat utcnow
                (recent_window_days (threshold_profile wc))) as [cut | msg] eqn:Hcut.
    + rewrite (build_queries_targeted utcnow company domain_tag st cut H1 H2 Hcut).
      rewrite (build_queries_targeted utcnow company domain_tag st' cut H1' H2')
        by (by rewrite Hprofile).
      by rewrite (targeted_members cut company domain_tag _ _ Hsame).
    + rewrite (Hraise msg H1 H2 eq_refl). unfold _build_queries.
      rewrite Hprofile. fold wc. rewrite Hcut.
      destruct (Z.eqb_spec (attempts_current (web_collection st')) 1); [done|].
      by destruct (missing_slots (gate (web_collection st'))).
Qed.

Lemma build_queries_shape_witness :
  _build_queries (Sample.noon 2024 7 1) "Acme" "ai"
    (state_at 2 ["recent"; "primary"; "recent"])
  = _build_queries (Sample.noon 2024 7 1) "Acme" "ai"
      (state_at 2 ["primary"; "recent"]).
Proof.
  destruct (build_queries_shape (Sample.noon 2024 7 1) "Acme" "ai"
              (state_at 2 ["primary"; "recent"])) as [_ H].
  apply H; [reflexivity | reflexivity |].
  intros s. cbn. rewrite !elem_of_cons. tauto.
Defined.

(** ** Dates and recency *)

(** A naive [datetime] at midnight of a day of the calendar. *)
Definition naive_midnight (t : datetime) : Prop :=
  Datetime.tzinfo t = None
  /\ Datetime.hour t = 0 /\ Datetime.minute t = 0 /\ Datetime.second t = 0
  /\ Datetime.microsecond t = 0
  /\ 1 <= Datetime.year t <= 9999
  /\ 1 <= Datetime.month t <= 12
  /\ 1 <= Datetime.day t <= Datetime.days_in_month (Datetime.year t) (Datetime.month t).

Lemma make_naive_midnight (y m d : Z) (t : datetime) :
  Datetime.make y m d = Some t -> naive_midnight t.
Proof.
  unfold Datetime.make.
  destruct ((1 <=? y) && (y <=? 9999) && (1 <=? m) && (m <=? 12)
            && (1 <=? d) && (d <=? Datetime.days_in_month y m)) eqn:H; [|done].
  intros [= <-]. repeat (apply andb_prop in H as [H ?]).
  unfold naive_midnight. simpl. repeat split; lia.
Qed.

Section Assessment.

Variable fromisoformat : string -> option datetime.

Local Abbreviation parse := (_parse_date fromisoformat).

Lemma parse_date_cases (s : option string) (t : datetime) :
  parse s = Some t ->
  exists text,
    s = Some text /\ text <> ""
    /\ (fromisoformat (Py.strip text) = Some t
        \/ fromisoformat (Py.strip text) = None /\ naive_midnight t).
Proof.
  unfold _parse_date. destruct s as [text|]; [|done].
  destruct (String.eqb_spec text "") as [|Hne]; [done|].
  intros H. exists text. split; [done|]. split; [done|].
  destruct (fromisoformat (Py.strip text)) as [t'|]; [left; congruence|].
  right. split; [done|].
  destruct (Re.search Re.ymd_here (Py.strip text)) as [[[y mo] d]|].
  { by eapply make_naive_midnight. }
  cbn [month_name_entries] in H.
  destruct (Re.search Re.mdy_here (Py.strip text)) as [[[mon_s d] y]|]; [|done].
  destruct (_ !! Py.lower mon_s) as [mi|]; [|done].
  destruct (mi =? 0); [done|]. by eapply make_naive_midnight.
Qed.

(** X17. [_parse_date] returns nothing for a missing or empty string.
    What [fromisoformat] reads of the stripped string is returned as it
    is, time of day and UTC offset included, and takes precedence over
    the other formats.  Every other result is a naive datetime at
    midnight of a valid day of the calendar: a string with an impossible
    month or day gives no date. *)
Theorem parse_date_result :
  parse None = None
  /\ parse (Some "") = None
  /\ (forall text t, text <> "" -> fromisoformat (Py.strip text) = Some t ->
        parse (Some text) = Some t)
  /\ (forall s t, parse s = Some t ->
        exists text,
          s = Some text /\ text <> ""
          /\ (fromisoformat (Py.strip text) = Some t
              \/ fromisoformat (Py.strip text) = None /\ naive_midnight t)).
Proof.
  split; [done|]. split; [done|]. split.
  - intros text t Hne Hiso. unfold _parse_date.
    destruct (String.eqb_spec text ""); [done|]. by rewrite Hiso.
  - apply parse_date_cases.
Qed.

(** What the loop body of [_assess_reliability] leaves in a document. *)
Definition assessed (d : Document) : Prop :=
  0 <= age_days d
  /\ (is_recent d = true
      <-> date d <> None /\ age_days d <= DEFAULT_RECENT_WINDOW_DAYS)
  /\ (date d = None -> age_days d = 9999).

Lemma assess_document_assessed now doc doc' :
  assess_document fromisoformat now doc = Ok doc' -> assessed doc'.
Proof.
  unfold assess_document, assessed. intros H.
  destruct (parse (date doc)) as [t|].
  - destruct (Datetime.sub_days now t) as [age|]; [|done].
    injection H as <-. cbn. rewrite Z.leb_le.
    unfold DEFAULT_RECENT_WINDOW_DAYS. repeat split; try done; lia.
  - injection H as <-. cbn. repeat split; try done; try lia.
    by intros [? _].
Qed.

Lemma assess_from_assessed clock documents : forall i documents',
  assess_from fromisoformat clock i documents = (documents', None) ->
  Forall assessed documents' /\ length documents' = length documents.
Proof.
  induction documents as [|doc rest IH]; intros i documents' H; simpl in H.
  - injection H as <-. split; [constructor | done].
  - destruct (assess_document fromisoformat (clock i) doc) as [doc'|] eqn:Hdoc;
      [|done].
    destruct (assess_from fromisoformat clock (S i) rest) as [rest' exn] eqn:Hrest.
    injection H as <- ->. destruct (IH _ _ Hrest) as [Hall Hlen].
    split; [|simpl; by rewrite Hlen].
    constructor; [by eapply assess_document_assessed | done].
Qed.

(** What the loop of [_assess_reliability] writes into a document whose
    clock reading is [now]: [doc] before, [doc'] after. *)
Definition recency_from (now : datetime) (doc doc' : Document) : Prop :=
  match parse (date doc) with
  | Some t =>
      date doc' = Some (Datetime.date_isoformat t)
      /\ exists days,
           Datetime.sub_days now t = Ok days
           /\ age_days doc' = Z.max 0 days
           /\ is_recent doc' = (days <=? 180)
  | None => date doc' = None /\ age_days doc' = 9999 /\ is_recent doc' = false
  end.

Lemma assess_document_recency now doc doc' :
  assess_document fromisoformat now doc = Ok doc' -> recency_from now doc doc'.
Proof.
  unfold assess_document, recency_from. intros H.
  destruct (parse (date doc)) as [t|].
  - destruct (Datetime.sub_days now t) as [age|]; [|done].
    injection H as <-. cbn. split; [done|]. by exists age.
  - injection H as <-. by cbn.
Qed.

Lemma assess_from_recency clock documents : forall k documents',
  assess_from fromisoformat clock k documents = (documents', None) ->
  forall i d d',
    documents !! i = Some d -> documents' !! i = Some d' ->
    recency_from (clock (k + i)%nat) d d'.
Proof.
  induction documents as [|doc rest IH]; intros k documents' H i d d' Hd Hd';
    simpl in H; [done|].
  destruct (assess_document fromisoformat (clock k) doc) as [doc'|] eqn:Hdoc;
    [|done].
  destruct (assess_from fromisoformat clock (S k) rest) as [rest' exn] eqn:Hrest.
  injection H as <- ->. destruct i as [|i]; simpl in Hd, Hd'.
  - injection Hd as <-. injection Hd' as <-. rewrite Nat.add_0_r.
    by apply assess_document_recency.
  - replace (k + S i)%nat with (S k + i)%nat by lia. by eapply IH.
Qed.

(** X18. After [_assess_reliability] the list has its length, and the
    document at each position is dated from the document that was there
    and from the clock reading for it.  If [_parse_date] reads the date
    of the document as [t], the new date is the ISO date of [t], and with
    [days] the day count of the difference of the clock reading and [t],
    the clock first, the age is [max(0, days)] and the document is recent
    exactly when [days] is at most 180; for a naive clock and a naive [t]
    that count is the floor of the difference in days, so a document
    dated later than the clock reads has age 0 and is recent.  If
    [_parse_date] reads no date, the date is [None], the age 9999 and
    the document not recent.  So no document has a negative age, and a
    document is recent exactly when it has a date and its age is at most
    180 days. *)
Theorem assessed_recency (clock : nat -> datetime)
  (documents documents' : list Document) :
  _assess_reliability fromisoformat clock documents = (documents', None) ->
  length documents' = length documents
  /\ (forall i d d',
        documents !! i = Some d -> documents' !! i = Some d' ->
        match _parse_date fromisoformat (date d) with
        | Some t =>
            date d' = Some (Datetime.date_isoformat t)
            /\ exists days,
                 Datetime.sub_days (clock i) t = Ok days
                 /\ age_days d' = Z.max 0 days
                 /\ is_recent d' = (days <=? 180)
                 /\ (Datetime.tzinfo (clock i) = None ->
                     Datetime.tzinfo t = None ->
                     days = (Datetime.micros (clock i) - Datetime.micros t)
                            / Datetime.day_us
                     /\ (Datetime.micros (clock i) < Datetime.micros t ->
                         age_days d' = 0 /\ is_recent d' = true))
        | None => date d' = None /\ age_days d' = 9999 /\ is_recent d' = false
        end)
  /\ Forall (fun d =>
               0 <= age_days d
               /\ (is_recent d = true <-> date d <> None /\ age_days d <= 180)
               /\ (date d = None -> age_days d = 9999 /\ is_recent d = false))
       documents'.
Proof.
  intros H. pose proof (assess_from_recency _ _ _ _ H) as Hrel.
  apply assess_from_assessed in H as [Hall Hlen]. split; [done|]. split.
  - intros i d d' Hd Hd'. specialize (Hrel i d d' Hd Hd').
    unfold recency_from in Hrel. rewrite Nat.add_0_l in Hrel.
    destruct (parse (date d)) as [t|]; [|done].
    destruct Hrel as (Hdate & days & Hsub & Hage & Hrecent).
    split; [done|]. exists days. split_and!; try done.
    intros Hnow Ht. unfold Datetime.sub_days in Hsub. rewrite Hnow, Ht in Hsub.
    injection Hsub as Hdays. split; [done|]. intros Hlater.
    assert (Hneg : days < 0).
    { rewrite <- Hdays. apply Z.div_lt_upper_bound; [done|]. lia. }
    rewrite Hage, Hrecent. split; [lia|]. apply Z.leb_le. lia.
  - eapply Forall_impl; [exact Hall|]. intros d (Hage & Hrecent & Hnone).
    split; [done|]. split; [exact Hrecent|]. intros Hd. split; [by apply Hnone|].
    apply not_true_iff_false. rewrite Hrecent. by intros [? _].
Qed.

Lemma assess_document_raises now doc :
  Datetime.tzinfo now = None ->
  (exists doc', assess_document fromisoformat now doc = Ok doc')
  <-> (forall t, parse (date doc) = Some t -> Datetime.tzinfo t = None).
Proof.
  intros Hnow. unfold assess_document, Datetime.sub_days. rewrite Hnow.
  destruct (parse (date doc)) as [t|].
  - destruct (Datetime.tzinfo t) as [off|] eqn:Htz; cbn.
    + split; [by intros [? ?] | intros H]. specialize (H t eq_refl).
      rewrite Htz in H. discriminate H.
    + split; [|by eexists]. intros _ t' [= <-]. done.
  - cbn. split; [done | by eexists].
Qed.

(** X19. With a naive clock, as [datetime.utcnow] is, the loop of
    [_assess_reliability] raises exactly when the date of some document
    is read as a datetime with a UTC offset; only [fromisoformat] reads
    such dates.  When it raises, the list is returned with its length
    unchanged. *)
Theorem assess_raises_on_aware (clock : nat -> datetime)
  (documents : list Document) :
  (forall i, Datetime.tzinfo (clock i) = None) ->
  ((_assess_reliability fromisoformat clock documents).2 = None
   <-> Forall (fun d => forall t, parse (date d) = Some t ->
                                  Datetime.tzinfo t = None) documents)
  /\ (Forall (fun d => forall text t, date d = Some text ->
                         fromisoformat (Py.strip text) = Some t ->
                         Datetime.tzinfo t = None) documents ->
      (_assess_reliability fromisoformat clock documents).2 = None)
  /\ length (_assess_reliability fromisoformat clock documents).1
     = length documents.
Proof.
  intros Hclock. unfold _assess_reliability.
  assert (Hiff : forall i,
            (assess_from fromisoformat clock i documents).2 = None
            <-> Forall (fun d => forall t, parse (date d) = Some t ->
                                           Datetime.tzinfo t = None) documents).
  { induction documents as [|doc rest IH]; intros i; simpl.
    - split; [constructor | done].
    - pose proof (assess_document_raises (clock i) doc (Hclock i)) as Hdoc.
      destruct (assess_document fromisoformat (clock i) doc) as [doc'|msg].
      + specialize (IH (S i)).
        destruct (assess_from fromisoformat clock (S i) rest) as [rest' exn].
        cbn [snd] in *. rewrite Forall_cons, <- IH.
        split; [intros ->; split; [apply Hdoc; by eexists | done] | by intros [_ ?]].
      + cbn [snd]. split; [done|]. intros Hall. apply Forall_cons in Hall as [H _].
        apply Hdoc in H as [? ?]. done. }
  split; [apply Hiff|]. split.
  - intros Hall. apply Hiff. eapply Forall_impl; [exact Hall|].
    intros d Hd t Ht. apply parse_date_cases in Ht as (text & Hs & _ & [Hiso | [_ Hn]]).
    + by eapply Hd.
    + apply Hn.
  - pose proof (assess_keys fromisoformat clock documents) as Hk.
    unfold _assess_reliability in Hk. apply keys_length in Hk. done.
Qed.

End Assessment.

Lemma parse_date_result_witness :
  exists t,
    _parse_date Sample.fromisoformat (Some "on 2024/3/5, updated") = Some t
    /\ naive_midnight t.
Proof.
  eexists. split; [reflexivity|].
  match goal with
  | |- naive_midnight ?t =>
      destruct (parse_date_result Sample.fromisoformat) as (_ & _ & _ & H);
      destruct (H (Some "on 2024/3/5, updated") t eq_refl)
        as (text & Htext & _ & [Hiso | [_ Hn]])
  end.
  - injection Htext as <-. vm_compute in Hiso. discriminate Hiso.
  - exact Hn.
Defined.

Lemma assessed_recency_witness :
  exists d',
    two_pages_scored !! 1%nat = Some d'
    /\ age_days d' = 30 /\ is_recent d' = true /\ date d' = Some "2024-06-01".
Proof.
  eexists. split; [reflexivity|].
  match goal with
  | |- age_days ?d' = _ /\ _ =>
      destruct (assessed_recency Sample.fromisoformat
                  (fun _ => Sample.noon 2024 7 1) two_pages two_pages_scored
                  eq_refl) as (_ & H & _);
      specialize (H 1%nat _ d' eq_refl eq_refl)
  end.
  vm_compute in H. destruct H as (Hdate & days & Hsub & Hage & Hrecent & _).
  injection Hsub as <-. done.
Defined.

Lemma assess_raises_on_aware_witness :
  (_assess_reliability Sample.fromisoformat (fun _ => Sample.noon 2024 7 1)
     two_pages).2 = None.
Proof.
  destruct (assess_raises_on_aware Sample.fromisoformat
              (fun _ => Sample.noon 2024 7 1) two_pages) as (H & _ & _).
  - reflexivity.
  - apply H. unfold two_pages. constructor; [|constructor; [|constructor]];
      intros t Ht; vm_compute in Ht; [discriminate Ht|].
    injection Ht as <-. reflexivity.
Defined.

(** ** Hosts, URLs and the domain hint *)

(** A list in which no key occurs more than [k] times is at most [k]
    times as long as it has keys. *)
Lemma length_by_key {A : Type} (f : A -> string) (k : nat) :
  forall (n : nat) (l : list A),
  (length l <= n)%nat ->
  (forall h, (length (filter (fun x => f x = h) l) <= k)%nat) ->
  (length l <= k * size (list_to_set (f <$> l) : gset string))%nat.
Proof.
  induction n as [|n IH]; intros l Hn Hk.
  { destruct l; [simpl; lia | simpl in Hn; lia]. }
  destruct l as [|x l']; [simpl; lia|].
  set (l := x :: l') in *. set (h := f x).
  set (rest := filter (fun y => ¬ f y = h) l).
  assert (Hlen : length l = (length (filter (fun y => f y = h) l) + length rest)%nat).
  { rewrite <- length_app. apply Permutation_length. symmetry.
    apply filter_app_complement. }
  assert (Hshort : (length rest < length l)%nat).
  { apply (length_filter_lt _ l x); [left | intros H; apply H; reflexivity]. }
  assert (Hrest : (length rest <= k * size (list_to_set (f <$> rest) : gset string))%nat).
  { apply IH; [simpl in *; lia|]. intros h'. unfold rest.
    destruct (decide (h' = h)) as [-> | Hne].
    - replace (filter (fun y => f y = h) (filter (fun y => ¬ f y = h) l))
        with (@nil A); [simpl; lia|].
      symmetry. apply elem_of_nil_inv. intros y Hy.
      apply list_elem_of_filter in Hy as [Hy Hin].
      apply list_elem_of_filter in Hin as [Hin _]. by apply Hin.
    - rewrite list_filter_filter_l by (intros y ->; done). apply Hk. }
  assert (Hsize : (size (list_to_set (f <$> rest) : gset string) + 1
                   <= size (list_to_set (f <$> l) : gset string))%nat).
  { assert (Hsub : (list_to_set (f <$> rest) : gset string)
                   ⊆ list_to_set (f <$> l) ∖ {[h]}).
    { intros y. rewrite elem_of_difference, !elem_of_list_to_set, !list_elem_of_fmap.
      intros (z & -> & Hz). apply list_elem_of_filter in Hz as [Hz Hin].
      split; [by exists z|]. by rewrite elem_of_singleton. }
    apply subseteq_size in Hsub.
    rewrite size_difference, size_singleton in Hsub.
    - assert (Hone : ({[h]} : gset string) ⊆ list_to_set (f <$> l)).
      { apply singleton_subseteq_l, elem_of_list_to_set, list_elem_of_fmap.
        exists x. split; [done | left]. }
      apply subseteq_size in Hone. rewrite size_singleton in Hone. lia.
    - apply singleton_subseteq_l, elem_of_list_to_set, list_elem_of_fmap.
      exists x. split; [done | left]. }
  specialize (Hk h). nia.
Qed.

Lemma size_list_to_set_bound (l : list string) :
  (size (list_to_set l : gset string) <= length l)%nat.
Proof.
  induction l as [|x l IH]; [done|].
  cbn [list_to_set length]. rewrite size_union_alt, size_singleton.
  assert (Hsub : (list_to_set l ∖ {[x]} : gset string) ⊆ list_to_set l)
    by apply subseteq_difference_l, reflexivity.
  apply subseteq_size in Hsub. lia.
Qed.

Lemma omap_length_bound {A B : Type} (f : A -> option B) (l : list A) :
  (length (omap f l) <= length l)%nat.
Proof.
  induction l as [|x l IH]; [done|]. cbn [omap list_omap].
  fold (omap f l). destruct (f x); simpl; lia.
Qed.

Section Hosts.

Variable urlparse : string -> option ParseResult.

(** X20. What [_run_tavily_queries] returns has at most 15 hits per
    host, so its length is at most 15 times the number of its hosts:
    46 hits or more come from at least four hosts. *)
Theorem run_queries_host_spread (search : SearchService) (queries : list string) :
  let hits := _run_tavily_queries urlparse search queries in
  let hosts : gset string := list_to_set (hit_host urlparse <$> hits) in
  (length hits <= 15 * size hosts)%nat
  /\ ((46 <= length hits)%nat -> (4 <= size hosts)%nat).
Proof.
  intros hits hosts.
  assert (H : (length hits <= 15 * size hosts)%nat).
  { apply (length_by_key (hit_host urlparse) 15 (length hits)); [done|].
    intros h. unfold hits, _run_tavily_queries.
    destruct (cap_hosts_spec urlparse (merged_results search queries) ∅ [])
      as (kept & -> & _ & Hkept); [done|].
    rewrite app_nil_l.
    assert (Hh : of_host urlparse h kept
                 = take 15 (of_host urlparse h (merged_results search queries)))
      by apply Hkept.
    fold (of_host urlparse h kept). rewrite Hh, length_take. lia. }
  split; [exact H | lia].
Qed.

(** X21. [_distinct_domains] is the set of the lower-cased network
    locations of the URLs of the documents, the empty one left out: a
    document without a host adds nothing.  So there are at most as many
    domains as documents, and more documents never give fewer domains. *)
Theorem distinct_domains_spec (documents : list Document) :
  (forall h, h ∈ _distinct_domains urlparse documents
             <-> h <> ""
                 /\ exists d p, d ∈ documents /\ urlparse (url d) = Some p
                                /\ h = Py.lower (netloc p))
  /\ 0 <= distinct_domains urlparse documents <= len documents
  /\ (forall more, distinct_domains urlparse documents
                   <= distinct_domains urlparse (documents ++ more)%list).
Proof.
  split; [|split].
  - intros h. rewrite distinct_domains_hosts, elem_of_list_to_set, list_elem_of_omap.
    unfold host_of. split.
    + intros (d & Hd & Hh). destruct (urlparse (url d)) as [p|] eqn:Hp; [|done].
      destruct (decide (Py.lower (netloc p) = "")) as [|Hne]; [done|].
      injection Hh as <-. split; [done|]. by exists d, p.
    + intros (Hne & d & p & Hd & Hp & ->). exists d. split; [done|].
      rewrite Hp. by rewrite decide_False.
  - unfold distinct_domains, len. split; [lia|].
    rewrite distinct_domains_hosts. apply inj_le.
    etrans; [apply size_list_to_set_bound|].
    apply omap_length_bound.
  - intros more. unfold distinct_domains. apply inj_le, subseteq_size.
    rewrite !distinct_domains_hosts, omap_app, list_to_set_app_L.
    apply union_subseteq_l.
Qed.

End Hosts.

Lemma lower_char_idemp (c : ascii) : Py.lower_char (Py.lower_char c) = Py.lower_char c.
Proof. destruct c as [[] [] [] [] [] [] [] []]; reflexivity. Qed.

Lemma lower_idemp (s : string) : Py.lower (Py.lower s) = Py.lower s.
Proof.
  induction s as [|c s IH]; [done|]. simpl. by rewrite lower_char_idemp, IH.
Qed.

Lemma keep_alnum_lower_chars (s : string) :
  Forall (fun c => Py.islower c || Py.isdigit c = true)
    (list_ascii_of_string (Py.keep_alnum_lower s)).
Proof.
  induction s as [|c s IH]; simpl; [constructor|].
  destruct (Py.islower c || Py.isdigit c) eqn:Hc; [|done].
  simpl. by constructor.
Qed.

Lemma keep_alnum_lower_app (s t : string) :
  Py.keep_alnum_lower (s ++ t) = Py.keep_alnum_lower s ++ Py.keep_alnum_lower t.
Proof.
  induction s as [|c s IH]; [done|]. simpl.
  destruct (Py.islower c || Py.isdigit c); simpl; by rewrite IH.
Qed.

Lemma append_assoc (a b c : string) : (a ++ b) ++ c = a ++ (b ++ c).
Proof.
  induction a as [|x a IH]; [done|].
  change (String x ((a ++ b) ++ c) = String x (a ++ (b ++ c))). by f_equal.
Qed.

Lemma lower_app (s t : string) : Py.lower (s ++ t) = Py.lower s ++ Py.lower t.
Proof. induction s as [|c s IH]; [done|]. simpl. by rewrite IH. Qed.

Lemma keep_alnum_lower_none (s : string) :
  Py.keep_alnum_lower (Py.lower s) = ""
  <-> Forall (fun c => Py.isalpha c || Py.isdigit c = false) (list_ascii_of_string s).
Proof.
  induction s as [|c s IH]; simpl; [split; [constructor | done]|].
  rewrite Forall_cons, <- IH.
  destruct c as [[] [] [] [] [] [] [] []]; vm_compute Py.lower_char;
    simpl; split; try done; try (by intros [? ?]); try (by intros ?; split).
Qed.

Lemma alnum_lower_char (c : ascii) :
  Py.islower (Py.lower_char c) || Py.isdigit (Py.lower_char c)
  = Py.isalpha c || Py.isdigit c.
Proof. destruct c as [[] [] [] [] [] [] [] []]; reflexivity. Qed.

Lemma keep_alnum_lower_list (s : string) :
  list_ascii_of_string (Py.keep_alnum_lower (Py.lower s))
  = Py.lower_char
      <$> filter (fun c => Py.isalpha c || Py.isdigit c = true)
            (list_ascii_of_string s).
Proof.
  induction s as [|c s IH]; [done|]. simpl. rewrite filter_cons.
  rewrite alnum_lower_char.
  destruct (Py.isalpha c || Py.isdigit c) eqn:Hc.
  - rewrite decide_True by done. simpl. by rewrite IH.
  - rewrite decide_False by done. exact IH.
Qed.

(** A string of characters of the ASCII range. *)
Definition ascii_only (s : string) : Prop :=
  forallb (fun c => (Py.code c <? 128)%N) (list_ascii_of_string s) = true.

(** X22. For a company name of ASCII characters the domain hint is a
    stem followed by [.com], and the stem is exactly the letters and
    digits of the name, in their order, each letter in lower case;
    every other character is dropped.  So the stem has lower-case
    letters and digits only, the hint does not depend on the case of the
    name, the stem of a name in two parts is the stem of the first
    followed by that of the second, and a name without a letter or a
    digit gives the bare [.com]. *)
Theorem company_domain_hint_shape (company : string) :
  ascii_only company ->
  exists stem,
    _company_domain_hint company = stem ++ ".com"
    /\ list_ascii_of_string stem
       = Py.lower_char
           <$> filter (fun c => Py.isalpha c || Py.isdigit c = true)
                 (list_ascii_of_string company)
    /\ Forall (fun c => Py.islower c || Py.isdigit c = true)
         (list_ascii_of_string stem)
    /\ _company_domain_hint (Py.lower company) = _company_domain_hint company
    /\ (stem = ""
        <-> Forall (fun c => Py.isalpha c || Py.isdigit c = false)
              (list_ascii_of_string company))
    /\ (forall other,
          ascii_only other ->
          exists stem',
            _company_domain_hint (company ++ other) = stem ++ stem' ++ ".com"
            /\ _company_domain_hint other = stem' ++ ".com").
Proof.
  intros _.
  exists (Py.keep_alnum_lower (Py.lower company)). unfold _company_domain_hint.
  split; [done|]. split; [apply keep_alnum_lower_list|].
  split; [apply keep_alnum_lower_chars|].
  split; [by rewrite lower_idemp|]. split; [apply keep_alnum_lower_none|].
  intros other _. exists (Py.keep_alnum_lower (Py.lower other)).
  split; [|done]. rewrite lower_app, keep_alnum_lower_app.
  by rewrite append_assoc.
Qed.

Lemma company_domain_hint_shape_witness :
  exists stem,
    _company_domain_hint "Acme, Inc. 24" = stem ++ ".com"
    /\ list_ascii_of_string stem = list_ascii_of_string "acmeinc24".
Proof.
  destruct (company_domain_hint_shape "Acme, Inc. 24") as (stem & Hhint & Hstem & _).
  - reflexivity.
  - exists stem. split; [exact Hhint|]. rewrite Hstem. reflexivity.
Defined.

Example company_domain_hint_ex :
  _company_domain_hint "Acme, Inc." = "acmeinc.com"
  /\ _company_domain_hint "  " = ".com".
Proof. split; reflexivity. Qed.

(** ** The merge of a batch *)

Lemma union_singleton_elem (x : string) (X : gset string) :
  x ∈ X -> X ∪ {[x]} = X.
Proof.
  intros Hx. apply set_eq. intros y. rewrite elem_of_union, elem_of_singleton.
  split; [by intros [? | ->] | by left].
Qed.

Section Merge.

Variable urlparse : string -> option ParseResult.

Local Abbreviation normal := (normalized urlparse).
Local Abbreviation with_url := (filter (fun d : Document => url d <> "")).

Lemma dedup_merge_seen (analyzed : list Document) :
  forall (seen : gset string) (acc : list Document),
    (dedup_merge urlparse analyzed seen acc).1
    = seen ∪ list_to_set (normal <$> with_url analyzed).
Proof.
  induction analyzed as [|d rest IH]; intros seen acc; simpl.
  - by rewrite (right_id_L ∅ (∪)).
  - rewrite filter_cons.
    destruct (String.eqb_spec (url d) "") as [Hurl | Hurl].
    { rewrite decide_False by (intros H; by apply H). apply IH. }
    rewrite (decide_True (P := url d <> "")) by exact Hurl. cbn [fmap list_fmap list_to_set].
    fold (normal d). case_decide; rewrite IH, (assoc_L (∪)); [|done].
    by rewrite union_singleton_elem.
Qed.

Lemma dedup_merge_kept (analyzed : list Document) :
  forall (seen : gset string) (acc : list Document),
  exists added,
    (dedup_merge urlparse analyzed seen acc).2 = (acc ++ added)%list
    /\ sublist added (with_url analyzed).
Proof.
  induction analyzed as [|d rest IH]; intros seen acc; simpl.
  - exists []. by rewrite app_nil_r.
  - rewrite filter_cons.
    destruct (String.eqb_spec (url d) "") as [Hurl | Hurl].
    { rewrite decide_False by (intros H; by apply H). apply IH. }
    rewrite (decide_True (P := url d <> "")) by exact Hurl.
    case_decide.
    + destruct (IH seen acc) as (added & -> & Hsub). exists added.
      split; [done | by constructor].
    + destruct (IH (seen ∪ {[_normalize_url urlparse (url d)]}) (acc ++ [d])%list)
        as (added & -> & Hsub).
      exists (d :: added). rewrite <- app_assoc. split; [done | by constructor].
Qed.

Lemma dedup_merge_nothing (analyzed : list Document) :
  forall (seen : gset string) (acc : list Document),
    Forall (fun d => normal d ∈ seen) (with_url analyzed) ->
    dedup_merge urlparse analyzed seen acc = (seen, acc).
Proof.
  induction analyzed as [|d rest IH]; intros seen acc Hall; simpl; [done|].
  rewrite filter_cons in Hall.
  destruct (String.eqb_spec (url d) "") as [Hurl | Hurl].
  { rewrite decide_False in Hall by (intros H; by apply H). by apply IH. }
  rewrite (decide_True (P := url d <> "")) in Hall by exact Hurl. apply Forall_cons in Hall as [Hd Hall].
  rewrite decide_True by exact Hd. by apply IH.
Qed.

(** X23. Merging a batch of hits records the normal form of every hit
    that has a URL, and of no other, in the seen-set, and keeps a
    sublist of the hits with a URL, in their order.  A batch whose hits
    have all been seen adds nothing and leaves the seen-set as it is;
    in particular the same batch, found again, adds no document. *)
Theorem dedup_merge_complete (analyzed : list Document) (seen : gset string) :
  let merged := dedup_merge urlparse analyzed seen [] in
  merged.1 = seen ∪ list_to_set (normal <$> with_url analyzed)
  /\ sublist merged.2 (with_url analyzed)
  /\ (Forall (fun d => normal d ∈ seen) (with_url analyzed) ->
      merged = (seen, []))
  /\ dedup_merge urlparse analyzed merged.1 [] = (merged.1, []).
Proof.
  intros merged. unfold merged.
  split; [apply dedup_merge_seen|]. split.
  { destruct (dedup_merge_kept analyzed seen []) as (added & -> & Hsub). done. }
  split; [apply dedup_merge_nothing|].
  apply dedup_merge_nothing. rewrite dedup_merge_seen.
  apply Forall_forall. intros d Hd.
  apply elem_of_union_r, elem_of_list_to_set, list_elem_of_fmap. by exists d.
Qed.

End Merge.

Lemma dedup_merge_complete_witness :
  dedup_merge Sample.urlparse
    [ Sample.doc "web_4" "https://ACME.example/press?ref=home" "primary"
        "company" None ]
    {[ "https://acme.example/press" ]} []
  = ({[ "https://acme.example/press" ]}, []).
Proof.
  apply (dedup_merge_complete Sample.urlparse).
  repeat constructor.
Defined.

(** ** The labels of the scorer *)

(** X24. The clamp of [_calculate_reliability] never changes a score:
    the score returned is the plain sum of 0.5 and the three
    adjustments.  A primary source is
    labelled high unless it is a blog that is not recent, any other
    source only if it is a recent company page; every other document is
    labelled medium.  The reasons name the primary source and the
    recency, in this order, and nothing else. *)
Theorem reliability_labels (doc : Document) :
  let r := _calculate_reliability doc in
  let primary := source_type doc = "primary" in
  (r_reliability_score r
   == 0.5 + (if decide primary then 0.2 else 0)
      + default 0 (category_bonus (source_category doc))
      + (if is_recent doc then 0.1 else 0))%Q
  /\ (r_reliability r = "high"
      <-> primary /\ (source_category doc <> "blog" \/ is_recent doc = true)
          \/ ¬ primary /\ source_category doc = "company" /\ is_recent doc = true)
  /\ (r_reliability r = "medium" <-> r_reliability r <> "high")
  /\ r_reliability_reasons r
     = ((if decide primary then ["primary source"] else [])
        ++ (if is_recent doc then ["recent within policy window"] else []))%list.
Proof.
  intros r primary. unfold r, primary.
  unfold _calculate_reliability, category_bonus.
  destruct (String.eqb_spec (source_type doc) "primary");
    destruct (String.eqb_spec (source_category doc) "company");
    destruct (String.eqb_spec (source_category doc) "news");
    destruct (String.eqb_spec (source_category doc) "blog");
    repeat case_decide; try congruence;
    destruct (is_recent doc);
    (split; [vm_compute; reflexivity|]);
    (split; [vm_compute; intuition congruence|]);
    (split; [vm_compute; intuition congruence | reflexivity]).
Qed.

(** ** SummaryNormaliser ([_to_two_lines]) *)

Definition LF : string := Py.chr (ascii_of_nat 10).

(** The offset of the first code fence in [s], if there is one. *)
Fixpoint find_fence (s : string) : option nat :=
  match s with
  | EmptyString => None
  | String _ s' =>
      if String.prefix "```" s then Some 0%nat else S <$> find_fence s'
  end.

(** The length of the match of [```.*?```] (with [re.DOTALL]) at the
    start of [s]: an opening fence, the shortest text up to a closing
    fence, and that fence. *)
Definition fence_length (s : string) : option nat :=
  match s with
  | String "`" (String "`" (String "`" body)) =>
      (fun n => (6 + n)%nat) <$> find_fence body
  | _ => None
  end.

(** [re.sub(r"```.*?```", "", s, flags=re.DOTALL)]: the matches are
    found from left to right and do not overlap; [skip] is the number of
    characters of the current match that are still to be dropped. *)
Fixpoint remove_fences (skip : nat) (s : string) : string :=
  match s with
  | EmptyString => EmptyString
  | String c s' =>
      match skip with
      | S k => remove_fences k s'
      | O =>
          match fence_length s with
          | Some (S k) => remove_fences k s'
          | _ => String c (remove_fences 0 s')
          end
      end
  end.

(** [re.sub(r"\s+", " ", s)]; [in_run] tells that the character before
    was white space, for which the blank has been written. *)
Fixpoint collapse_ws (in_run : bool) (s : string) : string :=
  match s with
  | EmptyString => EmptyString
  | String c s' =>
      if Py.isspace c
      then (if in_run then collapse_ws true s'
            else String " " (collapse_ws true s'))
      else String c (collapse_ws false s')
  end.

(** Whether a word ends before [s]. *)
Definition at_break (s : string) : bool :=
  match s with
  | EmptyString => true
  | String c _ => Py.isspace c
  end.

(** [s.split()]: the maximal runs of characters that are not white space. *)
Fixpoint split (s : string) : list string :=
  match s with
  | EmptyString => []
  | String c s' =>
      if Py.isspace c then split s'
      else if at_break s' then String c EmptyString :: split s'
      else match split s' with
           | w :: ws => String c w :: ws
           | [] => [String c EmptyString]
           end
  end.

(** [" ".join(words)] *)
Definition join (words : list string) : string := String.concat " " words.

(** [_to_two_lines]; [None] is Python's [None]. *)
Definition _to_two_lines (text : string) : option string :=
  if String.eqb text "" then None
  else
    let txt := Py.strip (remove_fences 0 text) in
    let txt := Py.strip (collapse_ws false txt) in
    let words := split txt in
    if len words <=? 18 then Some txt
    else
      let mid := Z.to_nat (len words / 2) in
      let line1 := join (take mid words) in
      let line2 := join (drop mid words) in
      Some (line1 ++ LF ++ line2).


Example to_two_lines_ex :
  remove_fences 0 "a ```x``` b ````y``` c ``` d" = "a  b  c ``` d"
  /\ split "  ab  c d " = ["ab"; "c"; "d"]
  /\ _to_two_lines "  " = Some ""
  /\ _to_two_lines " a ```code``` b   c " = Some "a b c"
  /\ _to_two_lines "1 2 3 4 5 6 7 8 9 10 11 12 13 14 15 16 17 18 19"
     = Some ("1 2 3 4 5 6 7 8 9" ++ LF ++ "10 11 12 13 14 15 16 17 18 19").
Proof. repeat split. Qed.

(** *** Words *)

Fixpoint no_space (s : string) : bool :=
  match s with
  | EmptyString => true
  | String c s' => negb (Py.isspace c) && no_space s'
  end.

(** A word: a non-empty string without white space. *)
Definition word (w : string) : Prop := w <> "" /\ no_space w = true.

Fixpoint count_char (c : ascii) (s : string) : nat :=
  match s with
  | EmptyString => 0
  | String c' s' => ((if Ascii.eqb c c' then 1 else 0) + count_char c s')%nat
  end.

Lemma split_nonspace (c : ascii) (s : string) :
  Py.isspace c = false ->
  split (String c s)
  = if at_break s then String c EmptyString :: split s
    else match split s with
         | w :: ws => String c w :: ws
         | [] => [String c EmptyString]
         end.
Proof. intros H. simpl. by rewrite H. Qed.

Lemma split_not_nil (s : string) : at_break s = false -> split s <> [].
Proof.
  destruct s as [|c s]; [done|]. simpl. intros ->.
  destruct (at_break s); [done|]. by destruct (split s).
Qed.

Lemma split_words (s : string) : Forall word (split s).
Proof.
  induction s as [|c s IH]; simpl; [constructor|].
  destruct (Py.isspace c) eqn:Hc; [done|].
  assert (Hw : forall w, no_space w = true -> word (String c w)).
  { intros w Hw. split; [done|]. simpl. by rewrite Hc, Hw. }
  destruct (at_break s); [constructor; [by apply Hw | done]|].
  destruct (split s) as [|w ws]; [repeat constructor; by apply Hw|].
  apply Forall_cons in IH as [[_ ?] ?]. constructor; [by apply Hw | done].
Qed.

Lemma join_cons (w : string) (ws : list string) :
  join (w :: ws) = match ws with [] => w | _ => w ++ " " ++ join ws end.
Proof. by destruct ws. Qed.

Lemma join_empty (ws : list string) :
  Forall word ws -> join ws = "" -> ws = [].
Proof.
  destruct ws as [|w ws]; [done|]. intros Hall. apply Forall_cons in Hall as [[Hne _] _].
  rewrite join_cons. destruct w as [|c w]; [done|]. by destruct ws.
Qed.

(** *** The normal form of a text *)

Lemma rstrip_cons (c : ascii) (s : string) :
  Py.isspace c = false -> Py.rstrip (String c s) = String c (Py.rstrip s).
Proof. intros H. simpl. rewrite H. by destruct (Py.rstrip s). Qed.

Lemma rstrip_collapse (s : string) :
  Py.rstrip (collapse_ws true s) = join (split s)
  /\ Py.rstrip (collapse_ws false s)
     = if at_break s
       then match split s with [] => "" | _ => " " ++ join (split s) end
       else join (split s).
Proof.
  induction s as [|c s [IHt IHf]]; [done|]. cbn [collapse_ws at_break].
  destruct (Py.isspace c) eqn:Hc.
  - assert (Hs : split (String c s) = split s) by (simpl; by rewrite Hc).
    rewrite Hs. split; [exact IHt|].
    cbn [Py.rstrip]. rewrite IHt.
    destruct (split s) as [|w ws] eqn:Hws; [done|].
    destruct (join (w :: ws)) eqn:Hj; [|done].
    apply join_empty in Hj; [done|]. rewrite <- Hws. apply split_words.
  - rewrite !rstrip_cons, IHf, (split_nonspace _ _ Hc) by done.
    assert (Hgoal : String c
                      (if at_break s
                       then match split s with [] => "" | _ => " " ++ join (split s) end
                       else join (split s))
                    = join (if at_break s then String c "" :: split s
                            else match split s with
                                 | w :: ws => String c w :: ws
                                 | [] => [String c ""]
                                 end)).
    { destruct (at_break s) eqn:Hb.
      - rewrite join_cons. by destruct (split s).
      - pose proof (split_not_nil s Hb) as Hne.
        destruct (split s) as [|w ws]; [done|]. rewrite !join_cons. by destruct ws. }
    by rewrite Hgoal.
Qed.

Lemma split_lstrip (s : string) : split (Py.lstrip s) = split s.
Proof.
  induction s as [|c s IH]; [done|]. simpl.
  destruct (Py.isspace c) eqn:Hc; [exact IH|]. simpl. by rewrite Hc.
Qed.

Lemma rstrip_head (s : string) :
  Py.rstrip s = "" /\ split s = []
  \/ Py.rstrip s <> "" /\ at_break (Py.rstrip s) = at_break s.
Proof.
  induction s as [|c s IH]; [by left|]. cbn [Py.rstrip].
  destruct IH as [[-> Hs] | [Hne _]].
  - destruct (Py.isspace c) eqn:Hc; [left; simpl; by rewrite Hc | by right].
  - right. by destruct (Py.rstrip s).
Qed.

Lemma rstrip_cons_nonempty (c : ascii) (s : string) :
  Py.rstrip s <> "" -> Py.rstrip (String c s) = String c (Py.rstrip s).
Proof. intros H. simpl. by destruct (Py.rstrip s). Qed.

Lemma split_rstrip (s : string) : split (Py.rstrip s) = split s.
Proof.
  induction s as [|c s IH]; [done|].
  destruct (rstrip_head s) as [[Hr Hs] | [Hne Hb]].
  - cbn [Py.rstrip]. rewrite Hr. destruct (Py.isspace c) eqn:Hc; simpl; rewrite Hc, ?Hs; [done|].
    destruct s as [|c' s]; [done|]. simpl in *.
    destruct (Py.isspace c') eqn:Hc'; [done|]. exfalso.
    revert Hs. destruct (at_break s); [done|]. by destruct (split s).
  - rewrite rstrip_cons_nonempty by done.
    destruct (Py.isspace c) eqn:Hc.
    + cbn [split]. rewrite Hc. exact IH.
    + by rewrite !(split_nonspace _ _ Hc), Hb, IH.
Qed.

Lemma split_strip (s : string) : split (Py.strip s) = split s.
Proof. unfold Py.strip. by rewrite split_rstrip, split_lstrip. Qed.

Lemma lstrip_head (s : string) :
  Py.lstrip s = "" \/ at_break (Py.lstrip s) = false.
Proof.
  induction s as [|c s IH]; [by left|]. simpl.
  destruct (Py.isspace c) eqn:Hc; [exact IH|]. right. simpl. exact Hc.
Qed.

Lemma strip_head (s : string) :
  Py.strip s = "" \/ at_break (Py.strip s) = false.
Proof.
  unfold Py.strip. destruct (rstrip_head (Py.lstrip s)) as [[-> _] | [_ ->]];
    [by left|].
  destruct (lstrip_head s) as [H | H]; [|by right].
  left. by rewrite H.
Qed.

(** Stripping, collapsing the white space and stripping again leaves
    the words of the text, joined by single blanks. *)
Lemma normal_form (s : string) :
  Py.strip (collapse_ws false (Py.strip s)) = join (split s).
Proof.
  rewrite <- (split_strip s).
  destruct (strip_head s) as [-> | Hb]; [done|].
  destruct (Py.strip s) as [|c t] eqn:Ht; [done|]. simpl in Hb.
  unfold Py.strip at 1. cbn [collapse_ws]. rewrite Hb. cbn [Py.lstrip]. rewrite Hb.
  destruct (rstrip_collapse (String c t)) as [_ H].
  cbn [collapse_ws at_break] in H. by rewrite Hb in H.
Qed.

(** *** Splitting a joined text *)

Lemma at_break_app (a : string) (c : ascii) (b : string) :
  Py.isspace c = true -> at_break (a ++ String c b) = at_break a.
Proof. intros Hc. by destruct a. Qed.

Lemma split_app_space (a : string) (c : ascii) (b : string) :
  Py.isspace c = true ->
  split (a ++ String c b) = (split a ++ split b)%list.
Proof.
  intros Hc. induction a as [|x a IH].
  - simpl. by rewrite Hc.
  - change (String x a ++ String c b) with (String x (a ++ String c b)).
    destruct (Py.isspace x) eqn:Hx.
    + simpl. by rewrite Hx.
    + rewrite !(split_nonspace _ _ Hx), at_break_app, IH by done.
      destruct (at_break a) eqn:Ha; [done|].
      pose proof (split_not_nil a Ha). by destruct (split a).
Qed.

Lemma split_word (w : string) : word w -> split w = [w].
Proof.
  intros [Hne Hw]. induction w as [|c w IH]; [done|]. simpl in Hw.
  apply andb_prop in Hw as [Hc Hw]. apply negb_true_iff in Hc.
  rewrite (split_nonspace _ _ Hc). destruct w as [|c' w]; [done|].
  rewrite IH by done. simpl in Hw. apply andb_prop in Hw as [Hc' _].
  apply negb_true_iff in Hc'. simpl. by rewrite Hc'.
Qed.

Lemma split_join (ws : list string) : Forall word ws -> split (join ws) = ws.
Proof.
  induction ws as [|w ws IH]; [done|]. intros Hall.
  apply Forall_cons in Hall as [Hw Hall]. rewrite join_cons.
  destruct ws as [|w' ws']; [by apply split_word|].
  change (w ++ " " ++ join (w' :: ws')) with (w ++ String " " (join (w' :: ws'))).
  rewrite split_app_space by done. by rewrite split_word, IH.
Qed.

Lemma count_char_app (c : ascii) (a b : string) :
  count_char c (a ++ b) = (count_char c a + count_char c b)%nat.
Proof.
  induction a as [|x a IH]; [done|].
  change (String x a ++ b) with (String x (a ++ b)). simpl. rewrite IH. lia.
Qed.

Lemma count_space_word (c : ascii) (w : string) :
  Py.isspace c = true -> no_space w = true -> count_char c w = 0%nat.
Proof.
  intros Hc. induction w as [|x w IH]; [done|]. simpl. intros Hw.
  apply andb_prop in Hw as [Hx Hw]. apply negb_true_iff in Hx.
  rewrite IH by done. destruct (Ascii.eqb_spec c x) as [<- | _]; [congruence | done].
Qed.

Lemma count_line_feed_join (ws : list string) :
  Forall word ws -> count_char (ascii_of_nat 10) (join ws) = 0%nat.
Proof.
  induction ws as [|w ws IH]; [done|]. intros Hall.
  apply Forall_cons in Hall as [[_ Hw] Hall]. rewrite join_cons.
  destruct ws as [|w' ws']; [by apply count_space_word|].
  rewrite !count_char_app, IH, count_space_word by done. reflexivity.
Qed.

(** X25. [_to_two_lines] returns [None] for the empty string only.
    Otherwise the result consists of the words of the text that is left
    when the fenced code blocks are removed, in their order and
    separated by single blanks: on one line when there are at most 18
    words, and otherwise on two lines, the first with half of the words,
    rounded down, and the second with the rest.  There is never a third
    line, and no word is dropped, whatever the length of the text. *)
Theorem to_two_lines_shape (text : string) :
  let words := split (remove_fences 0 text) in
  let mid := (length words / 2)%nat in
  (_to_two_lines text = None <-> text = "")
  /\ forall out, _to_two_lines text = Some out ->
       split out = words
       /\ (count_char (ascii_of_nat 10) out <= 1)%nat
       /\ ((length words <= 18)%nat -> out = join words)
       /\ ((18 < length words)%nat ->
           out = join (take mid words) ++ LF ++ join (drop mid words)
           /\ (9 <= length (take mid words) <= length (drop mid words))%nat).
Proof.
  intros words mid. unfold _to_two_lines.
  destruct (String.eqb_spec text "") as [-> | Hne]; [done|].
  split; [split; [by destruct (_ <=? 18) | done]|].
  rewrite normal_form. fold words.
  assert (Hwords : Forall word words) by apply split_words.
  assert (Hmid : Z.to_nat (len words / 2) = mid).
  { unfold len, mid. rewrite <- (Nat2Z.inj_div _ 2). lia. }
  rewrite split_join by done. rewrite Hmid.
  assert (Hsplit : words = (take mid words ++ drop mid words)%list)
    by (by rewrite take_drop).
  unfold len. destruct (Z.leb_spec (Z.of_nat (length words)) 18) as [Hle | Hgt];
    intros out [= <-].
  - split; [by apply split_join|].
    split; [rewrite count_line_feed_join by done; lia|].
    split; [done|]. lia.
  - assert (Htake : Forall word (take mid words)) by (by apply Forall_take).
    assert (Hdrop : Forall word (drop mid words)) by (by apply Forall_drop).
    split.
    { unfold LF, Py.chr.
      change (join (take mid words) ++ String (ascii_of_nat 10) "" ++ join (drop mid words))
        with (join (take mid words) ++ String (ascii_of_nat 10) (join (drop mid words))).
      rewrite split_app_space by done. by rewrite !split_join, take_drop. }
    split.
    { unfold LF, Py.chr. rewrite !count_char_app, !count_line_feed_join by done.
      simpl. lia. }
    split; [lia|]. intros _. split; [done|].
    rewrite length_take, length_drop.
    assert (mid <= length words)%nat by (unfold mid; apply Nat.Div0.div_le_upper_bound; lia).
    assert (9 <= mid)%nat by (unfold mid; apply Nat.div_le_lower_bound; lia).
    assert (2 * mid <= length words)%nat
      by (unfold mid; apply Nat.Div0.mul_div_le).
    lia.
Qed.

Lemma to_two_lines_shape_witness :
  split "a b c" = split (remove_fences 0 " a ```code``` b   c ")
  /\ _to_two_lines "" = None.
Proof.
  destruct (to_two_lines_shape " a ```code``` b   c ") as [_ H].
  destruct (H "a b c" eq_refl) as [Hsplit _].
  destruct (to_two_lines_shape "") as [Hnone _].
  split; [exact Hsplit | by apply Hnone].
Defined.
